(** * Duet3Expansion: closed-loop tuning, shared SPI transport, linear analog sensor

    A shallow embedding of
    - [src/ClosedLoop/Tuning.cpp]  (BasicTuning, EncoderCalibration, Step, PerformTune),
    - [src/Hardware/SharedSpiDevice.cpp] (the polled waits, SetupMaster, TransceivePacket),
    - [src/Heating/Sensors/LinearAnalogSensor.cpp] (the constructor, Configure,
      Poll, CalcDerivedParameters),
    followed by the properties of these functions.

    Conventions.  Fixed-width integers are [Z] with the wrap-around written
    out.  Static-duration locals become fields of explicit state records.
    Calls into collaborators whose code lives elsewhere (the stepper driver,
    the encoder's lookup table, the closed-loop module) are recorded, newest
    first, in an event trace.  [float] is an interface ([FloatOps]) with two
    instances: IEEE-754 binary32 (what the target computes) and exact
    rationals (the arithmetic the regression formulas are derived in). *)

From Stdlib Require Import ZArith QArith List Bool Lia Lqa.
From Stdlib Require Import Floats.SpecFloat.
From stdpp Require Import list.
Import ListNotations.

Open Scope Z_scope.

(* ===================================================================== *)
(** * Machine integers *)
(* ===================================================================== *)

Module Int.

(** Reduction into an unsigned [w]-bit range. *)
Definition wrap_u (w : Z) (x : Z) : Z := x mod 2 ^ w.

(** Reduction into a signed two's-complement [w]-bit range. *)
Definition wrap_s (w : Z) (x : Z) : Z :=
  (x + 2 ^ (w - 1)) mod 2 ^ w - 2 ^ (w - 1).

Definition u8  := wrap_u 8.
Definition u16 := wrap_u 16.
Definition u32 := wrap_u 32.
Definition s32 := wrap_s 32.

End Int.

(* ===================================================================== *)
(** * Single-precision arithmetic *)
(* ===================================================================== *)

(** The operations the sources use on [float]. *)
Class FloatOps := {
  F : Type;
  F_of_Z : Z -> F;          (* conversion (float)n of an integer *)
  F_half : F;               (* the literal 0.5 *)
  Fadd : F -> F -> F;
  Fsub : F -> F -> F;
  Fmul : F -> F -> F;
  Fdiv : F -> F -> F;
  Fopp : F -> F
}.

(** IEEE-754 binary32, round to nearest even: 24 bits of precision,
    maximal exponent 128. *)
Module B32.
Definition prec : Z := 24.
Definition emax : Z := 128.
Definition of_Z (n : Z) : spec_float := binary_normalize prec emax n 0 false.
Definition half : spec_float := S754_finite false 8388608 (-24).
Definition add := SFadd prec emax.
Definition sub := SFsub prec emax.
Definition mul := SFmul prec emax.
Definition div := SFdiv prec emax.
Definition opp := SFopp.
End B32.

#[export] Instance binary32 : FloatOps := {|
  F := spec_float;
  F_of_Z := B32.of_Z;
  F_half := B32.half;
  Fadd := B32.add;
  Fsub := B32.sub;
  Fmul := B32.mul;
  Fdiv := B32.div;
  Fopp := B32.opp
|}.

(** Exact rational arithmetic. *)
Definition exactQ : FloatOps := {|
  F := Q;
  F_of_Z := inject_Z;
  F_half := (1 # 2)%Q;
  Fadd := Qplus;
  Fsub := Qminus;
  Fmul := Qmult;
  Fdiv := Qdiv;
  Fopp := Qopp
|}.

(** [fcube] of the RepRapFirmware support library: [a * a * a]. *)
Definition fcube `{FloatOps} (a : F) : F := Fmul (Fmul a a) a.

(* ===================================================================== *)
(** * ClosedLoop: shared state of the tuning engine *)
(* ===================================================================== *)

Module ClosedLoop.

(** Tuning errors and manoeuvres, as ClosedLoop.h declares them. *)
Definition TUNE_ERR_SYSTEM_ERROR : Z := Z.shiftl 1 7.
Definition CONTINUOUS_PHASE_INCREASE_MANOEUVRE : Z := Z.shiftl 1 5.
Definition STEP_MANOEUVRE : Z := Z.shiftl 1 6.
Definition ZIEGLER_NICHOLS_MANOEUVRE : Z := Z.shiftl 1 7.

(** What Tuning.cpp uses and the header at hand does not declare: the two
    request bits, the error bit of basic tuning, and the scaling of the
    encoder calibration.  [realWorldPosOf u] stands for the [float] value of
    [u / (1024 * (360.0 / PulsePerStepToExternalUnits(encoderPulsePerStep,
    EncoderType::AS5047)))], where [u] is the unsigned product
    [GetMaxValue() * positionCounter]. *)
Class TuningEnv `{FloatOps} := {
  BASIC_TUNING_MANOEUVRE : Z;
  ENCODER_CALIBRATION_MANOEUVRE : Z;
  TUNE_ERR_NOT_DONE_BASIC : Z;
  realWorldPosOf : Z -> F
}.

Inductive DriverMode :=
  constantOffTime | randomOffTime | spreadCycle | stealthChop | direct.

Definition DriverMode_eqb (a b : DriverMode) : bool :=
  match a, b with
  | constantOffTime, constantOffTime | randomOffTime, randomOffTime
  | spreadCycle, spreadCycle | stealthChop, stealthChop | direct, direct => true
  | _, _ => false
  end.

Inductive EncoderPositioningType := absolute | relative.

(** The encoder behind [ClosedLoop::encoder].  [samples k] is what the
    [k]-th call of [GetReading] returns (an [int32_t]). *)
Record Encoder := {
  PositioningType : EncoderPositioningType;
  MaxValue : Z;
  LUTResolution : Z;
  samples : nat -> Z
}.

(** The same encoder with every reading raised by the constant [c]. *)
Definition shiftReadings (c : Z) (enc : Encoder) : Encoder :=
  {| PositioningType := PositioningType enc;
     MaxValue := MaxValue enc;
     LUTResolution := LUTResolution enc;
     samples := fun k => samples enc k + c |}.

Section State.
Context `{FO : FloatOps}.

(** Calls that leave Tuning.cpp. *)
Inductive event :=
  | SetForwardPolarity
  | SetMotorPhase (phase : Z) (magnitude : F)
  | SaveBasicTuningResult (slope origin xMean : F) (reverse : bool)
  | FinishedBasicTuning
  | ClearLUT
  | StoreLUTValueForPosition (reading : Z) (realWorldPos : F)
  | StoreLUT
  | AdjustTargetMotorSteps (amount : F).

Inductive BasicTuningState := forwardInitial | forwards | reverseInitial | reverse.

(** The static locals of [BasicTuning]. *)
Record BasicTuningVars := {
  state : BasicTuningState;
  initialStepPhase : Z;              (* uint16_t *)
  initialEncoderReading : Z;         (* int32_t *)
  stepCounter : Z;                   (* unsigned int *)
  regressionAccumulator : F;
  readingAccumulator : F
}.

(** The static locals of [EncoderCalibration]. *)
Record EncoderCalibrationVars := {
  targetPosition : Z;                (* int *)
  positionCounter : Z                (* int *)
}.

Record t := {
  tuning : Z;                        (* uint8_t *)
  tuningError : Z;                   (* uint8_t *)
  desiredStepPhase : Z;              (* uint16_t *)
  currentEncoderReading : Z;         (* int32_t *)
  driverMode : DriverMode;           (* SmartDrivers::GetDriverMode(0) *)
  encoder : option Encoder;          (* nullptr is None *)
  encoderReads : nat;                (* calls of GetReading so far *)
  newTuningMove : bool;              (* static local of PerformTune *)
  basicTuning : BasicTuningVars;
  encoderCalibration : EncoderCalibrationVars;
  trace : list event                 (* newest first *)
}.

Definition set_tuning (v : Z) (cl : t) : t :=
  {| tuning := v; tuningError := tuningError cl;
     desiredStepPhase := desiredStepPhase cl;
     currentEncoderReading := currentEncoderReading cl;
     driverMode := driverMode cl; encoder := encoder cl;
     encoderReads := encoderReads cl; newTuningMove := newTuningMove cl;
     basicTuning := basicTuning cl;
     encoderCalibration := encoderCalibration cl; trace := trace cl |}.

Definition set_tuningError (v : Z) (cl : t) : t :=
  {| tuning := tuning cl; tuningError := v;
     desiredStepPhase := desiredStepPhase cl;
     currentEncoderReading := currentEncoderReading cl;
     driverMode := driverMode cl; encoder := encoder cl;
     encoderReads := encoderReads cl; newTuningMove := newTuningMove cl;
     basicTuning := basicTuning cl;
     encoderCalibration := encoderCalibration cl; trace := trace cl |}.

Definition set_desiredStepPhase (v : Z) (cl : t) : t :=
  {| tuning := tuning cl; tuningError := tuningError cl;
     desiredStepPhase := v;
     currentEncoderReading := currentEncoderReading cl;
     driverMode := driverMode cl; encoder := encoder cl;
     encoderReads := encoderReads cl; newTuningMove := newTuningMove cl;
     basicTuning := basicTuning cl;
     encoderCalibration := encoderCalibration cl; trace := trace cl |}.

Definition set_encoderReads (v : nat) (cl : t) : t :=
  {| tuning := tuning cl; tuningError := tuningError cl;
     desiredStepPhase := desiredStepPhase cl;
     currentEncoderReading := currentEncoderReading cl;
     driverMode := driverMode cl; encoder := encoder cl;
     encoderReads := v; newTuningMove := newTuningMove cl;
     basicTuning := basicTuning cl;
     encoderCalibration := encoderCalibration cl; trace := trace cl |}.

Definition set_newTuningMove (v : bool) (cl : t) : t :=
  {| tuning := tuning cl; tuningError := tuningError cl;
     desiredStepPhase := desiredStepPhase cl;
     currentEncoderReading := currentEncoderReading cl;
     driverMode := driverMode cl; encoder := encoder cl;
     encoderReads := encoderReads cl; newTuningMove := v;
     basicTuning := basicTuning cl;
     encoderCalibration := encoderCalibration cl; trace := trace cl |}.

Definition set_basicTuning (v : BasicTuningVars) (cl : t) : t :=
  {| tuning := tuning cl; tuningError := tuningError cl;
     desiredStepPhase := desiredStepPhase cl;
     currentEncoderReading := currentEncoderReading cl;
     driverMode := driverMode cl; encoder := encoder cl;
     encoderReads := encoderReads cl; newTuningMove := newTuningMove cl;
     basicTuning := v;
     encoderCalibration := encoderCalibration cl; trace := trace cl |}.

Definition set_encoderCalibration (v : EncoderCalibrationVars) (cl : t) : t :=
  {| tuning := tuning cl; tuningError := tuningError cl;
     desiredStepPhase := desiredStepPhase cl;
     currentEncoderReading := currentEncoderReading cl;
     driverMode := driverMode cl; encoder := encoder cl;
     encoderReads := encoderReads cl; newTuningMove := newTuningMove cl;
     basicTuning := basicTuning cl;
     encoderCalibration := v; trace := trace cl |}.

Definition set_currentEncoderReading (v : Z) (cl : t) : t :=
  {| tuning := tuning cl; tuningError := tuningError cl;
     desiredStepPhase := desiredStepPhase cl;
     currentEncoderReading := v;
     driverMode := driverMode cl; encoder := encoder cl;
     encoderReads := encoderReads cl; newTuningMove := newTuningMove cl;
     basicTuning := basicTuning cl;
     encoderCalibration := encoderCalibration cl; trace := trace cl |}.

(** Record one outgoing call. *)
Definition emit (e : event) (cl : t) : t :=
  {| tuning := tuning cl; tuningError := tuningError cl;
     desiredStepPhase := desiredStepPhase cl;
     currentEncoderReading := currentEncoderReading cl;
     driverMode := driverMode cl; encoder := encoder cl;
     encoderReads := encoderReads cl; newTuningMove := newTuningMove cl;
     basicTuning := basicTuning cl;
     encoderCalibration := encoderCalibration cl; trace := e :: trace cl |}.

(** [b] has the requests, the errors, the driver mode, the encoder and the
    dispatcher's flag of [a]: what a manoeuvre step leaves alone. *)
Definition sameRequests (a b : t) : Prop :=
  tuning b = tuning a /\ tuningError b = tuningError a /\
  driverMode b = driverMode a /\ encoder b = encoder a /\
  newTuningMove b = newTuningMove a.

(** [a] and [b] agree on all that [BasicTuning] reads. *)
Definition sameBasic (a b : t) : Prop :=
  basicTuning a = basicTuning b /\
  desiredStepPhase a = desiredStepPhase b /\
  encoderReads a = encoderReads b.

(** [encoder->GetReading()]: the next sample of the encoder. *)
Definition GetReading (enc : Encoder) (cl : t) : Z * t :=
  (samples enc (encoderReads cl), set_encoderReads (S (encoderReads cl)) cl).

End State.

Arguments event {FO}.
Arguments BasicTuningVars {FO}.
Arguments t {FO}.

End ClosedLoop.

(* ===================================================================== *)
(** * Tuning.cpp *)
(* ===================================================================== *)

Module Tuning.
Import ClosedLoop.

Section Manoeuvres.
Context `{FO : FloatOps} `{TE : !TuningEnv}.

(** ** Basic tuning *)

(** The two [float] constants are written with [double] literals in the
    source ([* 0.5], [/ 12.0]); every value on the way is exact in single
    precision (255.5, 2^27, 134217216, 1073737728, 89478144), so the single
    precision operations give the same constants. *)
Definition NumDummySteps : Z := 8.
Definition PhaseIncrement : Z := 8.
Definition NumSamples : Z := 4096 / PhaseIncrement.
Definition HalfNumSamplesMinusOne : F := Fmul (F_of_Z (NumSamples - 1)) F_half.
Definition Denominator : F :=
  Fdiv (Fmul (F_of_Z PhaseIncrement)
             (Fsub (fcube (F_of_Z NumSamples)) (F_of_Z NumSamples)))
       (F_of_Z 12).

(** [desiredStepPhase += d; SetMotorPhase(desiredStepPhase, 1.0)] *)
Definition stepPhase (d : Z) (cl : t) : t :=
  let p := Int.u16 (desiredStepPhase cl + d) in
  emit (SetMotorPhase p (F_of_Z 1)) (set_desiredStepPhase p cl).

(** The settling states: move, count, and after [NumDummySteps] moves clear
    the accumulators and enter the collecting state [next]. *)
Definition settle (d : Z) (next : BasicTuningState) (cl : t) : t :=
  let cl := stepPhase d cl in
  let bt := basicTuning cl in
  let n := Int.u32 (stepCounter bt + 1) in
  if n =? NumDummySteps then
    set_basicTuning
      {| state := next;
         initialStepPhase := desiredStepPhase cl;
         initialEncoderReading := initialEncoderReading bt;
         stepCounter := 0;
         regressionAccumulator := F_of_Z 0;
         readingAccumulator := F_of_Z 0 |} cl
  else
    set_basicTuning
      {| state := state bt;
         initialStepPhase := initialStepPhase bt;
         initialEncoderReading := initialEncoderReading bt;
         stepCounter := n;
         regressionAccumulator := regressionAccumulator bt;
         readingAccumulator := readingAccumulator bt |} cl.

(** The block that opens both collecting states: read the encoder, latch the
    first reading as the baseline, add to both accumulators. *)
Definition collect (enc : Encoder) (cl : t) : t :=
  let '(reading, cl) := GetReading enc cl in
  let bt := basicTuning cl in
  let base := if stepCounter bt =? 0 then reading else initialEncoderReading bt in
  let y := F_of_Z (Int.s32 (reading - base)) in
  set_basicTuning
    {| state := state bt;
       initialStepPhase := initialStepPhase bt;
       initialEncoderReading := base;
       stepCounter := stepCounter bt;
       regressionAccumulator :=
         Fadd (regressionAccumulator bt)
              (Fmul y (Fsub (F_of_Z (stepCounter bt)) HalfNumSamplesMinusOne));
       readingAccumulator := Fadd (readingAccumulator bt) y |} cl.

Definition yMean (bt : BasicTuningVars) : F :=
  Fadd (Fdiv (readingAccumulator bt) (F_of_Z NumSamples))
       (F_of_Z (initialEncoderReading bt)).

Definition slope (rev : bool) (bt : BasicTuningVars) : F :=
  Fdiv (regressionAccumulator bt)
       (if rev then Fopp Denominator else Denominator).

Definition xMean (rev : bool) (bt : BasicTuningVars) : F :=
  (if rev then Fsub else Fadd)
    (F_of_Z (initialStepPhase bt))
    (Fmul (F_of_Z PhaseIncrement) HalfNumSamplesMinusOne).

Definition origin (rev : bool) (bt : BasicTuningVars) : F :=
  Fsub (yMean bt) (Fmul (slope rev bt) (xMean rev bt)).

(** [ClosedLoop::SaveBasicTuningResult(slope, origin, xMean, rev)] *)
Definition saveResult (rev : bool) (cl : t) : t :=
  let bt := basicTuning cl in
  emit (SaveBasicTuningResult (slope rev bt) (origin rev bt) (xMean rev bt) rev) cl.

Definition set_state_counter (s : BasicTuningState) (n : Z) (cl : t) : t :=
  let bt := basicTuning cl in
  set_basicTuning
    {| state := s;
       initialStepPhase := initialStepPhase bt;
       initialEncoderReading := initialEncoderReading bt;
       stepCounter := n;
       regressionAccumulator := regressionAccumulator bt;
       readingAccumulator := readingAccumulator bt |} cl.

Definition BasicTuning (enc : Encoder) (firstIteration : bool) (cl : t) : bool * t :=
  let cl :=
    if firstIteration
    then emit SetForwardPolarity (set_state_counter forwardInitial 0 cl)
    else cl in
  match state (basicTuning cl) with
  | forwardInitial => (false, settle PhaseIncrement forwards cl)
  | forwards =>
      let cl := collect enc cl in
      if stepCounter (basicTuning cl) =? NumSamples then
        (false, set_state_counter reverseInitial 0 (saveResult false cl))
      else
        let cl := stepPhase PhaseIncrement cl in
        (false, set_state_counter forwards
                  (Int.u32 (stepCounter (basicTuning cl) + 1)) cl)
  | reverseInitial => (false, settle (- PhaseIncrement) reverse cl)
  | reverse =>
      let cl := collect enc cl in
      if stepCounter (basicTuning cl) =? NumSamples then
        (true, emit FinishedBasicTuning (saveResult true cl))
      else
        let cl := stepPhase (- PhaseIncrement) cl in
        (false, set_state_counter reverse
                  (Int.u32 (stepCounter (basicTuning cl) + 1)) cl)
  end.

(** ** Magnetic encoder calibration *)

Definition set_target_counter (tp pc : Z) (cl : t) : t :=
  set_encoderCalibration {| targetPosition := tp; positionCounter := pc |} cl.

(** The phase commanded from the position counter; [%] truncates. *)
Definition calibrationPhase (pc : Z) : Z :=
  Int.u16 ((if pc >? 0 then 0 else 4096) + Z.rem pc 4096).

Definition EncoderCalibration (enc : Encoder) (firstIteration : bool) (cl : t)
  : bool * t :=
  match PositioningType enc with
  | relative => (true, cl)
  | absolute =>
      let cl := if firstIteration
                then set_target_counter 0 0 (emit ClearLUT cl) else cl in
      let tp := targetPosition (encoderCalibration cl) in
      let pc := positionCounter (encoderCalibration cl) in
      let r := currentEncoderReading cl in
      let cl :=
        if r <? tp then set_target_counter tp (Int.s32 (pc + 1)) cl
        else if r >? tp then set_target_counter tp (Int.s32 (pc - 1)) cl
        else
          set_target_counter (Int.s32 (tp + LUTResolution enc)) pc
            (emit (StoreLUTValueForPosition r
                     (realWorldPosOf (Int.u32 (MaxValue enc * pc)))) cl) in
      if Int.u32 (targetPosition (encoderCalibration cl)) >=? MaxValue enc then
        (true, emit StoreLUT cl)
      else
        let p := calibrationPhase (positionCounter (encoderCalibration cl)) in
        (false, emit (SetMotorPhase p (F_of_Z 1)) (set_desiredStepPhase p cl))
  end.

(** ** Step *)

Definition Step (firstIteration : bool) (cl : t) : bool * t :=
  (true, emit (AdjustTargetMotorSteps (F_of_Z 4)) cl).

(** ** ClosedLoop::PerformTune *)

Definition has (mask bit : Z) : bool := negb (Z.land mask bit =? 0).

Definition PerformTune (cl : t) : t :=
  match DriverMode_eqb (driverMode cl) direct, encoder cl with
  | false, _ | _, None =>
      (* not in direct drive mode, or no encoder *)
      set_tuning 0
        (set_tuningError (Z.lor (tuningError cl) TUNE_ERR_SYSTEM_ERROR) cl)
  | true, Some enc =>
      if has (tuning cl) BASIC_TUNING_MANOEUVRE then
        let cl :=
          match PositioningType enc with
          | absolute =>
              if has (tuning cl) ENCODER_CALIBRATION_MANOEUVRE
              then emit ClearLUT cl else cl
          | relative => cl
          end in
        let '(fin, cl) := BasicTuning enc (newTuningMove cl) cl in
        let cl := set_newTuningMove fin cl in
        if fin then
          set_tuning (Z.land (tuning cl) (Z.lnot BASIC_TUNING_MANOEUVRE))
            (set_tuningError
               (Z.land (tuningError cl) (Z.lnot TUNE_ERR_NOT_DONE_BASIC)) cl)
        else cl
      else if has (tuning cl) ENCODER_CALIBRATION_MANOEUVRE then
        let '(fin, cl) := EncoderCalibration enc (newTuningMove cl) cl in
        let cl := set_newTuningMove fin cl in
        if fin then set_tuning 0 cl else cl
      else if has (tuning cl) STEP_MANOEUVRE then
        let '(fin, cl) := Step (newTuningMove cl) cl in
        let cl := set_newTuningMove fin cl in
        if fin then set_tuning 0 cl else cl
      else
        set_newTuningMove true (set_tuning 0 cl)
  end.

(** [n] consecutive control-loop ticks spent in [PerformTune]. *)
Fixpoint ticks (n : nat) (cl : t) : t :=
  match n with
  | O => cl
  | S n => ticks n (PerformTune cl)
  end.

(** [n] consecutive calls of [BasicTuning], each told whether the call
    before it finished, as [PerformTune] does through [newTuningMove]; the
    result carries the flag for the next call. *)
Fixpoint BasicTuningSteps (enc : Encoder) (n : nat) (first : bool) (cl : t)
  : bool * t :=
  match n with
  | O => (first, cl)
  | S n =>
      let '(fin, cl) := BasicTuning enc first cl in
      BasicTuningSteps enc n fin cl
  end.

(** The arguments of the most recent [SaveBasicTuningResult] call. *)
Fixpoint lastSaved (tr : list event) : option (F * F * F * bool) :=
  match tr with
  | [] => None
  | SaveBasicTuningResult sl og xm rev :: _ => Some (sl, og, xm, rev)
  | _ :: tr => lastSaved tr
  end.

(** ** The sums of the regression

    For readings [rd 0, rd 1, ...] of one sweep: the [k]-th reading less the
    first one, its weight [k - (N-1)/2], and the two running sums over the
    first [n] readings, added up in the order the sweep adds them. *)
Definition sampleAt (rd : nat -> Z) (k : nat) : F :=
  F_of_Z (Int.s32 (rd k - rd O)).

Definition weightAt (k : nat) : F :=
  Fsub (F_of_Z (Z.of_nat k)) HalfNumSamplesMinusOne.

Fixpoint sumReadings (rd : nat -> Z) (n : nat) : F :=
  match n with
  | O => F_of_Z 0
  | S k => Fadd (sumReadings rd k) (sampleAt rd k)
  end.

Fixpoint sumWeighted (rd : nat -> Z) (n : nat) : F :=
  match n with
  | O => F_of_Z 0
  | S k => Fadd (sumWeighted rd k) (Fmul (sampleAt rd k) (weightAt k))
  end.

(** Slope, origin and mean phase that the closing formulas give for sums
    over the first [n] readings of a sweep that began at phase [p0]. *)
Definition slopeOf (rev : bool) (rd : nat -> Z) (n : nat) : F :=
  Fdiv (sumWeighted rd n) (if rev then Fopp Denominator else Denominator).

Definition xMeanOf (rev : bool) (p0 : Z) : F :=
  (if rev then Fsub else Fadd)
    (F_of_Z p0) (Fmul (F_of_Z PhaseIncrement) HalfNumSamplesMinusOne).

Definition yMeanOf (rd : nat -> Z) (n : nat) : F :=
  Fadd (Fdiv (sumReadings rd n) (F_of_Z NumSamples)) (F_of_Z (rd O)).

Definition originOf (rev : bool) (p0 : Z) (rd : nat -> Z) (n : nat) : F :=
  Fsub (yMeanOf rd n) (Fmul (slopeOf rev rd n) (xMeanOf rev p0)).

(** None of the first [n] calls reports the manoeuvre finished. *)
Definition unfinishedThrough (enc : Encoder) (n : nat) (first : bool) (cl : t)
  : Prop :=
  forall i, (1 <= i <= n)%nat -> fst (BasicTuningSteps enc i first cl) = false.

(** What the manoeuvre, run from its first call on state [cl], hands to
    [SaveBasicTuningResult] for the forward sweep (after [8 + 513] calls) and
    for the reverse sweep (after as many again). *)
Definition forwardResult (enc : Encoder) (cl : t) : option (F * F * F * bool) :=
  lastSaved (trace (snd (BasicTuningSteps enc (8 + 513) true cl))).

Definition reverseResult (enc : Encoder) (cl : t) : option (F * F * F * bool) :=
  lastSaved (trace (snd (BasicTuningSteps enc (8 + 513 + (8 + 513)) true cl))).

(** ** Where a sweep stands

    [rev] tells the reverse half of the manoeuvre from the forward half. *)
Definition settleState (rev : bool) : BasicTuningState :=
  if rev then reverseInitial else forwardInitial.

Definition collectState (rev : bool) : BasicTuningState :=
  if rev then reverse else forwards.

Definition increment (rev : bool) : Z :=
  if rev then - PhaseIncrement else PhaseIncrement.

(** [k] settling moves made, from phase [p], with [r] encoder reads so far. *)
Definition Settling (rev : bool) (k : nat) (p : Z) (r : nat) (cl : t) : Prop :=
  state (basicTuning cl) = settleState rev /\
  stepCounter (basicTuning cl) = Z.of_nat k /\
  Int.u16 (desiredStepPhase cl) = Int.u16 (p + increment rev * Z.of_nat k) /\
  encoderReads cl = r.

(** [k] readings of the sweep [rd] collected, the sweep having begun at
    phase [p0] after [r] earlier encoder reads. *)
Definition Collecting (rev : bool) (k : nat) (rd : nat -> Z) (p0 : Z) (r : nat)
    (cl : t) : Prop :=
  state (basicTuning cl) = collectState rev /\
  stepCounter (basicTuning cl) = Z.of_nat k /\
  (k <> O -> initialEncoderReading (basicTuning cl) = rd O) /\
  regressionAccumulator (basicTuning cl) = sumWeighted rd k /\
  readingAccumulator (basicTuning cl) = sumReadings rd k /\
  initialStepPhase (basicTuning cl) = p0 /\
  Int.u16 (desiredStepPhase cl) = Int.u16 (p0 + increment rev * Z.of_nat k) /\
  encoderReads cl = (r + k)%nat.

(** ** Runs of the dispatcher and what they leave in the trace *)

(** One tick for each element of [rs]: the control loop has put the live
    encoder reading [r] into [currentEncoderReading], then calls
    [PerformTune]. *)
Fixpoint ticksReading (rs : list Z) (cl : t) : t :=
  match rs with
  | [] => cl
  | r :: rs => ticksReading rs (PerformTune (set_currentEncoderReading r cl))
  end.

(** The readings stored in the lookup table since it was last cleared,
    newest first, and whether the table has been persisted since. *)
Fixpoint lutStores (tr : list event) : list Z :=
  match tr with
  | [] => []
  | ClearLUT :: _ => []
  | StoreLUTValueForPosition r _ :: tr => r :: lutStores tr
  | _ :: tr => lutStores tr
  end.

Fixpoint lutPersisted (tr : list event) : bool :=
  match tr with
  | [] => false
  | ClearLUT :: _ => false
  | StoreLUT :: _ => true
  | _ :: tr => lutPersisted tr
  end.

(** The first [k] bucket positions [0, res, 2 res, ...], newest first. *)
Fixpoint buckets (res : Z) (k : nat) : list Z :=
  match k with
  | O => []
  | S k => Z.of_nat k * res :: buckets res k
  end.

(** [n] moves of the motor in steps of [d] from phase [p], newest first. *)
Fixpoint phaseMoves (p d : Z) (n : nat) : list event :=
  match n with
  | O => []
  | S k => SetMotorPhase (Int.u16 (p + d * Z.of_nat (S k))) (F_of_Z 1)
           :: phaseMoves p d k
  end.

(** The dispatcher in the middle of filling the lookup table of [enc] for
    the request mask [req]: [k] buckets stored, the next target is bucket
    [k], nothing persisted yet. *)
Definition Calibrating (enc : Encoder) (req : Z) (k : nat) (cl : t) : Prop :=
  driverMode cl = direct /\ encoder cl = Some enc /\ tuning cl = req /\
  newTuningMove cl = false /\
  targetPosition (encoderCalibration cl) = Z.of_nat k * LUTResolution enc /\
  Z.of_nat k * LUTResolution enc < MaxValue enc /\
  lutStores (trace cl) = buckets (LUTResolution enc) k /\
  lutPersisted (trace cl) = false.

(** The dispatcher after the calibration has finished with [k] buckets. *)
Definition Calibrated (enc : Encoder) (k : nat) (cl : t) : Prop :=
  driverMode cl = direct /\ encoder cl = Some enc /\ tuning cl = 0 /\
  newTuningMove cl = true /\
  MaxValue enc <= Z.of_nat k * LUTResolution enc
    < MaxValue enc + LUTResolution enc /\
  lutStores (trace cl) = buckets (LUTResolution enc) k /\
  lutPersisted (trace cl) = true.

(** A sweep of [BasicTuning] after [k] of its calls: the sweep began at
    phase [p] after [r] encoder reads with the calls [tr0] made before it;
    every call so far has moved the motor once. *)
Definition Sweeping (enc : Encoder) (rev : bool) (p : Z) (r : nat)
    (tr0 : list event) (k : nat) (cl : t) : Prop :=
  trace cl = phaseMoves p (increment rev) k ++ tr0 /\
  ((k < 8)%nat -> Settling rev k p r cl) /\
  (forall m : nat, k = (m + 8)%nat ->
     Collecting rev m (fun j => samples enc (r + j)%nat)
       (Int.u16 (p + increment rev * 8)) r cl).

(** The outgoing calls that close a sweep. *)
Definition sweepClose (rev : bool) (p0 : Z) (rd : nat -> Z) : list event :=
  (if rev then [FinishedBasicTuning] else [])
  ++ [SaveBasicTuningResult (slopeOf rev rd 513) (originOf rev p0 rd 513)
        (xMeanOf rev p0) rev].

End Manoeuvres.
End Tuning.

(* ===================================================================== *)
(** * SharedSpiDevice.cpp *)
(* ===================================================================== *)

Module SharedSpi.

(** ** The SERCOM peripheral *)

(** Bit positions of the SAME5x device header: INTFLAG.DRE, .TXC, .RXC and
    the CTRLA fields. *)
Definition INTFLAG_DRE : Z := 0.
Definition INTFLAG_TXC : Z := 1.
Definition INTFLAG_RXC : Z := 2.

Definition SERCOM_SPI_CTRLA_MODE (v : Z) : Z := Z.shiftl (Z.land v 7) 2.
Definition SERCOM_SPI_CTRLA_DOPO (v : Z) : Z := Z.shiftl (Z.land v 3) 16.
Definition SERCOM_SPI_CTRLA_DIPO (v : Z) : Z := Z.shiftl (Z.land v 3) 20.
Definition SERCOM_SPI_CTRLA_FORM (v : Z) : Z := Z.shiftl (Z.land v 15) 24.
Definition SERCOM_SPI_CTRLA_CPHA : Z := Z.shiftl 1 28.
Definition SERCOM_SPI_CTRLA_CPOL : Z := Z.shiftl 1 29.
Definition SERCOM_SPI_BAUD_BAUD (v : Z) : Z := Z.land v 255.

(** The registers the driver touches.  The peripheral's side is a pair of
    traces: [intflag k] is what the [k]-th read of INTFLAG returns, [rxdata k]
    what the [k]-th read of DATA returns. *)
Record Sercom := {
  CTRLA : Z;
  RXEN : bool;                 (* CTRLB.bit.RXEN *)
  BAUD : Z;
  intflag : nat -> Z;
  flagReads : nat;
  rxdata : nat -> Z;
  dataReads : nat;
  dataWritten : list Z         (* values stored to DATA, newest first *)
}.

Definition read_INTFLAG (hw : Sercom) : Z * Sercom :=
  (intflag hw (flagReads hw),
   {| CTRLA := CTRLA hw; RXEN := RXEN hw; BAUD := BAUD hw;
      intflag := intflag hw; flagReads := S (flagReads hw);
      rxdata := rxdata hw; dataReads := dataReads hw;
      dataWritten := dataWritten hw |}).

Definition read_DATA (hw : Sercom) : Z * Sercom :=
  (rxdata hw (dataReads hw),
   {| CTRLA := CTRLA hw; RXEN := RXEN hw; BAUD := BAUD hw;
      intflag := intflag hw; flagReads := flagReads hw;
      rxdata := rxdata hw; dataReads := S (dataReads hw);
      dataWritten := dataWritten hw |}).

Definition write_DATA (v : Z) (hw : Sercom) : Sercom :=
  {| CTRLA := CTRLA hw; RXEN := RXEN hw; BAUD := BAUD hw;
     intflag := intflag hw; flagReads := flagReads hw;
     rxdata := rxdata hw; dataReads := dataReads hw;
     dataWritten := v :: dataWritten hw |}.

Definition write_CTRLA (v : Z) (hw : Sercom) : Sercom :=
  {| CTRLA := v; RXEN := RXEN hw; BAUD := BAUD hw;
     intflag := intflag hw; flagReads := flagReads hw;
     rxdata := rxdata hw; dataReads := dataReads hw;
     dataWritten := dataWritten hw |}.

Definition write_BAUD (v : Z) (hw : Sercom) : Sercom :=
  {| CTRLA := CTRLA hw; RXEN := RXEN hw; BAUD := v;
     intflag := intflag hw; flagReads := flagReads hw;
     rxdata := rxdata hw; dataReads := dataReads hw;
     dataWritten := dataWritten hw |}.

Definition write_RXEN (v : bool) (hw : Sercom) : Sercom :=
  {| CTRLA := CTRLA hw; RXEN := v; BAUD := BAUD hw;
     intflag := intflag hw; flagReads := flagReads hw;
     rxdata := rxdata hw; dataReads := dataReads hw;
     dataWritten := dataWritten hw |}.

Definition DisableSpi (hw : Sercom) : Sercom := write_RXEN false hw.
Definition EnableSpi (hw : Sercom) : Sercom := write_RXEN true hw.

(** ** The bounded waits *)

Definition SpiTimeout : nat := Z.to_nat 10000.

(** [while (!flag) { if (--timeout == 0) return true; } return false;]
    The count starts at [SpiTimeout], so it is never zero on entry. *)
Fixpoint waitPreDecrement (bit : Z) (timeout : nat) (hw : Sercom) : bool * Sercom :=
  match timeout with
  | O => (true, hw)
  | S n =>
      let '(fl, hw) := read_INTFLAG hw in
      if Z.testbit fl bit then (false, hw)
      else match n with
           | O => (true, hw)
           | S _ => waitPreDecrement bit n hw
           end
  end.

(** [while (!flag) { if (!timeout--) return true; } return false;] *)
Fixpoint waitPostDecrement (bit : Z) (timeout : nat) (hw : Sercom) : bool * Sercom :=
  let '(fl, hw) := read_INTFLAG hw in
  if Z.testbit fl bit then (false, hw)
  else match timeout with
       | O => (true, hw)
       | S n => waitPostDecrement bit n hw
       end.

(** Each returns [true] when it timed out. *)
Definition waitForTxReady : Sercom -> bool * Sercom :=
  waitPreDecrement INTFLAG_DRE SpiTimeout.
Definition waitForTxEmpty : Sercom -> bool * Sercom :=
  waitPostDecrement INTFLAG_TXC SpiTimeout.
Definition waitForRxReady : Sercom -> bool * Sercom :=
  waitPreDecrement INTFLAG_RXC SpiTimeout.

(** ** SharedSpiDevice *)

Inductive SpiMode := mode0 | mode1 | mode2 | mode3.

Definition SpiMode_val (m : SpiMode) : Z :=
  match m with mode0 => 0 | mode1 => 1 | mode2 => 2 | mode3 => 3 end.

Record SharedSpiDevice := {
  clockFrequency : Z;
  mode : SpiMode;
  csActivePolarity : bool
}.

Section Master.
(** [CONF_GCLK_SERCOM0_CORE_FREQUENCY] of peripheral_clk_config.h. *)
Variable CoreFrequency : Z.

Definition regCtrlA (m : SpiMode) : Z :=
  let r :=
    Z.lor (Z.lor (Z.lor (Z.lor (Z.lor
      (SERCOM_SPI_CTRLA_MODE 3) (SERCOM_SPI_CTRLA_DIPO 3))
      (SERCOM_SPI_CTRLA_DOPO 0)) (SERCOM_SPI_CTRLA_FORM 0))
      SERCOM_SPI_CTRLA_CPOL) SERCOM_SPI_CTRLA_CPHA in
  let r := if negb (Z.land (SpiMode_val m) 2 =? 0)
           then Z.lor r SERCOM_SPI_CTRLA_CPOL else r in
  let r := if Z.land (SpiMode_val m) 1 =? 0
           then Z.lor r SERCOM_SPI_CTRLA_CPHA else r in
  r.

Definition SetupMaster (dev : SharedSpiDevice) (hw : Sercom) : Sercom :=
  let hw := DisableSpi hw in
  let hw := write_BAUD
              (SERCOM_SPI_BAUD_BAUD
                 (Int.u32 (CoreFrequency / (2 * clockFrequency dev) - 1))) hw in
  let hw := write_CTRLA (regCtrlA (mode dev)) hw in
  EnableSpi hw.

End Master.

(** The byte loop of [TransceivePacket]: [n] positions remain, [i] is the
    current one.  [tx] and [rx] are the caller's buffers ([None] for
    [nullptr]); the pointer bumps become the index [i].  A transmit buffer
    is expected to hold [len] bytes, and so is a receive buffer. *)
Definition dOut (tx : option (list Z)) (i : nat) : Z :=
  match tx with
  | None => 255
  | Some bytes => default 0 (bytes !! i)
  end.

Fixpoint transceiveBytes (n i : nat) (tx : option (list Z)) (rx : option (list Z))
    (hw : Sercom) : bool * option (list Z) * Sercom :=
  match n with
  | O => (true, rx, hw)
  | S n =>
      let dOut := dOut tx i in
      let '(timedOut, hw) := waitForTxReady hw in
      if timedOut then (false, rx, hw)
      else
        let hw := write_DATA dOut hw in
        match rx with
        | Some buf =>
            let '(timedOut, hw) := waitForRxReady hw in
            if timedOut then (false, rx, hw)
            else
              let '(dIn, hw) := read_DATA hw in
              transceiveBytes n (S i) tx (Some (<[i := Int.u8 dIn]> buf)) hw
        | None => transceiveBytes n (S i) tx None hw
        end
  end.

Definition TransceivePacket (tx rx : option (list Z)) (len : nat) (hw : Sercom)
  : bool * option (list Z) * Sercom :=
  let '(ok, rx', hw) := transceiveBytes len 0 tx rx hw in
  if ok then
    match rx' with
    | None =>
        let '(_, hw) := waitForTxEmpty hw in
        let '(_, hw) := read_DATA hw in
        (true, rx', hw)
    | Some _ => (true, rx', hw)
    end
  else (false, rx', hw).

(** ** Bus behaviours *)

(** The peripheral after byte position [i] went through with a receive
    buffer: transmitter ready, byte stored to DATA, receiver ready, DATA
    read. *)
Definition afterByte (tx : option (list Z)) (i : nat) (hw : Sercom) : Sercom :=
  snd (read_DATA (snd (waitForRxReady
    (write_DATA (dOut tx i) (snd (waitForTxReady hw)))))).

(** [TimesOut tx n i hw]: in a transfer with a receive buffer that has [n]
    positions left from position [i] on, some transmitter-ready or
    receiver-ready wait exhausts its budget. *)
Inductive TimesOut (tx : option (list Z)) : nat -> nat -> Sercom -> Prop :=
  | TimesOut_tx n i hw :
      fst (waitForTxReady hw) = true ->
      TimesOut tx (S n) i hw
  | TimesOut_rx n i hw :
      fst (waitForTxReady hw) = false ->
      fst (waitForRxReady (write_DATA (dOut tx i) (snd (waitForTxReady hw)))) = true ->
      TimesOut tx (S n) i hw
  | TimesOut_later n i hw :
      fst (waitForTxReady hw) = false ->
      fst (waitForRxReady (write_DATA (dOut tx i) (snd (waitForTxReady hw)))) = false ->
      TimesOut tx n (S i) (afterByte tx i hw) ->
      TimesOut tx (S n) i hw.

(** [hw'] differs from [hw] in the count of INTFLAG reads at most: the
    registers, both traces, the count of DATA reads and the bytes stored to
    DATA are the same. *)
Definition onlyPolled (hw hw' : Sercom) : Prop :=
  CTRLA hw' = CTRLA hw /\ RXEN hw' = RXEN hw /\ BAUD hw' = BAUD hw /\
  intflag hw' = intflag hw /\ rxdata hw' = rxdata hw /\
  dataReads hw' = dataReads hw /\ dataWritten hw' = dataWritten hw.

(** The bytes of positions [i], ..., [i + k - 1] as DATA has them after they
    were stored in that order (newest first). *)
Definition sent (tx : option (list Z)) (i k : nat) : list Z :=
  rev (map (dOut tx) (seq i k)).

End SharedSpi.

(* ===================================================================== *)
(** * LinearAnalogSensor.cpp *)
(* ===================================================================== *)

Module LinearAnalogSensor.

Definition AdcOversampleBits : Z := 2.

Inductive TemperatureError :=
  success | shortCircuit | openCircuit | timeout | ioError | hardwareError | notReady.

(** What [Poll] reads of a [ThermistorAveragingFilter]. *)
Record AveragingFilter := {
  IsValid : bool;
  GetSum : Z;                  (* uint32_t *)
  NumAveraged : Z
}.

Section Sensor.
Context `{FO : FloatOps}.

Record t := {
  lowTemp : F;
  highTemp : F;
  filtered : bool;
  adcFilterChannel : Z;        (* int *)
  linearIncreasePerCount : F
}.

(** The two overloads of [SetResult] of the sensor base class. *)
Inductive result :=
  | SetResult (temperature : F) (err : TemperatureError)
  | SetResultError (err : TemperatureError).

(** [Poll], given [Platform::GetAdcFilter] and the value of
    [port.ReadAnalog()]; it ends in exactly one call of [SetResult]. *)
Definition Poll (s : t) (GetAdcFilter : Z -> AveragingFilter) (ReadAnalog : Z)
  : result :=
  if filtered s && (adcFilterChannel s >=? 0) then
    let tempFilter := GetAdcFilter (adcFilterChannel s) in
    if IsValid tempFilter then
      let averagedTempReading :=
        Int.s32 (GetSum tempFilter
                 / Z.shiftr (NumAveraged tempFilter) AdcOversampleBits) in
      SetResult (Fadd (Fmul (F_of_Z averagedTempReading)
                            (linearIncreasePerCount s)) (lowTemp s)) success
    else SetResultError notReady
  else
    SetResult (Fadd (Fmul (F_of_Z ReadAnalog) (linearIncreasePerCount s))
                    (lowTemp s)) success.

End Sensor.
Arguments t {FO}.
Arguments result {FO}.

(** The result codes of [Configure]. *)
Inductive GCodeResult := ok | warning | error.

Section Configuration.
Context `{FO : FloatOps}.

(** [AnalogIn::AdcBits], the resolution of the converter. *)
Variable AdcBits : Z.

(** [1u << n], stored in an [int32_t]. *)
Definition UnfilteredAdcRange : Z := Int.s32 (Int.u32 (Z.shiftl 1 AdcBits)).
Definition FilteredAdcRange : Z :=
  Int.s32 (Int.u32 (Z.shiftl 1 (AdcBits + AdcOversampleBits))).

(** [CalcDerivedParameters], given what
    [Platform::GetAveragingFilterIndex(port)] returns. *)
Definition CalcDerivedParameters (GetAveragingFilterIndex : Z) (s : t) : t :=
  let ch := GetAveragingFilterIndex in
  let f := if ch <? 0 then false else filtered s in
  {| lowTemp := lowTemp s;
     highTemp := highTemp s;
     filtered := f;
     adcFilterChannel := ch;
     linearIncreasePerCount :=
       Fdiv (Fsub (highTemp s) (lowTemp s))
            (F_of_Z (if f then FilteredAdcRange else UnfilteredAdcRange)) |}.

(** The constructor: defaults, then [CalcDerivedParameters];
    [linearIncreasePerCount] has no value before that call. *)
Definition construct (DefaultLowTemp DefaultHighTemp : F)
    (GetAveragingFilterIndex : Z) (uninitialised : F) : t :=
  CalcDerivedParameters GetAveragingFilterIndex
    {| lowTemp := DefaultLowTemp; highTemp := DefaultHighTemp;
       filtered := true; adcFilterChannel := -1;
       linearIncreasePerCount := uninitialised |}.

(** What [Configure] reads of the message: [GetFloatParam] and
    [GetBoolParam] return false and leave their argument alone when the
    parameter is absent ([None]), and store its value and return true when
    it is present. *)
Record Parser := {
  paramB : option F;
  paramC : option F;
  paramF : option bool
}.

(** What [Configure] itself writes to [reply]. *)
Inductive Reply :=
  | NoReply
  | FilteringNotSupported
  | Details (isFiltered : bool) (low high : F).

Record Configured := {
  code : GCodeResult;
  sensor : t;
  reply : Reply;
  filterInit : option Z      (* the channel whose filter got [Init(0)] *)
}.

Definition set_lowTemp (v : F) (s : t) : t :=
  {| lowTemp := v; highTemp := highTemp s; filtered := filtered s;
     adcFilterChannel := adcFilterChannel s;
     linearIncreasePerCount := linearIncreasePerCount s |}.

Definition set_highTemp (v : F) (s : t) : t :=
  {| lowTemp := lowTemp s; highTemp := v; filtered := filtered s;
     adcFilterChannel := adcFilterChannel s;
     linearIncreasePerCount := linearIncreasePerCount s |}.

Definition set_filtered (v : bool) (s : t) : t :=
  {| lowTemp := lowTemp s; highTemp := highTemp s; filtered := v;
     adcFilterChannel := adcFilterChannel s;
     linearIncreasePerCount := linearIncreasePerCount s |}.

(** [Configure].  [ConfigurePort] is given by its result and by the value
    it leaves in [seen]; [GetAveragingFilterIndex] is the filter index of
    the port it leaves behind. *)
Definition Configure (ConfigurePort : bool * bool) (GetAveragingFilterIndex : Z)
    (parser : Parser) (s : t) : Configured :=
  let '(portOk, seen) := ConfigurePort in
  if negb portOk then
    {| code := error; sensor := s; reply := NoReply; filterInit := None |}
  else
    let '(seen, s) := match paramB parser with
                      | Some v => (true, set_lowTemp v s)
                      | None => (seen, s)
                      end in
    let '(seen, s) := match paramC parser with
                      | Some v => (true, set_highTemp v s)
                      | None => (seen, s)
                      end in
    let '(seen, s) := match paramF parser with
                      | Some v => (true, set_filtered v s)
                      | None => (seen, s)
                      end in
    if seen then
      let wasFiltered := filtered s in
      let s := CalcDerivedParameters GetAveragingFilterIndex s in
      if adcFilterChannel s >=? 0 then
        {| code := ok; sensor := s; reply := NoReply;
           filterInit := Some (adcFilterChannel s) |}
      else if wasFiltered then
        {| code := warning; sensor := s; reply := FilteringNotSupported;
           filterInit := None |}
      else
        {| code := ok; sensor := s; reply := NoReply; filterInit := None |}
    else
      {| code := ok; sensor := s;
         reply := Details (filtered s) (lowTemp s) (highTemp s);
         filterInit := None |}.

(** The derived members agree with the configured ones: a filtered sensor
    has a filter channel, and the slope is the one [CalcDerivedParameters]
    computes. *)
Definition Consistent (s : t) : Prop :=
  (filtered s = true -> 0 <= adcFilterChannel s) /\
  linearIncreasePerCount s =
    Fdiv (Fsub (highTemp s) (lowTemp s))
         (F_of_Z (if filtered s then FilteredAdcRange else UnfilteredAdcRange)).

(** Whether the message carries the parameter. *)
Definition given {A : Type} (o : option A) : bool :=
  match o with Some _ => true | None => false end.

(** The value a parameter ends up with: the one in the message, or else the
    one it had. *)
Definition orElse {A : Type} (o : option A) (old : A) : A :=
  match o with Some v => v | None => old end.

(** One more [Configure] in the life of a sensor: the outcome of
    [ConfigurePort], the filter index of the port, the parameters. *)
Definition reconfigure (s : t) (c : bool * bool * Z * Parser) : t :=
  let '(ConfigurePort, GetAveragingFilterIndex, parser) := c in
  sensor (Configure ConfigurePort GetAveragingFilterIndex parser s).

(** The temperature a call of [SetResult] reports, if any. *)
Definition temperature (r : result) : option F :=
  match r with
  | SetResult v _ => Some v
  | SetResultError _ => None
  end.

End Configuration.

End LinearAnalogSensor.

(* ===================================================================== *)
(** * Concrete inputs used by the examples below *)
(* ===================================================================== *)

Module Inputs.

(** A filtered sensor on channel 2 whose filter has not filled yet. *)
Definition coldSensor : @LinearAnalogSensor.t binary32 :=
  {| LinearAnalogSensor.lowTemp := F_of_Z 0;
     LinearAnalogSensor.highTemp := F_of_Z 100;
     LinearAnalogSensor.filtered := true;
     LinearAnalogSensor.adcFilterChannel := 2;
     LinearAnalogSensor.linearIncreasePerCount := F_half |}.

Definition emptyFilter (sum : Z) (_ : Z) : LinearAnalogSensor.AveragingFilter :=
  {| LinearAnalogSensor.IsValid := false;
     LinearAnalogSensor.GetSum := sum;
     LinearAnalogSensor.NumAveraged := 64 |}.




(** A bus on which every flag is always up and the [k]-th read of DATA
    returns [0x1A0 + k]. *)
Definition readyBus : SharedSpi.Sercom :=
  {| SharedSpi.CTRLA := 0; SharedSpi.RXEN := true; SharedSpi.BAUD := 0;
     SharedSpi.intflag := fun _ => 7; SharedSpi.flagReads := 0;
     SharedSpi.rxdata := fun n => 416 + Z.of_nat n; SharedSpi.dataReads := 0;
     SharedSpi.dataWritten := [] |}.

(** Values for what the header at hand leaves out: basic tuning on bit 0,
    encoder calibration on bit 1, the basic-tuning error on bit 0, and a
    scaling of 1/1024 for the lookup-table positions. *)
Definition env32 : @ClosedLoop.TuningEnv binary32 :=
  {| ClosedLoop.BASIC_TUNING_MANOEUVRE := 1;
     ClosedLoop.ENCODER_CALIBRATION_MANOEUVRE := 2;
     ClosedLoop.TUNE_ERR_NOT_DONE_BASIC := 1;
     ClosedLoop.realWorldPosOf := fun u => B32.div (B32.of_Z u) (B32.of_Z 1024) |}.

(** [PerformTune] in single precision with these values. *)
Abbreviation PerformTune32 := (@Tuning.PerformTune binary32 env32).

(** A 14-bit absolute encoder with a lookup-table step of 16 counts. *)
Definition absoluteEncoder (samples : nat -> Z) : ClosedLoop.Encoder :=
  {| ClosedLoop.PositioningType := ClosedLoop.absolute;
     ClosedLoop.MaxValue := 16384;
     ClosedLoop.LUTResolution := 16;
     ClosedLoop.samples := samples |}.

(** The closed-loop state at the tick after a tuning request [req] arrived:
    nothing started yet, phase 0, live encoder reading [reading]. *)
Definition requested `{FO : FloatOps} (req : Z) (mode : ClosedLoop.DriverMode)
    (enc : option ClosedLoop.Encoder) (reading : Z) : ClosedLoop.t :=
  {| ClosedLoop.tuning := req;
     ClosedLoop.tuningError := 0;
     ClosedLoop.desiredStepPhase := 0;
     ClosedLoop.currentEncoderReading := reading;
     ClosedLoop.driverMode := mode;
     ClosedLoop.encoder := enc;
     ClosedLoop.encoderReads := 0;
     ClosedLoop.newTuningMove := true;
     ClosedLoop.basicTuning :=
       {| ClosedLoop.state := ClosedLoop.forwardInitial;
          ClosedLoop.initialStepPhase := 0;
          ClosedLoop.initialEncoderReading := 0;
          ClosedLoop.stepCounter := 0;
          ClosedLoop.regressionAccumulator := F_of_Z 0;
          ClosedLoop.readingAccumulator := F_of_Z 0 |};
     ClosedLoop.encoderCalibration :=
       {| ClosedLoop.targetPosition := 0; ClosedLoop.positionCounter := 0 |};
     ClosedLoop.trace := [] |}.

(** An encoder that counts one up per reading, and one that stands still. *)
Definition countingEncoder : ClosedLoop.Encoder := absoluteEncoder Z.of_nat.
Definition stuckEncoder (v : Z) : ClosedLoop.Encoder := absoluteEncoder (fun _ => v).

(** Sensors with a 12-bit converter and the range 0 to 100 degrees, in
    exact arithmetic: one on a port without a filter channel, one on
    channel 3. *)
Definition directSensor : @LinearAnalogSensor.t exactQ :=
  @LinearAnalogSensor.construct exactQ 12 (inject_Z 0) (inject_Z 100) (-1)
    (inject_Z 0).

Definition filteredSensor : @LinearAnalogSensor.t exactQ :=
  @LinearAnalogSensor.construct exactQ 12 (inject_Z 0) (inject_Z 100) 3
    (inject_Z 0).

(** A valid averaging filter over 64 samples. *)
Definition fullFilter (sum : Z) (_ : Z) : LinearAnalogSensor.AveragingFilter :=
  {| LinearAnalogSensor.IsValid := true;
     LinearAnalogSensor.GetSum := sum;
     LinearAnalogSensor.NumAveraged := 64 |}.

(** A quadrature encoder: relative positioning, no lookup table. *)
Definition relativeEncoder : ClosedLoop.Encoder :=
  {| ClosedLoop.PositioningType := ClosedLoop.relative;
     ClosedLoop.MaxValue := 0;
     ClosedLoop.LUTResolution := 0;
     ClosedLoop.samples := Z.of_nat |}.

(** An absolute encoder with 40 counts and a lookup-table step of 16. *)
Definition coarseEncoder : ClosedLoop.Encoder :=
  {| ClosedLoop.PositioningType := ClosedLoop.absolute;
     ClosedLoop.MaxValue := 40;
     ClosedLoop.LUTResolution := 16;
     ClosedLoop.samples := fun _ => 0 |}.

End Inputs.

(* ===================================================================== *)
(** * Properties: LinearAnalogSensor::Poll *)
(* ===================================================================== *)

Module LinearAnalogSensorFacts.
Import LinearAnalogSensor Inputs.

(** C10.  In filtered mode with a valid filter channel, when the averaging
    filter is not yet valid, [Poll] calls the error-only overload of
    [SetResult] with [notReady]; no temperature is derived from the filter
    sum, whatever that sum is. *)
Theorem Poll_filter_not_valid_is_notReady `{FO : FloatOps}
    (s : t) (GetAdcFilter : Z -> AveragingFilter) (ReadAnalog : Z) :
  filtered s = true ->
  0 <= adcFilterChannel s ->
  IsValid (GetAdcFilter (adcFilterChannel s)) = false ->
  Poll s GetAdcFilter ReadAnalog = SetResultError notReady.
Proof.
  intros Hf Hc Hv. unfold Poll.
  rewrite Hf, Hv.
  destruct (Z.geb_spec (adcFilterChannel s) 0) as [_|Hlt]; [reflexivity | lia].
Qed.

Lemma Poll_filter_not_valid_witness :
  Poll coldSensor (emptyFilter 123456) 17 = SetResultError notReady.
Proof.
  apply (Poll_filter_not_valid_is_notReady coldSensor (emptyFilter 123456) 17);
    [reflexivity | simpl; lia | reflexivity].
Defined.

End LinearAnalogSensorFacts.

(* ===================================================================== *)
(** * Properties: SharedSpiDevice::SetupMaster *)
(* ===================================================================== *)

Module SetupMasterFacts.
Import SharedSpi.

Lemma regCtrlA_constant (m : SpiMode) : regCtrlA m = 0x3030000C.
Proof. destruct m; reflexivity. Qed.

(** C7.  [SetupMaster] starts [regCtrlA] from a value that already holds
    CPOL and CPHA, so the two mode tests add nothing: every mode programs
    both bits, and mode 0 and mode 3 devices get the same CTRLA. *)
Theorem SetupMaster_sets_CPOL_and_CPHA_for_every_mode
    (CoreFrequency : Z) (dev : SharedSpiDevice) (hw : Sercom) :
  let ctrla := CTRLA (SetupMaster CoreFrequency dev hw) in
  Z.testbit ctrla 29 = true /\ Z.testbit ctrla 28 = true /\
  ctrla = regCtrlA mode0 /\ regCtrlA mode0 = regCtrlA mode3.
Proof.
  cbn -[regCtrlA].
  rewrite !regCtrlA_constant. repeat split; reflexivity.
Qed.

End SetupMasterFacts.

(* ===================================================================== *)
(** * Properties: SharedSpiDevice::TransceivePacket *)
(* ===================================================================== *)

Module TransceiveFacts.
Import SharedSpi Inputs.

(** A wait of the [--timeout == 0] kind times out exactly when the flag is
    down on each of its [timeout] reads of INTFLAG. *)
Lemma waitPreDecrement_times_out_iff bit : forall n hw,
  (0 < n)%nat ->
  fst (waitPreDecrement bit n hw) = true <->
  (forall k, (k < n)%nat -> Z.testbit (intflag hw (flagReads hw + k)) bit = false).
Proof.
  induction n as [|n IH]; intros hw Hn; [lia|].
  cbn [waitPreDecrement]. unfold read_INTFLAG.
  destruct (Z.testbit (intflag hw (flagReads hw)) bit) eqn:Hbit.
  - cbn [fst]. split; [discriminate|].
    intros H. specialize (H O ltac:(lia)).
    rewrite Nat.add_0_r in H. congruence.
  - destruct n as [|n'].
    + cbn [fst]. split; [|reflexivity].
      intros _ k Hk. assert (k = O) by lia. subst k.
      rewrite Nat.add_0_r. exact Hbit.
    + rewrite IH by lia. cbn [intflag flagReads]. split.
      * intros H k Hk. destruct k as [|k].
        -- rewrite Nat.add_0_r. exact Hbit.
        -- replace (flagReads hw + S k)%nat with (S (flagReads hw) + k)%nat by lia.
           apply H. lia.
      * intros H k Hk.
        replace (S (flagReads hw) + k)%nat with (flagReads hw + S k)%nat by lia.
        apply H. lia.
Qed.

(** On a bus whose DRE flag stays down for [SpiTimeout] reads, the first
    transmitter-ready wait of a transfer times out. *)
Lemma TimesOut_when_DRE_stays_down tx n hw :
  (forall k, (k < SpiTimeout)%nat ->
             Z.testbit (intflag hw (flagReads hw + k)) INTFLAG_DRE = false) ->
  TimesOut tx (S n) 0 hw.
Proof.
  intros H. apply TimesOut_tx. unfold waitForTxReady.
  apply waitPreDecrement_times_out_iff; [|exact H].
  unfold SpiTimeout. lia.
Qed.

(** The waits only read INTFLAG. *)
Lemma waitPreDecrement_dataReads bit n hw :
  dataReads (snd (waitPreDecrement bit n hw)) = dataReads hw.
Proof.
  revert hw. induction n as [|n IH]; intros hw; [reflexivity|].
  cbn [waitPreDecrement]. unfold read_INTFLAG.
  destruct (Z.testbit _ bit); [reflexivity|].
  destruct n as [|n']; [reflexivity|].
  rewrite IH. reflexivity.
Qed.

Lemma waitForTxReady_dataReads hw :
  dataReads (snd (waitForTxReady hw)) = dataReads hw.
Proof. apply waitPreDecrement_dataReads. Qed.

Lemma waitForRxReady_dataReads hw :
  dataReads (snd (waitForRxReady hw)) = dataReads hw.
Proof. apply waitPreDecrement_dataReads. Qed.

Lemma afterByte_dataReads tx i hw :
  dataReads (afterByte tx i hw) = S (dataReads hw).
Proof.
  unfold afterByte. cbn [read_DATA snd dataReads].
  rewrite waitForRxReady_dataReads. cbn [write_DATA dataReads].
  rewrite waitForTxReady_dataReads. reflexivity.
Qed.

(** One unfolding of the byte loop with a receive buffer. *)
Lemma transceiveBytes_rx_step n i tx buf hw :
  transceiveBytes (S n) i tx (Some buf) hw =
    if fst (waitForTxReady hw) then (false, Some buf, snd (waitForTxReady hw))
    else
      let hw1 := write_DATA (dOut tx i) (snd (waitForTxReady hw)) in
      if fst (waitForRxReady hw1) then (false, Some buf, snd (waitForRxReady hw1))
      else transceiveBytes n (S i) tx
             (Some (<[i := Int.u8 (fst (read_DATA (snd (waitForRxReady hw1))))]> buf))
             (afterByte tx i hw).
Proof.
  cbn [transceiveBytes]. unfold afterByte.
  destruct (waitForTxReady hw) as [to1 hw1]. cbn [fst snd].
  destruct to1; [reflexivity|].
  destruct (waitForRxReady (write_DATA (dOut tx i) hw1)) as [to2 hw2]. cbn [fst snd].
  destruct to2; reflexivity.
Qed.

(** What the byte loop does to the receive buffer and to the count of DATA
    reads, whether or not it times out. *)
Lemma transceiveBytes_rx_frame n : forall i tx buf hw,
  exists ok buf' hw',
    transceiveBytes n i tx (Some buf) hw = (ok, Some buf', hw') /\
    length buf' = length buf /\
    (forall k, (k < i \/ i + n <= k)%nat -> buf' !! k = buf !! k) /\
    (dataReads hw' <= dataReads hw + n)%nat.
Proof.
  induction n as [|n IH]; intros i tx buf hw.
  - exists true, buf, hw. cbn. repeat split; auto with lia.
  - rewrite transceiveBytes_rx_step.
    destruct (fst (waitForTxReady hw)).
    { eexists _, _, _. split; [reflexivity|].
      rewrite waitForTxReady_dataReads. repeat split; auto with lia. }
    cbv zeta.
    destruct (fst (waitForRxReady _)).
    { eexists _, _, _. split; [reflexivity|].
      rewrite waitForRxReady_dataReads. cbn [write_DATA dataReads].
      rewrite waitForTxReady_dataReads. repeat split; auto with lia. }
    match goal with |- context [transceiveBytes n (S i) tx (Some ?b) ?h] =>
      destruct (IH (S i) tx b h) as (ok & buf' & hw' & E & Hlen & Hfr & Hrd) end.
    exists ok, buf', hw'. split; [exact E|].
    rewrite length_insert in Hlen. rewrite afterByte_dataReads in Hrd.
    repeat split; [exact Hlen | | lia].
    intros k Hk. rewrite Hfr by lia.
    apply list_lookup_insert_ne. lia.
Qed.

(** A transfer in which a wait times out fails, and captures fewer than
    [n] bytes. *)
Lemma transceiveBytes_rx_timeout tx n i hw :
  TimesOut tx n i hw ->
  forall buf, exists buf' hw',
    transceiveBytes n i tx (Some buf) hw = (false, Some buf', hw') /\
    (dataReads hw' < dataReads hw + n)%nat.
Proof.
  induction 1 as [n i hw Htx | n i hw Htx Hrx | n i hw Htx Hrx _ IH]; intros buf;
    rewrite transceiveBytes_rx_step, Htx; cbv zeta.
  - eexists _, _. split; [reflexivity|].
    rewrite waitForTxReady_dataReads. lia.
  - rewrite Hrx. eexists _, _. split; [reflexivity|].
    rewrite waitForRxReady_dataReads. cbn [write_DATA dataReads].
    rewrite waitForTxReady_dataReads. lia.
  - rewrite Hrx.
    match goal with |- context [transceiveBytes n (S i) tx (Some ?b) _] =>
      destruct (IH b) as (buf' & hw' & E & Hrd) end.
    exists buf', hw'. split; [exact E|].
    rewrite afterByte_dataReads in Hrd. lia.
Qed.





End TransceiveFacts.

(* ===================================================================== *)
(** * Properties: EncoderCalibration *)
(* ===================================================================== *)

Module EncoderCalibrationFacts.
Import ClosedLoop Tuning Inputs.

Lemma calibrationPhase_range (pc : Z) :
  0 <= calibrationPhase pc <= 4096 /\
  (calibrationPhase pc = 4096 <-> pc <= 0 /\ Z.rem pc 4096 = 0).
Proof.
  unfold calibrationPhase, Int.u16, Int.wrap_u.
  change (2 ^ 16) with 65536.
  destruct (Z.gtb_spec pc 0) as [Hpos|Hneg].
  - assert (0 <= Z.rem pc 4096 < 4096) by (apply Z.rem_bound_pos; lia).
    rewrite Z.mod_small by lia. lia.
  - assert (-4096 < Z.rem pc 4096 <= 0).
    { apply (Z.rem_bound_pos_neg pc 4096); lia. }
    rewrite Z.mod_small by lia. lia.
Qed.

(** C5, as the code has it.  After a step of [EncoderCalibration] that does
    not finish, the commanded phase is [calibrationPhase] of the position
    counter; it lies between 0 and 4096 inclusive, and it is 4096, outside
    the phase range, exactly when the counter is zero or a negative multiple
    of 4096. *)
Theorem EncoderCalibration_phase_reaches_4096 `{FO : FloatOps} `{TE : !TuningEnv}
    (enc : Encoder) (first : bool) (cl : t) :
  PositioningType enc = absolute ->
  fst (EncoderCalibration enc first cl) = false ->
  let cl' := snd (EncoderCalibration enc first cl) in
  let pc := positionCounter (encoderCalibration cl') in
  desiredStepPhase cl' = calibrationPhase pc /\
  0 <= desiredStepPhase cl' <= 4096 /\
  (desiredStepPhase cl' = 4096 <-> pc <= 0 /\ Z.rem pc 4096 = 0).
Proof.
  intros Hab Hfin cl' pc.
  assert (E : desiredStepPhase cl' = calibrationPhase pc).
  { unfold pc, cl'. revert Hfin. unfold EncoderCalibration. rewrite Hab.
    match goal with |- context [if ?c then (true, _) else _] => destruct c end;
      [discriminate|].
    intros _. reflexivity. }
  rewrite E. split; [reflexivity|]. apply calibrationPhase_range.
Qed.

Lemma EncoderCalibration_phase_4096_witness :
  let r := @EncoderCalibration binary32 env32 (absoluteEncoder Z.of_nat) true
             (requested 2 direct (Some (absoluteEncoder Z.of_nat)) 0) in
  (fst r = false /\ positionCounter (encoderCalibration (snd r)) = 0 /\
   desiredStepPhase (snd r) = 4096) /\
  (desiredStepPhase (snd r)
     = calibrationPhase (positionCounter (encoderCalibration (snd r))) /\
   0 <= desiredStepPhase (snd r) <= 4096 /\
   (desiredStepPhase (snd r) = 4096 <->
    positionCounter (encoderCalibration (snd r)) <= 0 /\
    Z.rem (positionCounter (encoderCalibration (snd r))) 4096 = 0)).
Proof.
  split; [repeat split|].
  apply (@EncoderCalibration_phase_reaches_4096 binary32 env32
           (absoluteEncoder Z.of_nat) true
           (requested 2 direct (Some (absoluteEncoder Z.of_nat)) 0));
    reflexivity.
Defined.

End EncoderCalibrationFacts.

(* ===================================================================== *)
(** * Properties: BasicTuning *)
(* ===================================================================== *)

Module BasicTuningFacts.
Import ClosedLoop Tuning Inputs.

Section Sweeps.
Context `{FO : FloatOps} `{TE : !TuningEnv}.
Variable enc : Encoder.

Lemma BasicTuningSteps_app (n m : nat) : forall first cl,
  BasicTuningSteps enc (n + m) first cl =
  BasicTuningSteps enc m (fst (BasicTuningSteps enc n first cl))
                         (snd (BasicTuningSteps enc n first cl)).
Proof.
  induction n as [|n IH]; intros first cl; [reflexivity|].
  cbn [Nat.add BasicTuningSteps].
  destruct (BasicTuning enc first cl) as [fin cl1]. apply IH.
Qed.

Lemma BasicTuningSteps_one first cl :
  BasicTuningSteps enc 1 first cl = BasicTuning enc first cl.
Proof.
  cbn [BasicTuningSteps]. destruct (BasicTuning enc first cl). reflexivity.
Qed.

Lemma unfinishedThrough_step n first cl cl1 :
  BasicTuning enc first cl = (false, cl1) ->
  unfinishedThrough enc n false cl1 ->
  unfinishedThrough enc (S n) first cl.
Proof.
  intros E H i Hi. destruct i as [|i]; [lia|].
  cbn [BasicTuningSteps]. rewrite E.
  destruct i as [|i]; [reflexivity|]. apply H. lia.
Qed.

Lemma unfinishedThrough_app n m first cl cl1 :
  unfinishedThrough enc n first cl ->
  BasicTuningSteps enc n first cl = (false, cl1) ->
  unfinishedThrough enc m false cl1 ->
  unfinishedThrough enc (n + m) first cl.
Proof.
  intros Hn E Hm i Hi.
  destruct (Nat.le_gt_cases i n) as [Hle|Hgt]; [apply Hn; lia|].
  replace i with (n + (i - n))%nat by lia.
  rewrite BasicTuningSteps_app, E. cbn [fst snd]. apply Hm. lia.
Qed.

Lemma u16_add_congr (x y d : Z) :
  Int.u16 x = Int.u16 y -> Int.u16 (x + d) = Int.u16 (y + d).
Proof.
  unfold Int.u16, Int.wrap_u. intros E.
  rewrite <- (Zplus_mod_idemp_l x), <- (Zplus_mod_idemp_l y), E. reflexivity.
Qed.

Lemma u16_idem (x : Z) : Int.u16 (Int.u16 x) = Int.u16 x.
Proof. unfold Int.u16, Int.wrap_u. apply Zmod_mod. Qed.

(** The first call resets the state machine and then acts as any other. *)
Lemma BasicTuning_first cl :
  BasicTuning enc true cl =
  BasicTuning enc false (emit SetForwardPolarity (set_state_counter forwardInitial 0 cl)).
Proof. reflexivity. Qed.

Lemma Settling_start cl :
  Settling false 0 (desiredStepPhase cl) (encoderReads cl)
    (emit SetForwardPolarity (set_state_counter forwardInitial 0 cl)).
Proof.
  unfold Settling. cbn. repeat split. f_equal. lia.
Qed.

Lemma settle_step rev k p r cl :
  Settling rev k p r cl -> (k + 1 < 8)%nat ->
  exists cl', BasicTuning enc false cl = (false, cl') /\
              Settling rev (S k) p r cl'.
Proof.
  intros (Hs & Hc & Hp & Hr) Hk.
  exists (settle (increment rev) (collectState rev) cl). split.
  - unfold BasicTuning. cbv iota beta. rewrite Hs. destruct rev; reflexivity.
  - unfold Settling, settle.
    cbn -[Int.u16 Int.u32 Z.eqb Z.of_nat Z.mul Z.add].
    rewrite Hc.
    assert (Eu : Int.u32 (Z.of_nat k + 1) = Z.of_nat (S k)).
    { unfold Int.u32, Int.wrap_u. rewrite Z.mod_small; lia. }
    rewrite Eu.
    destruct (Z.eqb_spec (Z.of_nat (S k)) NumDummySteps) as [E|_].
    { unfold NumDummySteps in E. lia. }
    cbn -[Int.u16 Int.u32 Z.eqb Z.of_nat Z.mul Z.add].
    repeat split; try assumption.
    rewrite u16_idem. rewrite (u16_add_congr _ _ (increment rev) Hp).
    f_equal. lia.
Qed.

Lemma settle_last rev p r cl (rd : nat -> Z) :
  Settling rev 7 p r cl ->
  exists cl', BasicTuning enc false cl = (false, cl') /\
              Collecting rev 0 rd (Int.u16 (p + increment rev * 8)) r cl'.
Proof.
  intros (Hs & Hc & Hp & Hr).
  exists (settle (increment rev) (collectState rev) cl). split.
  - unfold BasicTuning. cbv iota beta. rewrite Hs. destruct rev; reflexivity.
  - unfold Collecting, settle.
    cbn -[Int.u16 Int.u32 Z.eqb Z.of_nat Z.mul Z.add].
    rewrite Hc.
    change (Int.u32 (Z.of_nat 7 + 1) =? NumDummySteps) with true.
    cbn -[Int.u16 Int.u32 Z.eqb Z.of_nat Z.mul Z.add].
    assert (E : Int.u16 (desiredStepPhase cl + increment rev)
                = Int.u16 (p + increment rev * 8)).
    { rewrite (u16_add_congr _ _ (increment rev) Hp). f_equal. lia. }
    rewrite E.
    repeat split; try assumption; try (intros H; congruence); try lia.
    change (Z.of_nat 0) with 0. rewrite Z.mul_0_r, Z.add_0_r. reflexivity.
Qed.

Lemma settle_run rev p r (rd : nat -> Z) : forall j k cl,
  Settling rev k p r cl -> (k + S j = 8)%nat ->
  exists cl', BasicTuningSteps enc (S j) false cl = (false, cl') /\
              Collecting rev 0 rd (Int.u16 (p + increment rev * 8)) r cl' /\
              unfinishedThrough enc (S j) false cl.
Proof.
  induction j as [|j IH]; intros k cl Hinv Hk.
  - assert (k = 7)%nat by lia. subst k.
    destruct (settle_last rev p r cl rd Hinv) as (cl' & E & Hc).
    exists cl'. cbn [BasicTuningSteps]. rewrite E.
    split; [reflexivity|]. split; [exact Hc|].
    apply (unfinishedThrough_step _ _ _ _ E). intros i Hi. lia.
  - destruct (settle_step rev k p r cl Hinv) as (cl1 & E & H1); [lia|].
    destruct (IH (S k) cl1 H1) as (cl' & E' & Hc & Hu); [lia|].
    exists cl'. change (BasicTuningSteps enc (S (S j)) false cl)
      with (let '(fin, c) := BasicTuning enc false cl in
            BasicTuningSteps enc (S j) fin c).
    rewrite E. split; [exact E'|]. split; [exact Hc|].
    apply (unfinishedThrough_step _ _ _ _ E Hu).
Qed.

(** What [collect] does to a sweep that stands at reading [k]. *)
Lemma collect_spec rev k r p0 cl :
  let rd := fun j => samples enc (r + j)%nat in
  Collecting rev k rd p0 r cl ->
  let cl1 := collect enc cl in
  state (basicTuning cl1) = collectState rev /\
  stepCounter (basicTuning cl1) = Z.of_nat k /\
  initialEncoderReading (basicTuning cl1) = rd O /\
  regressionAccumulator (basicTuning cl1) = sumWeighted rd (S k) /\
  readingAccumulator (basicTuning cl1) = sumReadings rd (S k) /\
  initialStepPhase (basicTuning cl1) = p0 /\
  desiredStepPhase cl1 = desiredStepPhase cl /\
  encoderReads cl1 = (r + S k)%nat /\
  trace cl1 = trace cl.
Proof.
  intros rd (Hs & Hc & Hi & Hg & Ha & Hp & _ & Hr) cl1.
  unfold cl1, collect, GetReading.
  cbn -[Z.eqb Z.of_nat sumWeighted sumReadings Int.s32].
  rewrite Hc, Hr, Hg, Ha.
  assert (Hbase : (if Z.of_nat k =? 0 then samples enc (r + k)
                   else initialEncoderReading (basicTuning cl)) = rd O).
  { destruct (Z.eqb_spec (Z.of_nat k) 0) as [E|E].
    - assert (k = O) by lia. subst k. reflexivity.
    - apply Hi. lia. }
  rewrite Hbase.
  repeat split; try assumption; try reflexivity.
  lia.
Qed.

Lemma collect_step rev k r p0 cl :
  let rd := fun j => samples enc (r + j)%nat in
  Collecting rev k rd p0 r cl -> (k < 512)%nat ->
  exists cl', BasicTuning enc false cl = (false, cl') /\
              Collecting rev (S k) rd p0 r cl'.
Proof.
  intros rd Hinv Hk.
  pose proof (collect_spec rev k r p0 cl Hinv) as Hc1. cbv zeta in Hc1.
  destruct Hc1 as (Hs1 & Hc1 & Hi1 & Hg1 & Ha1 & Hp1 & Hd1 & Hr1 & _).
  destruct Hinv as (Hs & _ & _ & _ & _ & _ & Hph & _).
  remember (collect enc cl) as cl1 eqn:Ecl1.
  set (cl2 := stepPhase (increment rev) cl1).
  exists (set_state_counter (collectState rev)
            (Int.u32 (stepCounter (basicTuning cl2) + 1)) cl2). split.
  - unfold BasicTuning. cbv iota beta. rewrite Hs.
    destruct rev; cbn [collectState]; rewrite <- Ecl1, Hc1;
      (destruct (Z.eqb_spec (Z.of_nat k) NumSamples) as [E|_];
        [change NumSamples with 512 in E; lia | reflexivity]).
  - unfold Collecting, cl2, stepPhase, set_state_counter.
    cbn -[Int.u16 Int.u32 Z.of_nat Z.mul Z.add sumWeighted sumReadings].
    rewrite Hc1, Hi1, Hg1, Ha1, Hp1, Hd1, Hr1.
    repeat split; try reflexivity.
    + unfold Int.u32, Int.wrap_u. rewrite Z.mod_small; lia.
    + rewrite u16_idem, (u16_add_congr _ _ (increment rev) Hph). f_equal. lia.
Qed.

Lemma collect_run rev r p0 :
  let rd := fun j => samples enc (r + j)%nat in
  forall j k cl,
  Collecting rev k rd p0 r cl -> (k + j = 512)%nat ->
  exists cl', BasicTuningSteps enc j false cl = (false, cl') /\
              Collecting rev 512 rd p0 r cl' /\
              unfinishedThrough enc j false cl.
Proof.
  intros rd. induction j as [|j IH]; intros k cl Hinv Hk.
  - assert (k = 512)%nat by lia. subst k. exists cl.
    split; [reflexivity|]. split; [exact Hinv|]. intros i Hi. lia.
  - destruct (collect_step rev k r p0 cl Hinv) as (cl1 & E & H1); [lia|].
    destruct (IH (S k) cl1 H1) as (cl' & E' & Hc & Hu); [lia|].
    exists cl'. change (BasicTuningSteps enc (S j) false cl)
      with (let '(fin, c) := BasicTuning enc false cl in
            BasicTuningSteps enc j fin c).
    rewrite E. split; [exact E'|]. split; [exact Hc|].
    apply (unfinishedThrough_step _ _ _ _ E Hu).
Qed.

(** The call that closes a sweep is the one that finds the step counter at
    [NumSamples]; it has just added a reading of its own. *)
Lemma collect_last rev r p0 cl :
  let rd := fun j => samples enc (r + j)%nat in
  Collecting rev 512 rd p0 r cl ->
  exists cl', BasicTuning enc false cl = (rev, cl') /\
    encoderReads cl' = (r + 513)%nat /\
    regressionAccumulator (basicTuning cl') = sumWeighted rd 513 /\
    readingAccumulator (basicTuning cl') = sumReadings rd 513 /\
    lastSaved (trace cl') =
      Some (slopeOf rev rd 513, originOf rev p0 rd 513, xMeanOf rev p0, rev) /\
    (rev = false -> Settling true 0 (p0 + 4096) (r + 513) cl').
Proof.
  intros rd Hinv.
  pose proof (collect_spec rev 512 r p0 cl Hinv) as Hc1. cbv zeta in Hc1.
  destruct Hc1 as (Hs1 & Hc1 & Hi1 & Hg1 & Ha1 & Hp1 & Hd1 & Hr1 & _).
  destruct Hinv as (Hs & _ & _ & _ & _ & _ & Hph & _).
  remember (collect enc cl) as cl1 eqn:Ecl1.
  assert (Hsave : lastSaved (trace (saveResult rev cl1)) =
    Some (slopeOf rev rd 513, originOf rev p0 rd 513, xMeanOf rev p0, rev)).
  { unfold saveResult, slope, origin, yMean, xMean, slope, slopeOf, originOf,
      yMeanOf, xMeanOf.
    cbn [emit trace lastSaved]. rewrite Hg1, Ha1, Hp1, Hi1. reflexivity. }
  destruct rev.
  - exists (emit FinishedBasicTuning (saveResult true cl1)). split.
    + unfold BasicTuning. cbv iota beta. rewrite Hs. cbn [collectState].
      rewrite <- Ecl1, Hc1. reflexivity.
    + cbn [emit trace lastSaved]. rewrite Hsave.
      unfold saveResult. cbn [emit encoderReads basicTuning].
      repeat split; try assumption; congruence.
  - exists (set_state_counter reverseInitial 0 (saveResult false cl1)). split.
    + unfold BasicTuning. cbv iota beta. rewrite Hs. cbn [collectState].
      rewrite <- Ecl1, Hc1. reflexivity.
    + unfold set_state_counter at 1 2 3 4.
      cbn [set_basicTuning trace encoderReads basicTuning regressionAccumulator
           readingAccumulator].
      rewrite Hsave. unfold saveResult.
      cbn [emit encoderReads basicTuning].
      do 4 (split; [first [assumption | reflexivity]|]).
      intros _. unfold Settling, set_state_counter.
      cbn [set_basicTuning basicTuning state stepCounter desiredStepPhase
           encoderReads emit].
      rewrite Hd1. repeat split; try assumption.
      rewrite Hph. f_equal.
      change (Z.of_nat 512) with 512. change (Z.of_nat 0) with 0.
      unfold increment, PhaseIncrement. lia.
Qed.

(** A whole sweep: eight settling moves, then 513 collecting calls. *)
Lemma sweep_run rev p r cl :
  let rd := fun j => samples enc (r + j)%nat in
  let p0 := Int.u16 (p + increment rev * 8) in
  Settling rev 0 p r cl ->
  exists cl', BasicTuningSteps enc (8 + 513) false cl = (rev, cl') /\
    encoderReads cl' = (r + 513)%nat /\
    regressionAccumulator (basicTuning cl') = sumWeighted rd 513 /\
    readingAccumulator (basicTuning cl') = sumReadings rd 513 /\
    lastSaved (trace cl') =
      Some (slopeOf rev rd 513, originOf rev p0 rd 513, xMeanOf rev p0, rev) /\
    (rev = false -> Settling true 0 (p0 + 4096) (r + 513) cl') /\
    unfinishedThrough enc (8 + 512) false cl.
Proof.
  intros rd p0 Hinv.
  destruct (settle_run rev p r rd 7 0 cl Hinv eq_refl) as (cl1 & E1 & H1 & U1).
  destruct (collect_run rev r p0 512 0 cl1 H1 eq_refl) as (cl2 & E2 & H2 & U2).
  destruct (collect_last rev r p0 cl2 H2) as (cl3 & E3 & H3).
  exists cl3. split; [|].
  - change (8 + 513)%nat with (8 + (512 + 1))%nat.
    rewrite BasicTuningSteps_app, E1. cbn [fst snd].
    rewrite BasicTuningSteps_app, E2. cbn [fst snd BasicTuningSteps].
    rewrite E3. reflexivity.
  - destruct H3 as (A1 & A2 & A3 & A4 & A5).
    do 5 (split; [assumption|]).
    apply (unfinishedThrough_app 8 512 false cl cl1 U1 E1 U2).
Qed.

Lemma BasicTuningSteps_first n cl :
  BasicTuningSteps enc (S n) true cl =
  BasicTuningSteps enc (S n) false
    (emit SetForwardPolarity (set_state_counter forwardInitial 0 cl)).
Proof. cbn [BasicTuningSteps]. rewrite BasicTuning_first. reflexivity. Qed.

(** With the 512 readings of indices 0 to 511 taken, the forward sweep is
    still collecting. *)
Lemma forward_sweep_open cl :
  let r := BasicTuningSteps enc (8 + 512) true cl in
  fst r = false /\
  state (basicTuning (snd r)) = forwards /\
  stepCounter (basicTuning (snd r)) = 512 /\
  encoderReads (snd r) = (encoderReads cl + 512)%nat.
Proof.
  cbv zeta. change (8 + 512)%nat with (S (7 + 512)).
  rewrite BasicTuningSteps_first.
  change (S (7 + 512)) with (8 + 512)%nat.
  set (rd := fun j => samples enc (encoderReads cl + j)%nat).
  destruct (settle_run false _ _ rd 7 0 _ (Settling_start cl) eq_refl)
    as (cl1 & E1 & H1 & _).
  destruct (collect_run false _ _ 512 0 cl1 H1 eq_refl) as (cl2 & E2 & H2 & _).
  rewrite BasicTuningSteps_app, E1. cbn [fst snd]. rewrite E2. cbn [fst snd].
  destruct H2 as (Hs & Hc & _ & _ & _ & _ & _ & Hr).
  repeat split; assumption.
Qed.

(** The whole manoeuvre from its first call: the forward result after
    [8 + 513] calls, the reverse result and the finished flag after as many
    again; each sweep adds up 513 readings. *)
Lemma manoeuvre_run cl :
  let r := encoderReads cl in
  let rdF := fun j => samples enc (r + j)%nat in
  let rdR := fun j => samples enc (r + 513 + j)%nat in
  let pF := Int.u16 (desiredStepPhase cl + 64) in
  let pR := Int.u16 (pF + 4096 - 64) in
  exists clF clR,
    BasicTuningSteps enc (8 + 513) true cl = (false, clF) /\
    BasicTuningSteps enc (8 + 513) false clF = (true, clR) /\
    encoderReads clF = (r + 513)%nat /\
    regressionAccumulator (basicTuning clF) = sumWeighted rdF 513 /\
    readingAccumulator (basicTuning clF) = sumReadings rdF 513 /\
    lastSaved (trace clF) =
      Some (slopeOf false rdF 513, originOf false pF rdF 513,
            xMeanOf false pF, false) /\
    encoderReads clR = (r + 513 + 513)%nat /\
    regressionAccumulator (basicTuning clR) = sumWeighted rdR 513 /\
    readingAccumulator (basicTuning clR) = sumReadings rdR 513 /\
    lastSaved (trace clR) =
      Some (slopeOf true rdR 513, originOf true pR rdR 513,
            xMeanOf true pR, true) /\
    unfinishedThrough enc (8 + 513 + (8 + 512)) true cl.
Proof.
  intros r rdF rdR pF pR.
  destruct (sweep_run false _ _ _ (Settling_start cl))
    as (clF & EF & HrF & HgF & HaF & HsF & Hnext & UF).
  destruct (sweep_run true _ _ _ (Hnext eq_refl))
    as (clR & ER & HrR & HgR & HaR & HsR & _ & UR).
  exists clF, clR.
  assert (EF' : BasicTuningSteps enc (8 + 513) true cl = (false, clF)).
  { change (8 + 513)%nat with (S (7 + 513)).
    rewrite BasicTuningSteps_first. exact EF. }
  assert (UF' : unfinishedThrough enc (8 + 513) true cl).
  { intros i Hi.
    destruct (Nat.eq_dec i (8 + 513)%nat) as [->|Hne]; [rewrite EF'; reflexivity|].
    destruct i as [|i]; [lia|].
    rewrite BasicTuningSteps_first. apply UF. lia. }
  replace (Int.u16 (desiredStepPhase cl + increment false * 8)) with pF in *
    by reflexivity.
  replace (Int.u16 (pF + 4096 + increment true * 8)) with pR in *
    by (unfold pR; f_equal; unfold increment, PhaseIncrement; lia).
  do 10 (split; [assumption|]).
  apply (unfinishedThrough_app (8 + 513) (8 + 512) true cl clF UF' EF' UR).
Qed.

(** Call 1042 is the first to report the manoeuvre finished. *)
Lemma last_call_finishes cl :
  fst (BasicTuningSteps enc 1041 true cl) = false /\
  fst (BasicTuning enc false (snd (BasicTuningSteps enc 1041 true cl))) = true.
Proof.
  destruct (manoeuvre_run cl)
    as (clF & clR & EF & ER & _ & _ & _ & _ & _ & _ & _ & _ & Hun).
  assert (HX : fst (BasicTuningSteps enc 1041 true cl) = false)
    by (apply Hun; cbn; lia).
  split; [exact HX|].
  pose proof (BasicTuningSteps_app 1041 1 true cl) as Happ.
  rewrite BasicTuningSteps_one, HX in Happ.
  replace (1041 + 1)%nat with (8 + 513 + (8 + 513))%nat in Happ by reflexivity.
  rewrite (BasicTuningSteps_app (8 + 513) (8 + 513)), EF in Happ.
  cbn [fst snd] in Happ. rewrite ER in Happ.
  rewrite <- Happ. reflexivity.
Qed.

End Sweeps.

(** ** Shifting every reading by a constant *)

Section Shift.
Context `{FO : FloatOps}.

Lemma sampleAt_shift (c : Z) (rd : nat -> Z) (k : nat) :
  sampleAt (fun j => rd j + c) k = sampleAt rd k.
Proof. unfold sampleAt. do 2 f_equal. lia. Qed.

Lemma sumReadings_shift (c : Z) (rd : nat -> Z) (n : nat) :
  sumReadings (fun j => rd j + c) n = sumReadings rd n.
Proof.
  induction n as [|n IH]; [reflexivity|].
  cbn [sumReadings]. rewrite IH, sampleAt_shift. reflexivity.
Qed.

Lemma sumWeighted_shift (c : Z) (rd : nat -> Z) (n : nat) :
  sumWeighted (fun j => rd j + c) n = sumWeighted rd n.
Proof.
  induction n as [|n IH]; [reflexivity|].
  cbn [sumWeighted]. rewrite IH, sampleAt_shift. reflexivity.
Qed.

Lemma slopeOf_shift (rev : bool) (c : Z) (rd : nat -> Z) (n : nat) :
  slopeOf rev (fun j => rd j + c) n = slopeOf rev rd n.
Proof. unfold slopeOf. rewrite sumWeighted_shift. reflexivity. Qed.

(** The origin of the shifted sweep: the unshifted formula with the
    restored baseline [(float)(rd 0)] replaced by [(float)(rd 0 + c)]. *)
Lemma originOf_shift (rev : bool) (p0 c : Z) (rd : nat -> Z) (n : nat) :
  originOf rev p0 (fun j => rd j + c) n =
  Fsub (Fadd (Fdiv (sumReadings rd n) (F_of_Z NumSamples)) (F_of_Z (rd O + c)))
       (Fmul (slopeOf rev rd n) (xMeanOf rev p0)).
Proof.
  unfold originOf, yMeanOf. rewrite slopeOf_shift, sumReadings_shift. reflexivity.
Qed.

End Shift.

(** In exact arithmetic the origin moves by [c]. *)
Lemma originOf_shift_exact (rev : bool) (p0 c : Z) (rd : nat -> Z) (n : nat) :
  (@originOf exactQ rev p0 (fun j => (rd j + c)%Z) n ==
   @originOf exactQ rev p0 rd n + inject_Z c)%Q.
Proof.
  rewrite (@originOf_shift exactQ). unfold originOf, yMeanOf.
  cbn [F_of_Z Fadd Fsub Fmul Fdiv exactQ].
  rewrite inject_Z_plus. ring.
Qed.

Section Results.
Context `{FO : FloatOps} `{TE : !TuningEnv}.

Lemma results_run (enc : Encoder) (cl : t) :
  let r := encoderReads cl in
  let rdF := fun j => samples enc (r + j)%nat in
  let rdR := fun j => samples enc (r + 513 + j)%nat in
  let pF := Int.u16 (desiredStepPhase cl + 64) in
  let pR := Int.u16 (pF + 4096 - 64) in
  forwardResult enc cl =
    Some (slopeOf false rdF 513, originOf false pF rdF 513,
          xMeanOf false pF, false) /\
  reverseResult enc cl =
    Some (slopeOf true rdR 513, originOf true pR rdR 513,
          xMeanOf true pR, true).
Proof.
  intros r rdF rdR pF pR.
  destruct (manoeuvre_run enc cl)
    as (clF & clR & EF & ER & _ & _ & _ & HsF & _ & _ & _ & HsR & _).
  unfold forwardResult, reverseResult.
  rewrite (BasicTuningSteps_app enc (8 + 513) (8 + 513)), EF.
  cbn [fst snd]. rewrite ER. cbn [snd].
  split; assumption.
Qed.

Lemma accumulators_run (enc : Encoder) (cl : t) :
  let r := encoderReads cl in
  let rdF := fun j => samples enc (r + j)%nat in
  let rdR := fun j => samples enc (r + 513 + j)%nat in
  let fwd := basicTuning (snd (BasicTuningSteps enc (8 + 513) true cl)) in
  let all := basicTuning (snd (BasicTuningSteps enc (8 + 513 + (8 + 513)) true cl)) in
  regressionAccumulator fwd = sumWeighted rdF 513 /\
  readingAccumulator fwd = sumReadings rdF 513 /\
  regressionAccumulator all = sumWeighted rdR 513 /\
  readingAccumulator all = sumReadings rdR 513.
Proof.
  intros r rdF rdR fwd all.
  destruct (manoeuvre_run enc cl)
    as (clF & clR & EF & ER & _ & HgF & HaF & _ & _ & HgR & HaR & _ & _).
  unfold fwd, all.
  rewrite (BasicTuningSteps_app enc (8 + 513) (8 + 513)), EF.
  cbn [fst snd]. rewrite ER. cbn [snd].
  repeat split; assumption.
Qed.

End Results.

(** C1, as the code has it.  The forward sweep is still collecting when the
    512 readings of indices 0 to 511 are in; the call that closes it adds a
    reading of index 512 first.  So each sweep adds up 513 readings, not
    512, divides their sum by 512, and hands over
    [regressionAccumulator / Denominator] (the reverse sweep:
    [/ -Denominator]) as slope and [yMean - slope * xMean] as origin. *)
Theorem BasicTuning_sweep_adds_513_readings `{FO : FloatOps} `{TE : !TuningEnv}
    (enc : Encoder) (cl : t) :
  let r := encoderReads cl in
  let rdF := fun j => samples enc (r + j)%nat in
  let rdR := fun j => samples enc (r + 513 + j)%nat in
  let pF := Int.u16 (desiredStepPhase cl + 64) in
  let pR := Int.u16 (pF + 4096 - 64) in
  let open := BasicTuningSteps enc (8 + 512) true cl in
  let fwd := BasicTuningSteps enc (8 + 513) true cl in
  let all := BasicTuningSteps enc (8 + 513 + (8 + 513)) true cl in
  (fst open = false /\
   state (basicTuning (snd open)) = forwards /\
   encoderReads (snd open) = (r + 512)%nat) /\
  (fst fwd = false /\
   encoderReads (snd fwd) = (r + 513)%nat /\
   readingAccumulator (basicTuning (snd fwd)) = sumReadings rdF 513 /\
   regressionAccumulator (basicTuning (snd fwd)) = sumWeighted rdF 513 /\
   lastSaved (trace (snd fwd)) =
     Some (Fdiv (sumWeighted rdF 513) Denominator,
           originOf false pF rdF 513, xMeanOf false pF, false)) /\
  (fst all = true /\
   encoderReads (snd all) = (r + 513 + 513)%nat /\
   readingAccumulator (basicTuning (snd all)) = sumReadings rdR 513 /\
   regressionAccumulator (basicTuning (snd all)) = sumWeighted rdR 513 /\
   lastSaved (trace (snd all)) =
     Some (Fdiv (sumWeighted rdR 513) (Fopp Denominator),
           originOf true pR rdR 513, xMeanOf true pR, true)).
Proof.
  intros r rdF rdR pF pR open fwd all.
  destruct (forward_sweep_open enc cl) as (Ho1 & Ho2 & _ & Ho3).
  destruct (manoeuvre_run enc cl)
    as (clF & clR & EF & ER & HrF & HgF & HaF & HsF & HrR & HgR & HaR & HsR & _).
  unfold open, fwd, all.
  rewrite (BasicTuningSteps_app enc (8 + 513) (8 + 513)), EF.
  cbn [fst snd]. rewrite ER. cbn [fst snd].
  repeat split; assumption.
Qed.

(** On an encoder that counts one up per reading (one count per eight units
    of phase), exact arithmetic gives the forward slope 517/4088, where the
    regression over 512 readings would give 1/8 = 511/4088. *)
Example forward_slope_of_linear_encoder :
  match @forwardResult exactQ countingEncoder
          (requested 1 direct (Some countingEncoder) 0) with
  | Some (sl, og, xm, rev) => (sl == 517 # 4088)%Q /\ (xm == 2108)%Q
  | None => False
  end.
Proof. vm_compute. split; reflexivity. Qed.

(** The same run in single precision: the slope comes out as
    8487109 / 2^26, about 0.12647, not 0.125. *)
Example forward_slope_of_linear_encoder_binary32 :
  match @forwardResult binary32 countingEncoder
          (requested 1 direct (Some countingEncoder) 0) with
  | Some (sl, og, xm, rev) =>
      sl = S754_finite false 8487109 (-26) /\ xm = B32.of_Z 2108
  | None => False
  end.
Proof. vm_compute. split; reflexivity. Qed.

(** [Denominator] is [p * (N^3 - N) / 12] for [p = 8] and [N = 512]. *)
Example Denominator_binary32 : @Denominator binary32 = B32.of_Z 89478144.
Proof. vm_compute. reflexivity. Qed.

Example Denominator_exact :
  (@Denominator exactQ == inject_Z (8 * (512 ^ 3 - 512) / 12))%Q.
Proof. vm_compute. reflexivity. Qed.

(** ** C8 *)

(** C8, as the code has it.  Raising every reading by [c] leaves both
    accumulators, the slope and the mean phase of either sweep as they were;
    the origin is then the same expression with the restored baseline
    [(float)(first reading)] replaced by [(float)(first reading + c)].  In
    exact arithmetic that moves the origin by exactly [c]. *)
Theorem BasicTuning_shifted_readings :
  (forall `{FO : FloatOps} `{TE : !TuningEnv} (enc : Encoder) (cl : t) (c : Z),
     let r := encoderReads cl in
     let rdF := fun j => samples enc (r + j)%nat in
     let rdR := fun j => samples enc (r + 513 + j)%nat in
     let pF := Int.u16 (desiredStepPhase cl + 64) in
     let pR := Int.u16 (pF + 4096 - 64) in
     let shifted (rev : bool) (p0 : Z) (rd : nat -> Z) :=
       Fsub (Fadd (Fdiv (sumReadings rd 513) (F_of_Z NumSamples))
                  (F_of_Z (rd O + c)))
            (Fmul (slopeOf rev rd 513) (xMeanOf rev p0)) in
     let fwd e := basicTuning (snd (BasicTuningSteps e (8 + 513) true cl)) in
     let all e :=
       basicTuning (snd (BasicTuningSteps e (8 + 513 + (8 + 513)) true cl)) in
     regressionAccumulator (fwd (shiftReadings c enc))
       = regressionAccumulator (fwd enc) /\
     readingAccumulator (fwd (shiftReadings c enc))
       = readingAccumulator (fwd enc) /\
     regressionAccumulator (all (shiftReadings c enc))
       = regressionAccumulator (all enc) /\
     readingAccumulator (all (shiftReadings c enc))
       = readingAccumulator (all enc) /\
     forwardResult enc cl =
       Some (slopeOf false rdF 513, originOf false pF rdF 513,
             xMeanOf false pF, false) /\
     forwardResult (shiftReadings c enc) cl =
       Some (slopeOf false rdF 513, shifted false pF rdF,
             xMeanOf false pF, false) /\
     reverseResult enc cl =
       Some (slopeOf true rdR 513, originOf true pR rdR 513,
             xMeanOf true pR, true) /\
     reverseResult (shiftReadings c enc) cl =
       Some (slopeOf true rdR 513, shifted true pR rdR,
             xMeanOf true pR, true)) /\
  (forall (TE : @TuningEnv exactQ) (enc : Encoder) (cl : @t exactQ) (c : Z),
     exists slF ogF ogF' xmF slR ogR ogR' xmR,
       forwardResult enc cl = Some (slF, ogF, xmF, false) /\
       forwardResult (shiftReadings c enc) cl = Some (slF, ogF', xmF, false) /\
       (ogF' == ogF + inject_Z c)%Q /\
       reverseResult enc cl = Some (slR, ogR, xmR, true) /\
       reverseResult (shiftReadings c enc) cl = Some (slR, ogR', xmR, true) /\
       (ogR' == ogR + inject_Z c)%Q).
Proof.
  split.
  - intros FO TE enc cl c r rdF rdR pF pR shifted fwd all.
    destruct (results_run enc cl) as [HF HR].
    destruct (results_run (shiftReadings c enc) cl) as [HF' HR'].
    cbn [shiftReadings samples] in HF', HR'.
    rewrite !slopeOf_shift, !originOf_shift in HF', HR'.
    destruct (accumulators_run enc cl) as (G1 & G2 & G3 & G4).
    destruct (accumulators_run (shiftReadings c enc) cl) as (G1' & G2' & G3' & G4').
    cbn [shiftReadings samples] in G1', G2', G3', G4'.
    rewrite sumWeighted_shift in G1', G3'. rewrite sumReadings_shift in G2', G4'.
    unfold fwd, all. rewrite G1, G2, G3, G4, G1', G2', G3', G4'.
    repeat split; assumption.
  - intros TE enc cl c.
    destruct (results_run enc cl) as [HF HR].
    destruct (results_run (shiftReadings c enc) cl) as [HF' HR'].
    cbn [shiftReadings samples] in HF', HR'.
    rewrite !(@slopeOf_shift exactQ) in HF', HR'.
    do 8 eexists.
    split; [exact HF|]. split; [exact HF'|]. split; [apply originOf_shift_exact|].
    split; [exact HR|]. split; [exact HR'|]. apply originOf_shift_exact.
Qed.

(** C8, as the specification states it, fails in single precision.  On an encoder that
    stands at 16777217, with [c = 2]: the unshifted origin is 16777216, the
    shifted one 16777220; they differ by 4, and neither [origin + c] nor
    [origin' - origin] comes out as the specification wants it. *)
Lemma BasicTuning_shift_origin_not_exact :
  let cl := requested 1 direct (Some (stuckEncoder 16777217)) 0 in
  let og := B32.of_Z 16777216 in
  let og' := B32.of_Z 16777220 in
  exists sl xm,
    @forwardResult binary32 (stuckEncoder 16777217) cl = Some (sl, og, xm, false) /\
    @forwardResult binary32 (shiftReadings 2 (stuckEncoder 16777217)) cl
      = Some (sl, og', xm, false) /\
    og' <> Fadd og (F_of_Z 2) /\
    Fsub og' og <> F_of_Z 2.
Proof.
  cbv zeta. eexists _, _.
  split; [vm_compute; reflexivity|].
  split; [vm_compute; reflexivity|].
  split; vm_compute; discriminate.
Qed.

End BasicTuningFacts.

(* ===================================================================== *)
(** * Properties: ClosedLoop::PerformTune *)
(* ===================================================================== *)

Module PerformTuneFacts.
Import ClosedLoop Tuning Inputs.

Section Dispatcher.
Context `{FO : FloatOps} `{TE : !TuningEnv}.

Lemma BasicTuning_sameRequests enc first cl :
  sameRequests cl (snd (BasicTuning enc first cl)) /\
  encoderCalibration (snd (BasicTuning enc first cl)) = encoderCalibration cl.
Proof.
  unfold BasicTuning, sameRequests.
  destruct first; cbn -[Z.eqb NumSamples NumDummySteps Int.u32 Int.u16];
    destruct (state (basicTuning cl));
    cbn -[Z.eqb NumSamples NumDummySteps Int.u32 Int.u16];
    unfold settle, collect, saveResult, stepPhase, set_state_counter;
    cbn -[Z.eqb NumSamples NumDummySteps Int.u32 Int.u16];
    repeat match goal with |- context [if ?c then _ else _] => destruct c end;
    cbn; repeat split; reflexivity.
Qed.

Lemma EncoderCalibration_sameRequests enc first cl :
  sameRequests cl (snd (EncoderCalibration enc first cl)) /\
  basicTuning (snd (EncoderCalibration enc first cl)) = basicTuning cl.
Proof.
  unfold EncoderCalibration, sameRequests.
  destruct (PositioningType enc); [|cbn; repeat split; reflexivity].
  destruct first; cbn -[Z.ltb Z.gtb Z.geb Int.u32 Int.s32 calibrationPhase];
    repeat match goal with |- context [if ?c then _ else _] => destruct c end;
    cbn; repeat split; reflexivity.
Qed.

(** C3.  Outside direct-drive mode, or without an encoder, [PerformTune]
    sets the system-error bit, zeroes the tuning bitmask and steps no
    manoeuvre: no outgoing call, no encoder read, and the state of every
    manoeuvre, the commanded phase and [newTuningMove] stay as they were;
    this for every value of the tuning bitmask. *)
Theorem PerformTune_precondition_failure (cl : t) :
  driverMode cl <> direct \/ encoder cl = None ->
  let cl' := PerformTune cl in
  tuning cl' = 0 /\
  tuningError cl' = Z.lor (tuningError cl) TUNE_ERR_SYSTEM_ERROR /\
  Z.testbit (tuningError cl') 7 = true /\
  trace cl' = trace cl /\
  encoderReads cl' = encoderReads cl /\
  basicTuning cl' = basicTuning cl /\
  encoderCalibration cl' = encoderCalibration cl /\
  desiredStepPhase cl' = desiredStepPhase cl /\
  newTuningMove cl' = newTuningMove cl.
Proof.
  intros Hpre.
  assert (E : PerformTune cl =
              set_tuning 0 (set_tuningError
                              (Z.lor (tuningError cl) TUNE_ERR_SYSTEM_ERROR) cl)).
  { unfold PerformTune. destruct (encoder cl) as [enc|].
    - destruct Hpre as [Hm|Hn]; [|discriminate].
      destruct (driverMode cl); try reflexivity. congruence.
    - destruct (DriverMode_eqb (driverMode cl) direct); reflexivity. }
  cbv zeta. rewrite E. cbn [set_tuning set_tuningError tuning tuningError trace
    encoderReads basicTuning encoderCalibration desiredStepPhase newTuningMove].
  repeat split.
  rewrite Z.lor_spec. apply orb_true_r.
Qed.

(** C4, as the code has it.  With only the continuous-phase-increase bit or
    only the Ziegler-Nichols bit requested (neither being one of the basic
    tuning and encoder calibration bits), [PerformTune] zeroes the tuning
    bitmask and sets [newTuningMove]; it raises no error bit and makes no
    outgoing call. *)
Theorem PerformTune_unimplemented_request_is_dropped (cl : t) (enc : Encoder) :
  driverMode cl = direct ->
  encoder cl = Some enc ->
  tuning cl = CONTINUOUS_PHASE_INCREASE_MANOEUVRE \/
  tuning cl = ZIEGLER_NICHOLS_MANOEUVRE ->
  has (tuning cl) BASIC_TUNING_MANOEUVRE = false ->
  has (tuning cl) ENCODER_CALIBRATION_MANOEUVRE = false ->
  PerformTune cl = set_newTuningMove true (set_tuning 0 cl) /\
  tuning (PerformTune cl) = 0 /\
  tuningError (PerformTune cl) = tuningError cl /\
  trace (PerformTune cl) = trace cl.
Proof.
  intros Hm He Hreq Hb Hc.
  assert (Hs : has (tuning cl) STEP_MANOEUVRE = false)
    by (destruct Hreq as [-> | ->]; reflexivity).
  assert (E : PerformTune cl = set_newTuningMove true (set_tuning 0 cl)).
  { unfold PerformTune. rewrite He, Hm, Hb, Hc, Hs. reflexivity. }
  rewrite E. repeat split.
Qed.

Lemma has_after_clearing (mask a b : Z) :
  Z.land a b = 0 ->
  has (Z.land mask (Z.lnot a)) b = has mask b /\
  has (Z.land mask (Z.lnot a)) a = false.
Proof.
  intros Hd. unfold has. split.
  - f_equal. f_equal.
    rewrite <- Z.land_assoc. f_equal.
    apply Z.bits_inj'. intros n Hn.
    rewrite Z.land_spec, Z.lnot_spec by exact Hn.
    assert (Hbit : Z.testbit (Z.land a b) n = false) by (rewrite Hd; apply Z.bits_0).
    rewrite Z.land_spec in Hbit.
    destruct (Z.testbit a n), (Z.testbit b n); try reflexivity; discriminate.
  - rewrite <- Z.land_assoc.
    replace (Z.land (Z.lnot a) a) with 0; [rewrite Z.land_0_r; reflexivity|].
    symmetry. apply Z.bits_inj'. intros n Hn.
    rewrite Z.land_spec, Z.lnot_spec, Z.bits_0 by exact Hn.
    destruct (Z.testbit a n); reflexivity.
Qed.

(** One tick with the basic-tuning bit set. *)
Lemma PerformTune_basic_step (cl : t) (enc : Encoder) :
  driverMode cl = direct ->
  encoder cl = Some enc ->
  has (tuning cl) BASIC_TUNING_MANOEUVRE = true ->
  let cl0 := match PositioningType enc with
             | absolute =>
                 if has (tuning cl) ENCODER_CALIBRATION_MANOEUVRE
                 then emit ClearLUT cl else cl
             | relative => cl
             end in
  let r := BasicTuning enc (newTuningMove cl) cl0 in
  let cl' := PerformTune cl in
  newTuningMove cl' = fst r /\
  encoderCalibration cl' = encoderCalibration cl /\
  driverMode cl' = direct /\ encoder cl' = Some enc /\
  (if fst r then
     tuning cl' = Z.land (tuning cl) (Z.lnot BASIC_TUNING_MANOEUVRE) /\
     tuningError cl' = Z.land (tuningError cl) (Z.lnot TUNE_ERR_NOT_DONE_BASIC)
   else
     cl' = set_newTuningMove false (snd r) /\
     tuning cl' = tuning cl /\ tuningError cl' = tuningError cl).
Proof.
  intros Hm He Hb cl0 r cl'.
  assert (Hcl0 : sameRequests cl cl0 /\
                 encoderCalibration cl0 = encoderCalibration cl).
  { unfold cl0, sameRequests.
    destruct (PositioningType enc);
      [destruct (has (tuning cl) ENCODER_CALIBRATION_MANOEUVRE)|]; cbn; tauto. }
  destruct Hcl0 as [(Ht0 & Hte0 & Hm0 & He0 & Hn0) Hec0].
  destruct (BasicTuning_sameRequests enc (newTuningMove cl) cl0)
    as [(Ht & Hte & Hm1 & He1 & _) Hec].
  fold r in Ht, Hte, Hm1, He1, Hec.
  assert (E : cl' =
    let cl1 := set_newTuningMove (fst r) (snd r) in
    if fst r then
      set_tuning (Z.land (tuning cl1) (Z.lnot BASIC_TUNING_MANOEUVRE))
        (set_tuningError
           (Z.land (tuningError cl1) (Z.lnot TUNE_ERR_NOT_DONE_BASIC)) cl1)
    else cl1).
  { unfold cl', PerformTune. rewrite He, Hm. cbn [DriverMode_eqb].
    rewrite Hb. unfold r, cl0.
    assert (Hn : forall c, newTuningMove
                (if has (tuning cl) ENCODER_CALIBRATION_MANOEUVRE
                 then emit ClearLUT c else c) = newTuningMove c)
      by (intros c; destruct (has (tuning cl) ENCODER_CALIBRATION_MANOEUVRE);
          reflexivity).
    destruct (PositioningType enc).
    - rewrite Hn.
      destruct (BasicTuning enc (newTuningMove cl) _) as [fin cl2].
      reflexivity.
    - destruct (BasicTuning enc (newTuningMove cl) cl) as [fin cl2].
      reflexivity. }
  cbv zeta in E. rewrite E.
  destruct (fst r) eqn:Hfin;
    cbn [set_tuning set_tuningError set_newTuningMove tuning tuningError
         newTuningMove encoderCalibration driverMode encoder];
    rewrite Ht, Hte, Ht0, Hte0, Hec, Hec0, Hm1, Hm0, He1, He0;
    repeat split; assumption.
Qed.

(** While basic tuning has not reported finished, tick after tick leaves
    the request and error bitmasks and the encoder calibration alone. *)
Lemma ticks_basic_until_finished (enc : Encoder) : forall (n : nat) (cl : t),
  driverMode cl = direct ->
  encoder cl = Some enc ->
  has (tuning cl) BASIC_TUNING_MANOEUVRE = true ->
  (forall k, (k < n)%nat -> newTuningMove (ticks (S k) cl) = false) ->
  tuning (ticks n cl) = tuning cl /\
  tuningError (ticks n cl) = tuningError cl /\
  encoderCalibration (ticks n cl) = encoderCalibration cl.
Proof.
  induction n as [|n IH]; intros cl Hm He Hb Hrun; [repeat split|].
  destruct (PerformTune_basic_step cl enc Hm He Hb)
    as (Hn & Hec & Hm' & He' & Hcase).
  assert (Hfin : newTuningMove (PerformTune cl) = false)
    by (apply (Hrun O); lia).
  rewrite Hn in Hfin. rewrite Hfin in Hcase.
  destruct Hcase as (_ & Ht & Hte).
  cbn [ticks].
  destruct (IH (PerformTune cl)) as (Ht2 & Hte2 & Hec2); try assumption.
  - rewrite Ht. exact Hb.
  - intros k Hk. apply (Hrun (S k)). lia.
  - rewrite Ht2, Hte2, Hec2. repeat split; assumption.
Qed.

(** [BasicTuning] acts alike on states that agree on what it reads. *)
Lemma BasicTuning_congr enc first a b :
  sameBasic a b ->
  fst (BasicTuning enc first a) = fst (BasicTuning enc first b) /\
  sameBasic (snd (BasicTuning enc first a)) (snd (BasicTuning enc first b)).
Proof.
  unfold sameBasic. destruct a, b.
  cbn [basicTuning desiredStepPhase encoderReads].
  intros (-> & -> & ->).
  unfold BasicTuning.
  destruct first; cbn -[Z.eqb NumSamples NumDummySteps Int.u32 Int.u16 Int.s32];
    try match goal with |- context [state ?bt] => destruct (state bt) end;
    cbn -[Z.eqb NumSamples NumDummySteps Int.u32 Int.u16 Int.s32];
    unfold settle, collect, saveResult, stepPhase, set_state_counter;
    cbn -[Z.eqb NumSamples NumDummySteps Int.u32 Int.u16 Int.s32];
    repeat match goal with |- context [if ?c then _ else _] => destruct c end;
    cbn; repeat split; reflexivity.
Qed.

Lemma ticks_app (n m : nat) : forall cl, ticks (n + m) cl = ticks m (ticks n cl).
Proof. induction n as [|n IH]; intros cl; [reflexivity|]. apply IH. Qed.

Lemma ticks_S_r (n : nat) : forall cl, ticks (S n) cl = PerformTune (ticks n cl).
Proof.
  induction n as [|n IH]; intros cl; [reflexivity|].
  change (ticks (S (S n)) cl) with (ticks (S n) (PerformTune cl)).
  rewrite IH. reflexivity.
Qed.

(** As long as the calls of [BasicTuning] do not finish, [n] ticks do to the
    manoeuvre what [n] calls in a row do, and keep the bitmasks. *)
Lemma ticks_simulate (enc : Encoder) : forall (n : nat) (cl c2 : t),
  driverMode cl = direct ->
  encoder cl = Some enc ->
  has (tuning cl) BASIC_TUNING_MANOEUVRE = true ->
  sameBasic cl c2 ->
  unfinishedThrough enc n (newTuningMove cl) c2 ->
  sameBasic (ticks n cl) (snd (BasicTuningSteps enc n (newTuningMove cl) c2)) /\
  newTuningMove (ticks n cl) = fst (BasicTuningSteps enc n (newTuningMove cl) c2) /\
  tuning (ticks n cl) = tuning cl /\
  tuningError (ticks n cl) = tuningError cl /\
  encoderCalibration (ticks n cl) = encoderCalibration cl /\
  driverMode (ticks n cl) = direct /\
  encoder (ticks n cl) = Some enc.
Proof.
  induction n as [|n IH]; intros cl c2 Hm He Hb Hsame Hun.
  - cbn [ticks BasicTuningSteps fst snd]. repeat split; try assumption; apply Hsame.
  - destruct (BasicTuning enc (newTuningMove cl) c2) as [f c3] eqn:E2.
    assert (Hf : f = false).
    { specialize (Hun 1%nat ltac:(lia)). cbn [BasicTuningSteps] in Hun.
      rewrite E2 in Hun. exact Hun. }
    subst f.
    assert (Hun1 : unfinishedThrough enc n false c3).
    { intros i Hi. specialize (Hun (S i) ltac:(lia)).
      cbn [BasicTuningSteps] in Hun. rewrite E2 in Hun. exact Hun. }
    pose proof (PerformTune_basic_step cl enc Hm He Hb) as Hstep.
    cbv zeta in Hstep.
    set (cl0 := match PositioningType enc with
                | absolute =>
                    if has (tuning cl) ENCODER_CALIBRATION_MANOEUVRE
                    then emit ClearLUT cl else cl
                | relative => cl
                end) in Hstep.
    assert (Hsame0 : sameBasic cl0 c2).
    { unfold cl0.
      destruct (PositioningType enc);
        [destruct (has (tuning cl) ENCODER_CALIBRATION_MANOEUVRE)|]; exact Hsame. }
    destruct (BasicTuning_congr enc (newTuningMove cl) cl0 c2 Hsame0) as [Hfst Hsnd].
    rewrite E2 in Hfst, Hsnd. cbn [fst snd] in Hfst, Hsnd.
    rewrite Hfst in Hstep.
    destruct Hstep as (Hn & Hec & Hm' & He' & Ecl' & Ht & Hte).
    assert (Hsame1 : sameBasic (PerformTune cl) c3)
      by (rewrite Ecl'; exact Hsnd).
    assert (Hb1 : has (tuning (PerformTune cl)) BASIC_TUNING_MANOEUVRE = true)
      by (rewrite Ht; exact Hb).
    destruct (IH (PerformTune cl) c3 Hm' He' Hb1 Hsame1) as (A1 & A2 & A3 & A4 & A5 & A6 & A7).
    { rewrite Hn. exact Hun1. }
    rewrite Hn in A1, A2.
    cbn [ticks BasicTuningSteps]. rewrite E2.
    split; [exact A1|]. split; [exact A2|].
    rewrite A3, A4, A5. repeat split; assumption.
Qed.

(** The tick on which [BasicTuning] reports finished. *)
Lemma final_tick (enc : Encoder) (T c : t) :
  driverMode T = direct ->
  encoder T = Some enc ->
  has (tuning T) BASIC_TUNING_MANOEUVRE = true ->
  newTuningMove T = false ->
  sameBasic T c ->
  fst (BasicTuning enc false c) = true ->
  newTuningMove (PerformTune T) = true /\
  tuning (PerformTune T) = Z.land (tuning T) (Z.lnot BASIC_TUNING_MANOEUVRE) /\
  tuningError (PerformTune T)
    = Z.land (tuningError T) (Z.lnot TUNE_ERR_NOT_DONE_BASIC) /\
  encoderCalibration (PerformTune T) = encoderCalibration T.
Proof.
  intros Hm He Hb Hn Hsame Hlast.
  pose proof (PerformTune_basic_step T enc Hm He Hb) as Hstep.
  cbv zeta in Hstep.
  set (cl0 := match PositioningType enc with
              | absolute =>
                  if has (tuning T) ENCODER_CALIBRATION_MANOEUVRE
                  then emit ClearLUT T else T
              | relative => T
              end) in Hstep.
  assert (Hsame0 : sameBasic cl0 c).
  { unfold cl0.
    destruct (PositioningType enc);
      [destruct (has (tuning T) ENCODER_CALIBRATION_MANOEUVRE)|]; exact Hsame. }
  destruct (BasicTuning_congr enc false cl0 c Hsame0) as [Hfst _].
  rewrite Hn in Hstep. rewrite Hfst, Hlast in Hstep.
  destruct Hstep as (H1 & H2 & _ & _ & H3 & H4).
  repeat split; assumption.
Qed.

(** From a fresh request, basic tuning keeps the dispatcher for 1041 ticks
    and finishes on tick 1042. *)
Lemma ticks_basic_tuning_completes (enc : Encoder) (cl : t) :
  driverMode cl = direct ->
  encoder cl = Some enc ->
  has (tuning cl) BASIC_TUNING_MANOEUVRE = true ->
  newTuningMove cl = true ->
  (forall n, (n <= 1041)%nat ->
     tuning (ticks n cl) = tuning cl /\
     tuningError (ticks n cl) = tuningError cl /\
     encoderCalibration (ticks n cl) = encoderCalibration cl) /\
  newTuningMove (ticks 1042 cl) = true /\
  tuning (ticks 1042 cl) = Z.land (tuning cl) (Z.lnot BASIC_TUNING_MANOEUVRE) /\
  tuningError (ticks 1042 cl)
    = Z.land (tuningError cl) (Z.lnot TUNE_ERR_NOT_DONE_BASIC) /\
  encoderCalibration (ticks 1042 cl) = encoderCalibration cl.
Proof.
  intros Hm He Hb Hnew.
  destruct (BasicTuningFacts.manoeuvre_run enc cl)
    as (clF & clR & EF & ER & _ & _ & _ & _ & _ & _ & _ & _ & Hun).
  assert (Hun' : forall n, (n <= 1041)%nat -> unfinishedThrough enc n true cl).
  { intros n Hn i Hi. apply Hun. cbn. lia. }
  assert (Hsame : sameBasic cl cl) by (repeat split).
  split.
  - intros n Hn.
    destruct (ticks_simulate enc n cl cl Hm He Hb Hsame)
      as (_ & _ & A3 & A4 & A5 & _); [|repeat split; assumption].
    rewrite Hnew. apply Hun'. exact Hn.
  - destruct (ticks_simulate enc 1041 cl cl Hm He Hb Hsame)
      as (A1 & A2 & A3 & A4 & A5 & A6 & A7).
    { rewrite Hnew. apply Hun'. lia. }
    destruct (BasicTuningFacts.last_call_finishes enc cl) as [HX Hlast].
    rewrite Hnew in A1, A2. rewrite HX in A2.
    assert (Hb' : has (tuning (ticks 1041 cl)) BASIC_TUNING_MANOEUVRE = true)
      by (rewrite A3; exact Hb).
    destruct (final_tick enc (ticks 1041 cl) _ A6 A7 Hb' A2 A1 Hlast)
      as (H1 & H2 & H3 & H4).
    rewrite !(ticks_S_r 1041 cl).
    rewrite H1, H2, H3, H4, A3, A4, A5. repeat split.
Qed.

(** C2.  In direct-drive mode with an encoder: with both the basic-tuning
    and the encoder-calibration bits set (two different bits), a tick steps
    [BasicTuning] and nothing of the encoder calibration; this goes on tick
    after tick, both bitmasks unchanged, for as long as [BasicTuning] has
    not reported finished; when it does, only the basic-tuning request bit
    and the not-done error bit are cleared, the encoder-calibration bit
    staying set.  From a fresh request that takes 1042 ticks: the bitmasks
    stand through tick 1041 and tick 1042 clears the basic-tuning bit alone.
    A finishing step of the encoder calibration or of the step manoeuvre
    zeroes the whole tuning bitmask. *)
Theorem PerformTune_priority_and_completion (cl : t) (enc : Encoder) :
  driverMode cl = direct ->
  encoder cl = Some enc ->
  let B := BASIC_TUNING_MANOEUVRE in
  let C := ENCODER_CALIBRATION_MANOEUVRE in
  (Z.land B C = 0 ->
   has (tuning cl) B = true -> has (tuning cl) C = true ->
   let cl0 := match PositioningType enc with
              | absolute => emit ClearLUT cl
              | relative => cl
              end in
   let r := BasicTuning enc (newTuningMove cl) cl0 in
   let cl' := PerformTune cl in
   newTuningMove cl' = fst r /\
   encoderCalibration cl' = encoderCalibration cl /\
   (fst r = false ->
      cl' = set_newTuningMove false (snd r) /\
      tuning cl' = tuning cl /\ tuningError cl' = tuningError cl) /\
   (fst r = true ->
      tuning cl' = Z.land (tuning cl) (Z.lnot B) /\
      tuningError cl' = Z.land (tuningError cl) (Z.lnot TUNE_ERR_NOT_DONE_BASIC) /\
      has (tuning cl') B = false /\ has (tuning cl') C = true) /\
   (forall n,
      (forall k, (k < n)%nat -> newTuningMove (ticks (S k) cl) = false) ->
      tuning (ticks n cl) = tuning cl /\
      tuningError (ticks n cl) = tuningError cl /\
      encoderCalibration (ticks n cl) = encoderCalibration cl) /\
   (newTuningMove cl = true ->
      (forall n, (n <= 1041)%nat ->
         tuning (ticks n cl) = tuning cl /\
         tuningError (ticks n cl) = tuningError cl /\
         encoderCalibration (ticks n cl) = encoderCalibration cl) /\
      tuning (ticks 1042 cl) = Z.land (tuning cl) (Z.lnot B) /\
      has (tuning (ticks 1042 cl)) B = false /\
      has (tuning (ticks 1042 cl)) C = true /\
      encoderCalibration (ticks 1042 cl) = encoderCalibration cl)) /\
  (has (tuning cl) B = false -> has (tuning cl) C = true ->
   fst (EncoderCalibration enc (newTuningMove cl) cl) = true ->
   tuning (PerformTune cl) = 0) /\
  (has (tuning cl) B = false -> has (tuning cl) C = false ->
   has (tuning cl) STEP_MANOEUVRE = true ->
   tuning (PerformTune cl) = 0).
Proof.
  intros Hm He B C. subst B C. split; [|split].
  - intros Hd Hb Hc cl0 r cl'.
    pose proof (PerformTune_basic_step cl enc Hm He Hb) as Hstep.
    cbv zeta in Hstep. rewrite Hc in Hstep.
    fold cl0 r cl' in Hstep.
    destruct Hstep as (Hn & Hec & _ & _ & Hcase).
    split; [exact Hn|]. split; [exact Hec|].
    split; [|split; [|split]].
    + intros Hfin. rewrite Hfin in Hcase. exact Hcase.
    + intros Hfin. rewrite Hfin in Hcase. destruct Hcase as [Ht Hte].
      destruct (has_after_clearing (tuning cl) _ _ Hd) as [HC HB].
      rewrite Ht. repeat split; try assumption.
      rewrite HC. exact Hc.
    + intros n Hrun. apply (ticks_basic_until_finished enc); assumption.
    + intros Hnew.
      destruct (ticks_basic_tuning_completes enc cl Hm He Hb Hnew)
        as (Hkeep & _ & Ht & _ & Hec').
      destruct (has_after_clearing (tuning cl) _ _ Hd) as [HC HB].
      split; [exact Hkeep|]. rewrite Ht.
      repeat split; try assumption.
      rewrite HC. exact Hc.
  - intros Hb Hc Hfin.
    unfold PerformTune. rewrite He, Hm. cbn [DriverMode_eqb].
    rewrite Hb, Hc.
    destruct (EncoderCalibration enc (newTuningMove cl) cl) as [fin cl2].
    cbn in Hfin. subst fin. reflexivity.
  - intros Hb Hc Hs.
    unfold PerformTune. rewrite He, Hm. cbn [DriverMode_eqb].
    rewrite Hb, Hc, Hs. reflexivity.
Qed.

End Dispatcher.

Lemma PerformTune_precondition_failure_witness :
  let cl := requested 255 spreadCycle (Some (absoluteEncoder Z.of_nat)) 0 in
  let cl' := PerformTune32 cl in
  tuning cl' = 0 /\
  tuningError cl' = Z.lor (tuningError cl) TUNE_ERR_SYSTEM_ERROR /\
  Z.testbit (tuningError cl') 7 = true /\
  trace cl' = trace cl /\
  encoderReads cl' = encoderReads cl /\
  basicTuning cl' = basicTuning cl /\
  encoderCalibration cl' = encoderCalibration cl /\
  desiredStepPhase cl' = desiredStepPhase cl /\
  newTuningMove cl' = newTuningMove cl.
Proof.
  apply (@PerformTune_precondition_failure binary32 env32
           (requested 255 spreadCycle (Some (absoluteEncoder Z.of_nat)) 0)).
  left. discriminate.
Defined.

(** C4, as the specification states it, fails: a request for the continuous phase
    increase alone is cleared with no error bit raised; nothing tells it
    from a manoeuvre that succeeded. *)
Lemma PerformTune_unimplemented_not_reported :
  let cl := requested CONTINUOUS_PHASE_INCREASE_MANOEUVRE direct
              (Some (absoluteEncoder Z.of_nat)) 0 in
  ~ (tuningError (PerformTune32 cl) <> tuningError cl \/
     tuning (PerformTune32 cl) <> 0).
Proof. cbv zeta. intros [H|H]; apply H; reflexivity. Qed.

Lemma PerformTune_unimplemented_request_witness :
  let cl := requested ZIEGLER_NICHOLS_MANOEUVRE direct
              (Some (absoluteEncoder Z.of_nat)) 0 in
  PerformTune32 cl = set_newTuningMove true (set_tuning 0 cl) /\
  tuning (PerformTune32 cl) = 0 /\
  tuningError (PerformTune32 cl) = tuningError cl /\
  trace (PerformTune32 cl) = trace cl.
Proof.
  apply (@PerformTune_unimplemented_request_is_dropped binary32 env32
           (requested ZIEGLER_NICHOLS_MANOEUVRE direct
              (Some (absoluteEncoder Z.of_nat)) 0)
           (absoluteEncoder Z.of_nat));
    try reflexivity.
  right. reflexivity.
Defined.

(** Basic tuning and encoder calibration requested together: the first
    tick leaves both bits set; tick 1042, on which basic tuning finishes,
    clears bit 0 only. *)
Lemma PerformTune_priority_witness :
  let enc := countingEncoder in
  let cl0 := requested 3 direct (Some enc) 0 in
  let cl := @ticks binary32 env32 1041 cl0 in
  (tuning (PerformTune32 cl0) = tuning cl0 /\
   tuningError (PerformTune32 cl0) = tuningError cl0) /\
  (tuning (PerformTune32 cl)
     = Z.land (tuning cl) (Z.lnot (@BASIC_TUNING_MANOEUVRE binary32 env32)) /\
   has (tuning (PerformTune32 cl)) (@ENCODER_CALIBRATION_MANOEUVRE binary32 env32)
     = true) /\
  (tuning cl = 3 /\ tuning (PerformTune32 cl) = 2).
Proof.
  intros enc cl0 cl. split; [|split].
  - destruct (@PerformTune_priority_and_completion binary32 env32 cl0 enc
                eq_refl eq_refl) as [H _].
    destruct (H eq_refl eq_refl eq_refl) as (_ & _ & Hgo & _).
    destruct (Hgo eq_refl) as (_ & Ht & Hte).
    split; assumption.
  - assert (Hm : driverMode cl = direct) by (vm_compute; reflexivity).
    assert (He : encoder cl = Some enc) by reflexivity.
    destruct (@PerformTune_priority_and_completion binary32 env32 cl enc Hm He)
      as [H _].
    assert (Hb : has (tuning cl) (@BASIC_TUNING_MANOEUVRE binary32 env32) = true)
      by (vm_compute; reflexivity).
    assert (Hc : has (tuning cl) (@ENCODER_CALIBRATION_MANOEUVRE binary32 env32) = true)
      by (vm_compute; reflexivity).
    destruct (H eq_refl Hb Hc) as (_ & _ & _ & Hdone & _).
    assert (Hfin : fst (BasicTuning enc (newTuningMove cl) (emit ClearLUT cl)) = true)
      by (vm_compute; reflexivity).
    destruct (Hdone Hfin) as (Ht & _ & _ & HC).
    split; assumption.
  - split; vm_compute; reflexivity.
Defined.

End PerformTuneFacts.

(* ===================================================================== *)
(** * Further properties: the bounded waits and TransceivePacket *)
(* ===================================================================== *)

Module SpiFacts.
Import SharedSpi Inputs.

Lemma onlyPolled_refl hw : onlyPolled hw hw.
Proof. repeat split. Qed.

Lemma onlyPolled_trans a b c : onlyPolled a b -> onlyPolled b c -> onlyPolled a c.
Proof.
  unfold onlyPolled. intros (A1 & A2 & A3 & A4 & A5 & A6 & A7)
    (B1 & B2 & B3 & B4 & B5 & B6 & B7).
  repeat split; congruence.
Qed.

Lemma read_INTFLAG_onlyPolled hw : onlyPolled hw (snd (read_INTFLAG hw)).
Proof. repeat split. Qed.

Lemma waitPreDecrement_spec bit : forall n hw,
  onlyPolled hw (snd (waitPreDecrement bit n hw)) /\
  (flagReads (snd (waitPreDecrement bit n hw)) <= flagReads hw + n)%nat /\
  ((0 < n)%nat -> (flagReads hw < flagReads (snd (waitPreDecrement bit n hw)))%nat).
Proof.
  induction n as [|n IH]; intros hw.
  - cbn. split; [apply onlyPolled_refl|]. split; lia.
  - cbn [waitPreDecrement]. unfold read_INTFLAG.
    destruct (Z.testbit (intflag hw (flagReads hw)) bit).
    { cbn [snd flagReads]. split; [repeat split|]. split; lia. }
    destruct n as [|n'].
    { cbn [snd flagReads]. split; [repeat split|]. split; lia. }
    match goal with |- context [waitPreDecrement bit (S n') ?h] =>
      destruct (IH h) as (Hp & Hle & Hlt) end.
    cbn [flagReads] in Hle, Hlt.
    split; [|split; [lia | intros _; specialize (Hlt ltac:(lia)); lia]].
    eapply onlyPolled_trans; [|exact Hp]. repeat split.
Qed.

Lemma waitPostDecrement_spec bit : forall n hw,
  onlyPolled hw (snd (waitPostDecrement bit n hw)) /\
  (flagReads hw < flagReads (snd (waitPostDecrement bit n hw)) <= flagReads hw + S n)%nat.
Proof.
  induction n as [|n IH]; intros hw; cbn [waitPostDecrement]; unfold read_INTFLAG;
    destruct (Z.testbit (intflag hw (flagReads hw)) bit);
    try (cbn [snd flagReads]; split; [repeat split | lia]).
  match goal with |- context [waitPostDecrement bit n ?h] =>
    destruct (IH h) as (Hp & Hle) end.
  cbn [flagReads] in Hle. split; [|lia].
  eapply onlyPolled_trans; [|exact Hp]. repeat split.
Qed.

Lemma waitForTxReady_spec hw :
  onlyPolled hw (snd (waitForTxReady hw)) /\
  (flagReads hw < flagReads (snd (waitForTxReady hw)) <= flagReads hw + SpiTimeout)%nat.
Proof.
  assert (Hpos : (0 < SpiTimeout)%nat) by (unfold SpiTimeout; lia).
  unfold waitForTxReady. generalize dependent SpiTimeout. intros n Hpos.
  destruct (waitPreDecrement_spec INTFLAG_DRE n hw) as (A1 & A2 & A3).
  specialize (A3 Hpos). split; [exact A1 | lia].
Qed.

Lemma waitForRxReady_spec hw :
  onlyPolled hw (snd (waitForRxReady hw)) /\
  (flagReads hw < flagReads (snd (waitForRxReady hw)) <= flagReads hw + SpiTimeout)%nat.
Proof.
  assert (Hpos : (0 < SpiTimeout)%nat) by (unfold SpiTimeout; lia).
  unfold waitForRxReady. generalize dependent SpiTimeout. intros n Hpos.
  destruct (waitPreDecrement_spec INTFLAG_RXC n hw) as (A1 & A2 & A3).
  specialize (A3 Hpos). split; [exact A1 | lia].
Qed.

Lemma waitForTxEmpty_spec hw :
  onlyPolled hw (snd (waitForTxEmpty hw)) /\
  (flagReads hw < flagReads (snd (waitForTxEmpty hw)) <= flagReads hw + S SpiTimeout)%nat.
Proof. apply waitPostDecrement_spec. Qed.


Lemma waitPostDecrement_first_ready bit : forall n hw k,
  (k <= n)%nat ->
  (forall j, (j < k)%nat -> Z.testbit (intflag hw (flagReads hw + j)) bit = false) ->
  Z.testbit (intflag hw (flagReads hw + k)) bit = true ->
  fst (waitPostDecrement bit n hw) = false /\
  flagReads (snd (waitPostDecrement bit n hw)) = (flagReads hw + S k)%nat.
Proof.
  induction n as [|n IH]; intros hw k Hk Hdown Hup;
    cbn [waitPostDecrement]; unfold read_INTFLAG.
  - assert (k = O) by lia. subst k.
    rewrite Nat.add_0_r in Hup. rewrite Hup. cbn. split; [reflexivity | lia].
  - destruct k as [|k].
    + rewrite Nat.add_0_r in Hup. rewrite Hup. cbn. split; [reflexivity | lia].
    + pose proof (Hdown O ltac:(lia)) as H0. rewrite Nat.add_0_r in H0. rewrite H0.
      match goal with |- context [waitPostDecrement bit n ?h] =>
        destruct (IH h k) as (E1 & E2) end.
      * lia.
      * intros j Hj. cbn [intflag flagReads].
        replace (S (flagReads hw) + j)%nat with (flagReads hw + S j)%nat by lia.
        apply Hdown. lia.
      * cbn [intflag flagReads].
        replace (S (flagReads hw) + k)%nat with (flagReads hw + S k)%nat by lia.
        exact Hup.
      * cbn [flagReads] in E2. split; [exact E1 | lia].
Qed.


(** X1.  Each wait returns after at least one and at most [SpiTimeout]
    reads of INTFLAG (the transmit-empty wait: [SpiTimeout + 1]), and reads
    nothing else: registers, DATA and both traces are as before. *)
Theorem waits_poll_within_budget (hw : Sercom) :
  (onlyPolled hw (snd (waitForTxReady hw)) /\
   (flagReads hw < flagReads (snd (waitForTxReady hw)) <= flagReads hw + SpiTimeout)%nat) /\
  (onlyPolled hw (snd (waitForRxReady hw)) /\
   (flagReads hw < flagReads (snd (waitForRxReady hw)) <= flagReads hw + SpiTimeout)%nat) /\
  (onlyPolled hw (snd (waitForTxEmpty hw)) /\
   (flagReads hw < flagReads (snd (waitForTxEmpty hw)) <= flagReads hw + S SpiTimeout)%nat).
Proof.
  assert (Hpos : (0 < SpiTimeout)%nat) by (unfold SpiTimeout; lia).
  unfold waitForTxReady, waitForRxReady, waitForTxEmpty.
  generalize dependent SpiTimeout. intros n Hpos.
  destruct (waitPreDecrement_spec INTFLAG_DRE n hw) as (A1 & A2 & A3).
  destruct (waitPreDecrement_spec INTFLAG_RXC n hw) as (B1 & B2 & B3).
  destruct (waitPostDecrement_spec INTFLAG_TXC n hw) as (C1 & C2).
  specialize (A3 Hpos). specialize (B3 Hpos).
  split; [split; [exact A1 | lia]|].
  split; [split; [exact B1 | lia]|].
  split; [exact C1 | lia].
Qed.




(** ** The byte loop *)

Lemma sent_cons tx i k (w : list Z) :
  sent tx (S i) k ++ dOut tx i :: w = sent tx i (S k) ++ w.
Proof.
  unfold sent. cbn [seq map rev]. rewrite <- app_assoc. reflexivity.
Qed.

Lemma afterByte_spec tx i hw :
  CTRLA (afterByte tx i hw) = CTRLA hw /\ RXEN (afterByte tx i hw) = RXEN hw /\
  BAUD (afterByte tx i hw) = BAUD hw /\
  intflag (afterByte tx i hw) = intflag hw /\
  rxdata (afterByte tx i hw) = rxdata hw /\
  dataReads (afterByte tx i hw) = S (dataReads hw) /\
  dataWritten (afterByte tx i hw) = dOut tx i :: dataWritten hw /\
  (flagReads hw < flagReads (afterByte tx i hw) <= flagReads hw + 2 * SpiTimeout)%nat.
Proof.
  unfold afterByte. cbn [read_DATA snd].
  destruct (waitForTxReady_spec hw) as ((A1 & A2 & A3 & A4 & A5 & A6 & A7) & A8).
  destruct (waitForRxReady_spec (write_DATA (dOut tx i) (snd (waitForTxReady hw))))
    as ((B1 & B2 & B3 & B4 & B5 & B6 & B7) & B8).
  cbn [write_DATA CTRLA RXEN BAUD intflag rxdata dataReads dataWritten flagReads] in *.
  rewrite B1, B2, B3, B4, B5, B6, B7, A1, A2, A3, A4, A5, A6, A7.
  repeat split; lia.
Qed.

(** The first byte read back in position [i]. *)
Lemma afterByte_dIn tx i hw :
  fst (read_DATA (snd (waitForRxReady
         (write_DATA (dOut tx i) (snd (waitForTxReady hw))))))
  = rxdata hw (dataReads hw).
Proof.
  destruct (waitForTxReady_spec hw) as ((_ & _ & _ & _ & A5 & A6 & _) & _).
  destruct (waitForRxReady_spec (write_DATA (dOut tx i) (snd (waitForTxReady hw))))
    as ((_ & _ & _ & _ & B5 & B6 & _) & _).
  cbn [write_DATA rxdata dataReads] in *.
  unfold read_DATA. cbn [fst]. rewrite B5, B6, A5, A6. reflexivity.
Qed.

(** All there is to know of a transfer with a receive buffer: [k] bytes
    were stored to DATA and [r] read back. *)
Lemma transceiveBytes_rx_spec n : forall i tx buf hw,
  exists ok buf' hw' k r,
    transceiveBytes n i tx (Some buf) hw = (ok, Some buf', hw') /\
    (r <= k <= n)%nat /\ (k <= S r)%nat /\ (ok = true -> r = n) /\
    (ok = false -> (r < n)%nat) /\
    dataWritten hw' = sent tx i k ++ dataWritten hw /\
    dataReads hw' = (dataReads hw + r)%nat /\
    rxdata hw' = rxdata hw /\ intflag hw' = intflag hw /\
    CTRLA hw' = CTRLA hw /\ RXEN hw' = RXEN hw /\ BAUD hw' = BAUD hw /\
    (flagReads hw' <= flagReads hw + n * (2 * SpiTimeout))%nat /\
    (forall j, (i <= j < i + r)%nat -> (j < length buf)%nat ->
       buf' !! j = Some (Int.u8 (rxdata hw (dataReads hw + (j - i))%nat))).
Proof.
  induction n as [|n IH]; intros i tx buf hw.
  - exists true, buf, hw, O, O. cbn [transceiveBytes sent seq map rev app].
    repeat split; auto with lia; intros; lia.
  - rewrite TransceiveFacts.transceiveBytes_rx_step.
    destruct (waitForTxReady_spec hw) as ((A1 & A2 & A3 & A4 & A5 & A6 & A7) & A8).
    destruct (fst (waitForTxReady hw)).
    { exists false, buf, (snd (waitForTxReady hw)), O, O.
      cbn [sent seq map rev app].
      repeat split; try assumption; try lia; try discriminate; intros; lia. }
    cbv zeta.
    destruct (waitForRxReady_spec (write_DATA (dOut tx i) (snd (waitForTxReady hw))))
      as ((B1 & B2 & B3 & B4 & B5 & B6 & B7) & B8).
    cbn [write_DATA CTRLA RXEN BAUD intflag rxdata dataReads dataWritten flagReads] in *.
    destruct (fst (waitForRxReady _)).
    { eexists false, buf, _, 1%nat, O. split; [reflexivity|].
      rewrite B1, B2, B3, B4, B5, B6, B7, A1, A2, A3, A4, A5, A6, A7.
      replace (sent tx i 1) with [dOut tx i] by reflexivity.
      repeat split; try lia; try discriminate; intros; lia. }
    rewrite afterByte_dIn.
    destruct (afterByte_spec tx i hw) as (C1 & C2 & C3 & C4 & C5 & C6 & C7 & C8).
    destruct (IH (S i) tx (<[i := Int.u8 (rxdata hw (dataReads hw))]> buf)
                (afterByte tx i hw))
      as (ok & buf' & hw' & k & r & E & Hrk & Hk & Hok & Hno & Hw & Hr & Hx & Hf
          & H1 & H2 & H3 & Hfl & Hbuf).
    exists ok, buf', hw', (S k), (S r). split; [exact E|].
    rewrite Hw, Hr, Hx, Hf, H1, H2, H3, C1, C2, C3, C4, C5, C6, C7.
    split; [lia|]. split; [lia|].
    split; [intros H; specialize (Hok H); lia|].
    split; [intros H; specialize (Hno H); lia|].
    split; [apply sent_cons|].
    split; [lia|]. do 5 (split; [reflexivity|]).
    split; [lia|].
    intros j Hj Hlen. destruct (Nat.eq_dec j i) as [->|Hne].
    + destruct (TransceiveFacts.transceiveBytes_rx_frame n (S i) tx
                  (<[i := Int.u8 (rxdata hw (dataReads hw))]> buf) (afterByte tx i hw))
        as (ok2 & buf2 & hw2 & E2 & _ & Hfr & _).
      rewrite E in E2. injection E2 as _ <- _.
      rewrite Hfr by lia. rewrite Nat.sub_diag, Nat.add_0_r.
      apply list_lookup_insert_eq. exact Hlen.
    + rewrite Hbuf; [|lia|rewrite length_insert; exact Hlen].
      rewrite C5, C6. do 3 f_equal. lia.
Qed.

Lemma transceiveBytes_tx_step n i tx hw :
  transceiveBytes (S n) i tx None hw =
    if fst (waitForTxReady hw) then (false, None, snd (waitForTxReady hw))
    else transceiveBytes n (S i) tx None
           (write_DATA (dOut tx i) (snd (waitForTxReady hw))).
Proof.
  cbn [transceiveBytes].
  destruct (waitForTxReady hw) as [to1 hw1]. cbn [fst snd].
  destruct to1; reflexivity.
Qed.

(** The same of a pure write: nothing is read back. *)
Lemma transceiveBytes_tx_spec n : forall i tx hw,
  exists ok hw' k,
    transceiveBytes n i tx None hw = (ok, None, hw') /\
    (k <= n)%nat /\ (ok = true -> k = n) /\ (ok = false -> (k < n)%nat) /\
    dataWritten hw' = sent tx i k ++ dataWritten hw /\
    dataReads hw' = dataReads hw /\
    rxdata hw' = rxdata hw /\ intflag hw' = intflag hw /\
    CTRLA hw' = CTRLA hw /\ RXEN hw' = RXEN hw /\ BAUD hw' = BAUD hw /\
    (flagReads hw' <= flagReads hw + n * (2 * SpiTimeout))%nat.
Proof.
  induction n as [|n IH]; intros i tx hw.
  - exists true, hw, O. cbn [transceiveBytes sent seq map rev app].
    repeat split; auto with lia; discriminate.
  - rewrite transceiveBytes_tx_step.
    destruct (waitForTxReady_spec hw) as ((A1 & A2 & A3 & A4 & A5 & A6 & A7) & A8).
    destruct (fst (waitForTxReady hw)).
    { exists false, (snd (waitForTxReady hw)), O.
      cbn [sent seq map rev app].
      repeat split; try assumption; try lia; discriminate. }
    destruct (IH (S i) tx (write_DATA (dOut tx i) (snd (waitForTxReady hw))))
      as (ok & hw' & k & E & Hk & Hok & Hno & Hw & Hr & Hx & Hf & H1 & H2 & H3 & Hfl).
    cbn [write_DATA CTRLA RXEN BAUD intflag rxdata dataReads dataWritten flagReads] in *.
    exists ok, hw', (S k). split; [exact E|].
    rewrite Hw, Hr, Hx, Hf, H1, H2, H3, A1, A2, A3, A4, A5, A6, A7.
    split; [lia|].
    split; [intros H; specialize (Hok H); lia|].
    split; [intros H; specialize (Hno H); lia|].
    split; [apply sent_cons|].
    do 6 (split; [reflexivity|]). lia.
Qed.

Lemma transceiveBytes_rx_fail n : forall i tx buf hw,
  fst (fst (transceiveBytes n i tx (Some buf) hw)) = false ->
  TimesOut tx n i hw.
Proof.
  induction n as [|n IH]; intros i tx buf hw; [discriminate|].
  rewrite TransceiveFacts.transceiveBytes_rx_step.
  destruct (fst (waitForTxReady hw)) eqn:Htx.
  { intros _. apply TimesOut_tx. exact Htx. }
  cbv zeta.
  destruct (fst (waitForRxReady _)) eqn:Hrx.
  { intros _. apply TimesOut_rx; assumption. }
  intros Hfail. apply TimesOut_later; [assumption..|].
  apply (IH _ _ _ _ Hfail).
Qed.

(** X4.  With a receive buffer, [TransceivePacket] returns [true] exactly
    when no transmitter-ready or receiver-ready wait times out. *)
Theorem TransceivePacket_succeeds_iff_no_timeout
    (tx : option (list Z)) (buf : list Z) (len : nat) (hw : Sercom) :
  fst (fst (TransceivePacket tx (Some buf) len hw)) = true <->
  ~ TimesOut tx len 0 hw.
Proof.
  unfold TransceivePacket.
  destruct (transceiveBytes len 0 tx (Some buf) hw) as [[ok rx'] hw'] eqn:E.
  split.
  - intros Hok Hto.
    destruct (TransceiveFacts.transceiveBytes_rx_timeout tx len 0 hw Hto buf)
      as (b & h & E' & _).
    rewrite E in E'. injection E' as -> _ _.
    discriminate.
  - intros Hno. destruct ok.
    { destruct rx'; [reflexivity|].
      destruct (waitForTxEmpty hw') as [? h1]. destruct (read_DATA h1). reflexivity. }
    exfalso. apply Hno. apply (transceiveBytes_rx_fail len 0 tx buf hw).
    rewrite E. reflexivity.
Qed.

(** X5.  A [TransceivePacket] call that returns [true] on a receive buffer
    of at least [len] bytes has stored the [len] bytes to send to DATA in
    order (the transmit buffer's, or 0xFF each without one), read DATA
    [len] times, and put the low eight bits of the [j]-th value read into
    position [j] of the buffer. *)
Theorem TransceivePacket_success_contents
    (tx : option (list Z)) (buf buf' : list Z) (len : nat) (hw hw' : Sercom) :
  TransceivePacket tx (Some buf) len hw = (true, Some buf', hw') ->
  (len <= length buf)%nat ->
  (forall j, (j < len)%nat ->
     buf' !! j = Some (Int.u8 (rxdata hw (dataReads hw + j)%nat))) /\
  (forall j, (len <= j)%nat -> buf' !! j = buf !! j) /\
  dataWritten hw' = sent tx 0 len ++ dataWritten hw /\
  dataReads hw' = (dataReads hw + len)%nat.
Proof.
  intros E Hlen.
  destruct (transceiveBytes_rx_spec len 0 tx buf hw)
    as (ok & b & h & k & r & E' & Hrk & Hk & Hok & _ & Hw & Hr & _ & _ & _ & _ & _
        & _ & Hbuf).
  destruct (TransceiveFacts.transceiveBytes_rx_frame len 0 tx buf hw)
    as (ok2 & b2 & h2 & E2 & _ & Hfr & _).
  rewrite E' in E2. injection E2 as <- <- <-.
  unfold TransceivePacket in E. rewrite E' in E.
  destruct ok; [|discriminate]. injection E as <- <-.
  specialize (Hok eq_refl). subst r. assert (k = len) by lia. subst k.
  repeat split; try assumption.
  - intros j Hj. rewrite Hbuf by lia. do 3 f_equal. lia.
  - intros j Hj. apply Hfr. lia.
Qed.

Lemma TransceivePacket_success_witness :
  exists hw',
    TransceivePacket (Some [1; 2; 3]) (Some [0; 0; 0; 9]) 3 readyBus
      = (true, Some [160; 161; 162; 9], hw') /\
    dataWritten hw' = [3; 2; 1] /\ dataReads hw' = 3%nat.
Proof.
  eexists. split; [vm_compute; reflexivity|].
  destruct (TransceivePacket_success_contents (Some [1; 2; 3]) [0; 0; 0; 9]
              [160; 161; 162; 9]
              3 readyBus
              (snd (TransceivePacket (Some [1; 2; 3]) (Some [0; 0; 0; 9]) 3 readyBus)))
    as (_ & _ & Hw & Hr).
  - vm_compute. reflexivity.
  - cbn. lia.
  - split; [exact Hw | exact Hr].
Defined.

Lemma sent_fill (i k : nat) : sent None i k = replicate k 255.
Proof.
  revert i. induction k as [|k IH]; intros i; [reflexivity|].
  unfold sent in *. cbn [seq map rev]. rewrite IH.
  change (dOut None i) with 255.
  clear. induction k as [|k IH]; [reflexivity|].
  cbn [replicate app]. rewrite IH. reflexivity.
Qed.

Lemma TransceivePacket_rx_eq tx buf len hw :
  TransceivePacket tx (Some buf) len hw = transceiveBytes len 0 tx (Some buf) hw.
Proof.
  destruct (TransceiveFacts.transceiveBytes_rx_frame len 0 tx buf hw)
    as (ok & b & h & E & _).
  unfold TransceivePacket. rewrite E. destruct ok; reflexivity.
Qed.

Lemma TransceivePacket_tx_eq tx len hw :
  TransceivePacket tx None len hw =
    let r := transceiveBytes len 0 tx None hw in
    if fst (fst r)
    then (true, None, snd (read_DATA (snd (waitForTxEmpty (snd r)))))
    else (false, None, snd r).
Proof.
  destruct (transceiveBytes_tx_spec len 0 tx hw) as (ok & h & k & E & _).
  unfold TransceivePacket. cbv zeta. rewrite E. cbn [fst snd].
  destruct ok; [|reflexivity].
  destruct (waitForTxEmpty h) as [? h1]. reflexivity.
Qed.

(** X6.  Whatever the outcome, the bytes [TransceivePacket] has stored to
    DATA are the first [k] bytes to send, in order, for some [k <= len], and
    all [len] of them if it returns [true]; without a transmit buffer each
    of them is 0xFF. *)
Theorem TransceivePacket_sends_in_order
    (tx rx : option (list Z)) (len : nat) (hw : Sercom) :
  let r := TransceivePacket tx rx len hw in
  exists k, (k <= len)%nat /\
    dataWritten (snd r) = sent tx 0 k ++ dataWritten hw /\
    (fst (fst r) = true -> k = len) /\
    (tx = None -> dataWritten (snd r) = replicate k 255 ++ dataWritten hw).
Proof.
  cbv zeta. destruct rx as [buf|].
  - rewrite TransceivePacket_rx_eq.
    destruct (transceiveBytes_rx_spec len 0 tx buf hw)
      as (ok & b & h & k & r & E & Hrk & Hk & Hok & _ & Hw & _).
    rewrite E. cbn [fst snd]. exists k.
    split; [lia|]. split; [exact Hw|].
    split; [intros H; specialize (Hok H); lia|].
    intros ->. rewrite Hw, sent_fill. reflexivity.
  - rewrite TransceivePacket_tx_eq. cbv zeta.
    destruct (transceiveBytes_tx_spec len 0 tx hw)
      as (ok & h & k & E & Hk & Hok & _ & Hw & _).
    rewrite E. cbn [fst snd]. exists k.
    assert (Hw' : dataWritten (snd (if ok
                    then (true, @None (list Z), snd (read_DATA (snd (waitForTxEmpty h))))
                    else (false, None, h))) = sent tx 0 k ++ dataWritten hw).
    { destruct ok; cbn [snd]; [|exact Hw].
      destruct (waitForTxEmpty_spec h) as ((_ & _ & _ & _ & _ & _ & A7) & _).
      cbn [read_DATA snd dataWritten]. rewrite A7. exact Hw. }
    split; [exact Hk|]. split; [exact Hw'|].
    split; [destruct ok; cbn [fst]; [exact Hok | discriminate]|].
    intros ->. rewrite Hw', sent_fill. reflexivity.
Qed.

(** X7.  A pure write (no receive buffer) that returns [true] has stored
    all [len] bytes to DATA in order and then read DATA exactly once, which
    empties the receive register; one that returns [false] has not read
    DATA at all.  Either way no buffer comes back. *)
Theorem TransceivePacket_write_reads_DATA_once
    (tx : option (list Z)) (len : nat) (hw : Sercom) :
  let r := TransceivePacket tx None len hw in
  snd (fst r) = None /\
  (if fst (fst r)
   then dataWritten (snd r) = sent tx 0 len ++ dataWritten hw /\
        dataReads (snd r) = S (dataReads hw)
   else dataReads (snd r) = dataReads hw).
Proof.
  cbv zeta. rewrite TransceivePacket_tx_eq. cbv zeta.
  destruct (transceiveBytes_tx_spec len 0 tx hw)
    as (ok & h & k & E & Hk & Hok & _ & Hw & Hr & _).
  rewrite E. cbn [fst snd].
  destruct ok; cbn [fst snd]; split; try reflexivity; [|exact Hr].
  destruct (waitForTxEmpty_spec h) as ((_ & _ & _ & _ & _ & A6 & A7) & _).
  cbn [read_DATA snd dataWritten dataReads]. rewrite A6, A7, Hw, Hr.
  rewrite (Hok eq_refl). split; reflexivity.
Qed.

(** X8.  A [TransceivePacket] call of [len] bytes reads INTFLAG at most
    [2 * SpiTimeout] times per byte, plus [SpiTimeout + 1] times for the
    closing wait of a pure write: the call returns within a fixed budget of
    polls, whatever the bus does. *)
Theorem TransceivePacket_poll_budget
    (tx rx : option (list Z)) (len : nat) (hw : Sercom) :
  (flagReads (snd (TransceivePacket tx rx len hw))
   <= flagReads hw + len * (2 * SpiTimeout) + S SpiTimeout)%nat.
Proof.
  destruct rx as [buf|].
  - rewrite TransceivePacket_rx_eq.
    destruct (transceiveBytes_rx_spec len 0 tx buf hw)
      as (ok & b & h & k & r & E & _ & _ & _ & _ & _ & _ & _ & _ & _ & _ & _ & Hfl & _).
    rewrite E. cbn [snd]. lia.
  - rewrite TransceivePacket_tx_eq. cbv zeta.
    destruct (transceiveBytes_tx_spec len 0 tx hw)
      as (ok & h & k & E & _ & _ & _ & _ & _ & _ & _ & _ & _ & _ & Hfl).
    rewrite E. cbn [fst snd]. destruct ok; cbn [snd]; [|lia].
    destruct (waitForTxEmpty_spec h) as (_ & A8).
    cbn [read_DATA snd flagReads]. lia.
Qed.

(** ** SetupMaster *)



End SpiFacts.

(* ===================================================================== *)
(** * Further properties: the dispatcher and its manoeuvres *)
(* ===================================================================== *)

Module TuningFacts.
Import ClosedLoop Tuning Inputs BasicTuningFacts PerformTuneFacts.

Section Dispatch.
Context `{FO : FloatOps} `{TE : !TuningEnv}.

(** [PerformTune] past its precondition, with the results of the manoeuvre
    calls named. *)
Lemma PerformTune_dispatch (cl : t) (enc : Encoder) :
  driverMode cl = direct ->
  encoder cl = Some enc ->
  PerformTune cl =
    if has (tuning cl) BASIC_TUNING_MANOEUVRE then
      let cl0 := match PositioningType enc with
                 | absolute =>
                     if has (tuning cl) ENCODER_CALIBRATION_MANOEUVRE
                     then emit ClearLUT cl else cl
                 | relative => cl
                 end in
      let r := BasicTuning enc (newTuningMove cl0) cl0 in
      let c := set_newTuningMove (fst r) (snd r) in
      if fst r then
        set_tuning (Z.land (tuning c) (Z.lnot BASIC_TUNING_MANOEUVRE))
          (set_tuningError
             (Z.land (tuningError c) (Z.lnot TUNE_ERR_NOT_DONE_BASIC)) c)
      else c
    else if has (tuning cl) ENCODER_CALIBRATION_MANOEUVRE then
      let r := EncoderCalibration enc (newTuningMove cl) cl in
      let c := set_newTuningMove (fst r) (snd r) in
      if fst r then set_tuning 0 c else c
    else if has (tuning cl) STEP_MANOEUVRE then
      set_tuning 0
        (set_newTuningMove true (emit (AdjustTargetMotorSteps (F_of_Z 4)) cl))
    else set_newTuningMove true (set_tuning 0 cl).
Proof.
  intros Hm He. unfold PerformTune. rewrite He, Hm. cbn [DriverMode_eqb].
  destruct (has (tuning cl) BASIC_TUNING_MANOEUVRE).
  - cbv zeta.
    match goal with |- context [BasicTuning enc (newTuningMove ?c) ?c] =>
      destruct (BasicTuning enc (newTuningMove c) c) as [fin c1] end.
    reflexivity.
  - destruct (has (tuning cl) ENCODER_CALIBRATION_MANOEUVRE).
    + cbv zeta.
      destruct (EncoderCalibration enc (newTuningMove cl) cl) as [fin c1].
      reflexivity.
    + destruct (has (tuning cl) STEP_MANOEUVRE); reflexivity.
Qed.

Lemma has_nonzero (mask bit : Z) : has mask bit = true -> mask <> 0.
Proof.
  unfold has. intros H E. subst mask. rewrite Z.land_0_l in H. discriminate.
Qed.

Lemma land_clear_subset (x b : Z) : Z.land (Z.land x (Z.lnot b)) (Z.lnot x) = 0.
Proof.
  rewrite <- Z.land_assoc, (Z.land_comm (Z.lnot b)), Z.land_assoc.
  rewrite Z.land_lnot_diag. apply Z.land_0_l.
Qed.

(** X10.  [PerformTune] only ever takes requests away: the request mask
    after a tick is the old one, the old one without the basic-tuning bit,
    or empty, so no bit is set that was not set before; the error mask is
    the old one, gains the system-error bit or loses the basic-tuning
    error bit; the drive mode and the encoder are left alone. *)
Theorem PerformTune_only_clears_requests (cl : t) :
  (tuning (PerformTune cl) = tuning cl \/
   tuning (PerformTune cl) =
     Z.land (tuning cl) (Z.lnot BASIC_TUNING_MANOEUVRE) \/
   tuning (PerformTune cl) = 0) /\
  Z.land (tuning (PerformTune cl)) (Z.lnot (tuning cl)) = 0 /\
  (tuningError (PerformTune cl) = tuningError cl \/
   tuningError (PerformTune cl) =
     Z.lor (tuningError cl) TUNE_ERR_SYSTEM_ERROR \/
   tuningError (PerformTune cl) =
     Z.land (tuningError cl) (Z.lnot TUNE_ERR_NOT_DONE_BASIC)) /\
  driverMode (PerformTune cl) = driverMode cl /\
  encoder (PerformTune cl) = encoder cl.
Proof.
  assert (Hsub : forall x y,
             (y = x \/ y = Z.land x (Z.lnot BASIC_TUNING_MANOEUVRE) \/ y = 0) ->
             Z.land y (Z.lnot x) = 0).
  { intros x y [->|[->| ->]].
    - apply Z.land_lnot_diag.
    - apply land_clear_subset.
    - apply Z.land_0_l. }
  assert (Herr : PerformTune cl =
                 set_tuning 0
                   (set_tuningError
                      (Z.lor (tuningError cl) TUNE_ERR_SYSTEM_ERROR) cl) ->
          (tuning (PerformTune cl) = tuning cl \/
           tuning (PerformTune cl) =
             Z.land (tuning cl) (Z.lnot BASIC_TUNING_MANOEUVRE) \/
           tuning (PerformTune cl) = 0) /\
          Z.land (tuning (PerformTune cl)) (Z.lnot (tuning cl)) = 0 /\
          (tuningError (PerformTune cl) = tuningError cl \/
           tuningError (PerformTune cl) =
             Z.lor (tuningError cl) TUNE_ERR_SYSTEM_ERROR \/
           tuningError (PerformTune cl) =
             Z.land (tuningError cl) (Z.lnot TUNE_ERR_NOT_DONE_BASIC)) /\
          driverMode (PerformTune cl) = driverMode cl /\
          encoder (PerformTune cl) = encoder cl).
  { intros ->. cbn. split; [auto|]. split; [reflexivity|].
    split; [auto|]. split; reflexivity. }
  destruct (encoder cl) as [enc|] eqn:He;
    [|apply Herr; unfold PerformTune; rewrite He;
      destruct (DriverMode_eqb (driverMode cl) direct); reflexivity].
  destruct (driverMode cl) eqn:Hm;
    try (apply Herr; unfold PerformTune; rewrite He, Hm; reflexivity).
  clear Herr.
  rewrite (PerformTune_dispatch cl enc Hm He), <- He, <- Hm.
  destruct (has (tuning cl) BASIC_TUNING_MANOEUVRE).
  - cbv zeta.
    match goal with |- context [BasicTuning enc (newTuningMove ?c) ?c] =>
      assert (Hc : sameRequests cl c);
      [|destruct (BasicTuning_sameRequests enc (newTuningMove c) c)
          as [(Ht & Hte & Hd & Hen & _) _];
        destruct (fst (BasicTuning enc (newTuningMove c) c))] end.
    { unfold sameRequests.
      destruct (PositioningType enc);
        [destruct (has (tuning cl) ENCODER_CALIBRATION_MANOEUVRE)|];
        cbn; repeat split; reflexivity. }
    + destruct Hc as (Ht0 & Hte0 & Hd0 & Hen0 & _). cbn.
      rewrite Ht, Hte, Hd, Hen, Ht0, Hte0, Hd0, Hen0.
      split; [auto|]. split; [apply land_clear_subset|].
      split; [auto|]. split; reflexivity.
    + destruct Hc as (Ht0 & Hte0 & Hd0 & Hen0 & _). cbn.
      rewrite Ht, Hte, Hd, Hen, Ht0, Hte0, Hd0, Hen0.
      split; [auto|]. split; [apply Z.land_lnot_diag|].
      split; [auto|]. split; reflexivity.
  - destruct (has (tuning cl) ENCODER_CALIBRATION_MANOEUVRE).
    + cbv zeta.
      destruct (EncoderCalibration_sameRequests enc (newTuningMove cl) cl)
        as [(Ht & Hte & Hd & Hen & _) _].
      destruct (fst (EncoderCalibration enc (newTuningMove cl) cl)); cbn;
        rewrite ?Ht, Hte, Hd, Hen.
      * split; [auto|]. split; [reflexivity|].
        split; [auto|]. split; reflexivity.
      * split; [auto|]. split; [apply Z.land_lnot_diag|].
        split; [auto|]. split; reflexivity.
    + destruct (has (tuning cl) STEP_MANOEUVRE); cbn;
        (split; [auto|]; split; [reflexivity|];
         split; [auto|]; split; reflexivity).
Qed.

(** X11.  With direct drive and an encoder, a tick that leaves no request
    behind also leaves [newTuningMove] set, so the manoeuvre that runs for
    the next request is told it is on its first iteration; and a tick that
    leaves [newTuningMove] clear has kept the request mask as it was, and
    that mask is not empty. *)
Theorem PerformTune_rearms_when_idle (cl : t) (enc : Encoder) :
  driverMode cl = direct ->
  encoder cl = Some enc ->
  (tuning (PerformTune cl) = 0 -> newTuningMove (PerformTune cl) = true) /\
  (newTuningMove (PerformTune cl) = false ->
   tuning (PerformTune cl) = tuning cl /\ tuning cl <> 0).
Proof.
  intros Hm He. rewrite (PerformTune_dispatch cl enc Hm He).
  destruct (has (tuning cl) BASIC_TUNING_MANOEUVRE) eqn:HB.
  - cbv zeta.
    match goal with |- context [BasicTuning enc (newTuningMove ?c) ?c] =>
      assert (Hc : tuning c = tuning cl);
      [|destruct (BasicTuning_sameRequests enc (newTuningMove c) c)
          as [(Ht & _) _];
        destruct (fst (BasicTuning enc (newTuningMove c) c))] end.
    { destruct (PositioningType enc);
        [destruct (has (tuning cl) ENCODER_CALIBRATION_MANOEUVRE)|];
        reflexivity. }
    + cbn. split; [reflexivity | discriminate].
    + cbn. rewrite Ht, Hc. split.
      * intros E. exfalso. exact (has_nonzero _ _ HB E).
      * intros _. split; [reflexivity | exact (has_nonzero _ _ HB)].
  - destruct (has (tuning cl) ENCODER_CALIBRATION_MANOEUVRE) eqn:HC.
    + cbv zeta.
      destruct (EncoderCalibration_sameRequests enc (newTuningMove cl) cl)
        as [(Ht & _) _].
      destruct (fst (EncoderCalibration enc (newTuningMove cl) cl)); cbn.
      * split; [reflexivity | discriminate].
      * rewrite Ht. split.
        -- intros E. exfalso. exact (has_nonzero _ _ HC E).
        -- intros _. split; [reflexivity | exact (has_nonzero _ _ HC)].
    + destruct (has (tuning cl) STEP_MANOEUVRE); cbn;
        (split; [reflexivity | discriminate]).
Qed.

(** X12.  On a relative (quadrature) encoder there is no lookup table to
    fill: a request for encoder calibration alone, or together with any
    request of lower priority, is retired in one tick with no motor
    movement and no table access; all that changes is that the request
    mask is emptied and [newTuningMove] is set. *)
Theorem PerformTune_calibration_on_relative_encoder (cl : t) (enc : Encoder) :
  driverMode cl = direct ->
  encoder cl = Some enc ->
  PositioningType enc = relative ->
  has (tuning cl) BASIC_TUNING_MANOEUVRE = false ->
  has (tuning cl) ENCODER_CALIBRATION_MANOEUVRE = true ->
  PerformTune cl = set_tuning 0 (set_newTuningMove true cl) /\
  trace (PerformTune cl) = trace cl /\
  desiredStepPhase (PerformTune cl) = desiredStepPhase cl.
Proof.
  intros Hm He Hp HB HC.
  rewrite (PerformTune_dispatch cl enc Hm He), HB, HC.
  unfold EncoderCalibration. rewrite Hp. cbn.
  repeat split; reflexivity.
Qed.

End Dispatch.

Lemma PerformTune_rearms_witness :
  (tuning (PerformTune32 (requested 4 direct (Some countingEncoder) 0)) = 0 ->
   newTuningMove (PerformTune32 (requested 4 direct (Some countingEncoder) 0))
   = true) /\
  (newTuningMove (PerformTune32 (requested 4 direct (Some countingEncoder) 0))
   = false ->
   tuning (PerformTune32 (requested 4 direct (Some countingEncoder) 0))
   = tuning (requested 4 direct (Some countingEncoder) 0) /\
   tuning (requested 4 direct (Some countingEncoder) 0) <> 0).
Proof.
  apply (@PerformTune_rearms_when_idle binary32 env32
           (requested 4 direct (Some countingEncoder) 0) countingEncoder);
    reflexivity.
Defined.

Lemma PerformTune_relative_calibration_witness :
  PerformTune32 (requested 6 direct (Some relativeEncoder) 0)
  = set_tuning 0
      (set_newTuningMove true (requested 6 direct (Some relativeEncoder) 0)) /\
  trace (PerformTune32 (requested 6 direct (Some relativeEncoder) 0))
  = trace (requested 6 direct (Some relativeEncoder) 0) /\
  desiredStepPhase (PerformTune32 (requested 6 direct (Some relativeEncoder) 0))
  = desiredStepPhase (requested 6 direct (Some relativeEncoder) 0).
Proof.
  apply (@PerformTune_calibration_on_relative_encoder binary32 env32
           (requested 6 direct (Some relativeEncoder) 0) relativeEncoder);
    reflexivity.
Defined.

Section SweepTrace.
Context `{FO : FloatOps} `{TE : !TuningEnv}.
Variable enc : Encoder.

(** A settling call makes one move of the motor and no other call. *)
Lemma settle_trace rev cl :
  state (basicTuning cl) = settleState rev ->
  trace (snd (BasicTuning enc false cl))
  = SetMotorPhase (Int.u16 (desiredStepPhase cl + increment rev)) (F_of_Z 1)
    :: trace cl.
Proof.
  intros Hs. unfold BasicTuning. cbv iota beta. rewrite Hs.
  destruct rev; cbn [settleState snd]; unfold settle;
    match goal with |- context [if ?b then _ else _] => destruct b end;
    reflexivity.
Qed.

(** So does a collecting call that does not close the sweep. *)
Lemma collect_trace rev k r p0 cl :
  Collecting rev k (fun j => samples enc (r + j)%nat) p0 r cl ->
  (k < 512)%nat ->
  trace (snd (BasicTuning enc false cl))
  = SetMotorPhase (Int.u16 (desiredStepPhase cl + increment rev)) (F_of_Z 1)
    :: trace cl.
Proof.
  intros Hinv Hk.
  pose proof (collect_spec enc rev k r p0 cl Hinv) as Hc1. cbv zeta in Hc1.
  destruct Hc1 as (_ & Hc1 & _ & _ & _ & _ & Hd1 & _ & Ht1).
  destruct Hinv as (Hs & _).
  unfold BasicTuning. cbv iota beta. rewrite Hs.
  assert (Hne : (Z.of_nat k =? NumSamples) = false)
    by (apply Z.eqb_neq; change NumSamples with 512; lia).
  destruct rev; cbn [collectState]; rewrite Hc1, Hne;
    cbn [snd]; unfold set_state_counter, stepPhase;
    cbn [set_basicTuning trace emit set_desiredStepPhase];
    rewrite Hd1, Ht1; reflexivity.
Qed.

(** The call that closes a sweep saves the result, reports the end of the
    manoeuvre if the sweep was the reverse one, and does not move the
    motor. *)
Lemma closing_trace rev r p0 cl :
  Collecting rev 512 (fun j => samples enc (r + j)%nat) p0 r cl ->
  trace (snd (BasicTuning enc false cl))
  = sweepClose rev p0 (fun j => samples enc (r + j)%nat) ++ trace cl /\
  desiredStepPhase (snd (BasicTuning enc false cl)) = desiredStepPhase cl.
Proof.
  intros Hinv.
  pose proof (collect_spec enc rev 512 r p0 cl Hinv) as Hc1. cbv zeta in Hc1.
  destruct Hc1 as (_ & Hc1 & Hi1 & Hg1 & Ha1 & Hp1 & Hd1 & _ & Ht1).
  destruct Hinv as (Hs & _).
  unfold BasicTuning. cbv iota beta. rewrite Hs.
  destruct rev; cbn [collectState]; rewrite Hc1;
    change (Z.of_nat 512 =? NumSamples) with true; cbv iota; cbn [snd];
    unfold sweepClose, set_state_counter, saveResult, origin, yMean,
      xMean, slope, originOf, yMeanOf, xMeanOf, slopeOf;
    cbn [set_basicTuning trace emit desiredStepPhase app];
    rewrite Hg1, Ha1, Hp1, Hi1, Hd1, Ht1; split; reflexivity.
Qed.

Lemma u16_absorb (a b : Z) : Int.u16 (Int.u16 a + b) = Int.u16 (a + b).
Proof. apply u16_add_congr, u16_idem. Qed.

(** One call inside a sweep. *)
Lemma sweep_step rev p r tr0 k cl :
  Sweeping enc rev p r tr0 k cl -> (k < 520)%nat ->
  fst (BasicTuning enc false cl) = false /\
  Sweeping enc rev p r tr0 (S k) (snd (BasicTuning enc false cl)).
Proof.
  intros (Htr & Hset & Hcol) Hk.
  destruct (le_lt_dec 8 k) as [H8|H8].
  - specialize (Hcol (k - 8)%nat ltac:(lia)).
    destruct (collect_step enc rev (k - 8) r _ cl Hcol ltac:(lia))
      as (cl' & E & Hinv').
    pose proof (collect_trace rev (k - 8) r _ cl Hcol ltac:(lia)) as Ht.
    rewrite E in Ht |- *. cbn [fst snd] in Ht |- *.
    split; [reflexivity|]. split; [|split].
    + rewrite Ht, Htr. cbn [phaseMoves app]. f_equal. f_equal.
      destruct Hcol as (_ & _ & _ & _ & _ & _ & Hp & _).
      rewrite (u16_add_congr _ _ (increment rev) Hp).
      rewrite <- Z.add_assoc, u16_absorb. f_equal.
      replace (Z.of_nat (k - 8)) with (Z.of_nat k - 8) by lia.
      replace (Z.of_nat (S k)) with (Z.of_nat k + 1) by lia.
      ring.
    + intros; lia.
    + intros m Hm. replace m with (S (k - 8)) by lia. exact Hinv'.
  - specialize (Hset H8).
    pose proof (settle_trace rev cl (proj1 Hset)) as Ht.
    assert (Hph : Int.u16 (desiredStepPhase cl + increment rev)
                  = Int.u16 (p + increment rev * Z.of_nat (S k))).
    { destruct Hset as (_ & _ & Hp & _).
      rewrite (u16_add_congr _ _ (increment rev) Hp). f_equal.
      replace (Z.of_nat (S k)) with (Z.of_nat k + 1) by lia. ring. }
    destruct (Nat.eq_dec k 7%nat) as [->|Hne].
    + destruct (settle_last enc rev p r cl
                  (fun j => samples enc (r + j)%nat) Hset) as (cl' & E & Hinv').
      rewrite E in Ht |- *. cbn [fst snd] in Ht |- *.
      split; [reflexivity|]. split; [|split].
      * rewrite Ht, Htr, Hph. reflexivity.
      * intros; lia.
      * intros m Hm. replace m with O by lia. exact Hinv'.
    + destruct (settle_step enc rev k p r cl Hset ltac:(lia))
        as (cl' & E & Hinv').
      rewrite E in Ht |- *. cbn [fst snd] in Ht |- *.
      split; [reflexivity|]. split; [|split].
      * rewrite Ht, Htr, Hph. reflexivity.
      * intros _. exact Hinv'.
      * intros; lia.
Qed.

Lemma sweep_moves rev p r tr0 : forall (j k : nat) (cl : t),
  Sweeping enc rev p r tr0 k cl -> (k + j <= 520)%nat ->
  fst (BasicTuningSteps enc j false cl) = false /\
  Sweeping enc rev p r tr0 (k + j) (snd (BasicTuningSteps enc j false cl)).
Proof.
  induction j as [|j IH]; intros k cl Hinv Hk.
  - cbn [BasicTuningSteps fst snd]. rewrite Nat.add_0_r.
    split; [reflexivity | exact Hinv].
  - cbn [BasicTuningSteps].
    destruct (sweep_step rev p r tr0 k cl Hinv ltac:(lia)) as [Hf Hs].
    destruct (BasicTuning enc false cl) as [f c1].
    cbn [fst snd] in Hf, Hs. subst f.
    replace (k + S j)%nat with (S k + j)%nat by lia.
    apply IH; [exact Hs | lia].
Qed.

(** A whole sweep and the calls it makes. *)
Lemma sweep_trace rev p r cl :
  Settling rev 0 p r cl ->
  fst (BasicTuningSteps enc (520 + 1) false cl) = rev /\
  trace (snd (BasicTuningSteps enc (520 + 1) false cl))
  = sweepClose rev (Int.u16 (p + increment rev * 8))
      (fun j => samples enc (r + j)%nat)
    ++ phaseMoves p (increment rev) 520 ++ trace cl /\
  Int.u16 (desiredStepPhase (snd (BasicTuningSteps enc (520 + 1) false cl)))
  = Int.u16 (p + increment rev * 520) /\
  (rev = false ->
   Settling true 0 (Int.u16 (p + increment rev * 8) + 4096) (r + 513)
     (snd (BasicTuningSteps enc (520 + 1) false cl))).
Proof.
  intros Hinv.
  assert (H0 : Sweeping enc rev p r (trace cl) 0 cl).
  { split; [reflexivity|]. split; [intros _; exact Hinv | intros; lia]. }
  destruct (sweep_moves rev p r (trace cl) 520 0 cl H0 ltac:(lia))
    as (Hf & Htr & _ & Hcol).
  specialize (Hcol 512%nat eq_refl).
  rewrite BasicTuningSteps_app, Hf, BasicTuningSteps_one.
  destruct (collect_last enc rev r _ _ Hcol) as (cl' & E & _ & _ & _ & _ & Hn).
  destruct (closing_trace rev r _ _ Hcol) as [Ht Hd].
  rewrite E in Ht, Hd |- *. cbn [fst snd] in Ht, Hd |- *.
  split; [reflexivity|]. split; [|split].
  - rewrite Ht, Htr. reflexivity.
  - rewrite Hd.
    destruct Hcol as (_ & _ & _ & _ & _ & _ & Hp & _).
    rewrite Hp, u16_absorb. f_equal. lia.
  - exact Hn.
Qed.

End SweepTrace.

Section ManoeuvreTrace.
Context `{FO : FloatOps} `{TE : !TuningEnv}.

(** X15.  Everything a basic-tuning manoeuvre does to the outside, in
    order: it sets forward polarity, moves the motor 520 times by
    [PhaseIncrement] (8 settling moves and 512 between the 513 readings),
    saves the forward result, moves the motor 520 times back by
    [PhaseIncrement], saves the reverse result and reports the end of the
    manoeuvre; it makes no other call, every move is at full current, the
    two closing calls do not move the motor, and the motor ends on the
    phase it started from. *)
Theorem BasicTuning_outgoing_calls (enc : Encoder) (cl : t) :
  let r := encoderReads cl in
  let rdF := fun j => samples enc (r + j)%nat in
  let rdR := fun j => samples enc (r + 513 + j)%nat in
  let p := desiredStepPhase cl in
  let pF := Int.u16 (p + 64) in
  let pR := Int.u16 (pF + 4096 - 64) in
  let all := BasicTuningSteps enc (8 + 513 + (8 + 513)) true cl in
  trace (snd all)
  = FinishedBasicTuning
    :: SaveBasicTuningResult (slopeOf true rdR 513) (originOf true pR rdR 513)
         (xMeanOf true pR) true
    :: phaseMoves (pF + 4096) (- PhaseIncrement) 520
    ++ SaveBasicTuningResult (slopeOf false rdF 513)
         (originOf false pF rdF 513) (xMeanOf false pF) false
    :: phaseMoves p PhaseIncrement 520
    ++ SetForwardPolarity :: trace cl /\
  Int.u16 (desiredStepPhase (snd all)) = Int.u16 p.
Proof.
  cbv zeta.
  replace (8 + 513 + (8 + 513))%nat with (S (520 + (520 + 1)))%nat
    by reflexivity.
  rewrite BasicTuningSteps_first.
  replace (S (520 + (520 + 1)))%nat with ((520 + 1) + (520 + 1))%nat
    by reflexivity.
  rewrite BasicTuningSteps_app.
  destruct (sweep_trace enc false _ _ _ (Settling_start cl))
    as (Hf1 & Ht1 & Hp1 & Hn1).
  rewrite Hf1. specialize (Hn1 eq_refl).
  destruct (sweep_trace enc true _ _ _ Hn1) as (Hf2 & Ht2 & Hp2 & _).
  split.
  - rewrite Ht2, Ht1. unfold sweepClose. cbn [app].
    replace (Int.u16 (desiredStepPhase cl + increment false * 8))
      with (Int.u16 (desiredStepPhase cl + 64)) by reflexivity.
    replace (Int.u16 (Int.u16 (desiredStepPhase cl + 64) + 4096
                      + increment true * 8))
      with (Int.u16 (Int.u16 (desiredStepPhase cl + 64) + 4096 - 64))
      by (f_equal; unfold increment, PhaseIncrement; lia).
    reflexivity.
  - rewrite Hp2.
    change (increment false * 8) with 64.
    change (increment true * 520) with (-4160).
    replace (Int.u16 (desiredStepPhase cl + 64) + 4096 + -4160)
      with (Int.u16 (desiredStepPhase cl + 64) + (-64)) by lia.
    rewrite u16_absorb. f_equal. lia.
Qed.

End ManoeuvreTrace.

Section Calibration.
Context `{FO : FloatOps} `{TE : !TuningEnv}.
Variable enc : Encoder.
Hypothesis Habs : PositioningType enc = absolute.
Hypothesis Hres : 0 < LUTResolution enc.
Hypothesis Hfit : MaxValue enc + LUTResolution enc <= 2 ^ 31.

Lemma s32_small (x : Z) : - 2 ^ 31 <= x < 2 ^ 31 -> Int.s32 x = x.
Proof.
  intros H. unfold Int.s32, Int.wrap_s.
  change (2 ^ (32 - 1)) with (2 ^ 31). change (2 ^ 32) with (2 * 2 ^ 31).
  rewrite Z.mod_small; lia.
Qed.

Lemma u32_small (x : Z) : 0 <= x < 2 ^ 32 -> Int.u32 x = x.
Proof. intros H. unfold Int.u32, Int.wrap_u. apply Z.mod_small. exact H. Qed.

(** One call of [EncoderCalibration] past its first, with bucket [k] as
    the target. *)
Lemma EncoderCalibration_bucket (c : t) (k : nat) :
  targetPosition (encoderCalibration c) = Z.of_nat k * LUTResolution enc ->
  Z.of_nat k * LUTResolution enc < MaxValue enc ->
  (currentEncoderReading c <> Z.of_nat k * LUTResolution enc ->
   fst (EncoderCalibration enc false c) = false /\
   targetPosition (encoderCalibration (snd (EncoderCalibration enc false c)))
   = Z.of_nat k * LUTResolution enc /\
   lutStores (trace (snd (EncoderCalibration enc false c)))
   = lutStores (trace c) /\
   lutPersisted (trace (snd (EncoderCalibration enc false c)))
   = lutPersisted (trace c)) /\
  (currentEncoderReading c = Z.of_nat k * LUTResolution enc ->
   fst (EncoderCalibration enc false c)
   = (MaxValue enc <=? Z.of_nat (S k) * LUTResolution enc) /\
   targetPosition (encoderCalibration (snd (EncoderCalibration enc false c)))
   = Z.of_nat (S k) * LUTResolution enc /\
   lutStores (trace (snd (EncoderCalibration enc false c)))
   = Z.of_nat k * LUTResolution enc :: lutStores (trace c) /\
   lutPersisted (trace (snd (EncoderCalibration enc false c)))
   = ((MaxValue enc <=? Z.of_nat (S k) * LUTResolution enc)
      || lutPersisted (trace c))).
Proof.
  intros Htp Hlt.
  assert (Hk : 0 <= Z.of_nat k * LUTResolution enc) by nia.
  unfold EncoderCalibration. rewrite Habs. cbv zeta. rewrite Htp.
  rewrite (Z.gtb_ltb (currentEncoderReading c)).
  split.
  - intros Hne.
    assert (Hu : (Int.u32 (Z.of_nat k * LUTResolution enc) >=? MaxValue enc)
                 = false).
    { rewrite u32_small by lia. rewrite Z.geb_leb. apply Z.leb_gt. lia. }
    destruct (Z.ltb_spec (currentEncoderReading c)
                (Z.of_nat k * LUTResolution enc)) as [H1|H1].
    + cbn [set_target_counter set_encoderCalibration encoderCalibration
           targetPosition]. rewrite Hu. cbn. auto.
    + destruct (Z.ltb_spec (Z.of_nat k * LUTResolution enc)
                  (currentEncoderReading c)) as [H2|H2]; [|lia].
      cbn [set_target_counter set_encoderCalibration encoderCalibration
           targetPosition]. rewrite Hu. cbn. auto.
  - intros Heq. rewrite Heq, Z.ltb_irrefl.
    cbn [set_target_counter set_encoderCalibration encoderCalibration
         targetPosition].
    assert (Hn : Z.of_nat k * LUTResolution enc + LUTResolution enc
                 = Z.of_nat (S k) * LUTResolution enc) by lia.
    rewrite s32_small by lia. rewrite u32_small by lia.
    rewrite Z.geb_leb, Hn.
    destruct (MaxValue enc <=? Z.of_nat (S k) * LUTResolution enc); cbn; auto.
Qed.

(** What the dispatcher makes of that call. *)
Lemma calibration_result (req : Z) (k : nat) (c : t) :
  driverMode c = direct -> encoder c = Some enc -> tuning c = req ->
  targetPosition (encoderCalibration c) = Z.of_nat k * LUTResolution enc ->
  Z.of_nat k * LUTResolution enc < MaxValue enc ->
  lutStores (trace c) = buckets (LUTResolution enc) k ->
  lutPersisted (trace c) = false ->
  forall c',
  c' = (if fst (EncoderCalibration enc false c)
        then set_tuning 0
               (set_newTuningMove (fst (EncoderCalibration enc false c))
                  (snd (EncoderCalibration enc false c)))
        else set_newTuningMove (fst (EncoderCalibration enc false c))
               (snd (EncoderCalibration enc false c))) ->
  (currentEncoderReading c <> Z.of_nat k * LUTResolution enc ->
   Calibrating enc req k c') /\
  (currentEncoderReading c = Z.of_nat k * LUTResolution enc ->
   if MaxValue enc <=? Z.of_nat (S k) * LUTResolution enc
   then Calibrated enc (S k) c' else Calibrating enc req (S k) c').
Proof.
  intros Hm He Ht Htp Hlt Hst Hps c' ->.
  destruct (EncoderCalibration_bucket c k Htp Hlt) as [Hne Heq].
  destruct (EncoderCalibration_sameRequests enc false c)
    as [(Ht' & _ & Hm' & He' & _) _].
  split.
  - intros H. destruct (Hne H) as (Hf & Htp' & Hst' & Hps').
    rewrite Hf. unfold Calibrating. cbn.
    rewrite Hm', He', Ht', Htp', Hst', Hps'.
    split; [exact Hm|]. split; [exact He|]. split; [exact Ht|].
    split; [reflexivity|]. split; [reflexivity|]. split; [exact Hlt|].
    split; [exact Hst | exact Hps].
  - intros H. destruct (Heq H) as (Hf & Htp' & Hst' & Hps').
    rewrite Hf.
    destruct (Z.leb_spec (MaxValue enc) (Z.of_nat (S k) * LUTResolution enc))
      as [Hge|Hge].
    + unfold Calibrated. cbn.
      rewrite Hm', He', Hst', Hps', Hst.
      split; [exact Hm|]. split; [exact He|]. split; [reflexivity|].
      split; [reflexivity|]. split; [lia|]. split; reflexivity.
    + unfold Calibrating. cbn.
      rewrite Hm', He', Ht', Htp', Hst', Hps', Hst.
      split; [exact Hm|]. split; [exact He|]. split; [exact Ht|].
      split; [reflexivity|]. split; [reflexivity|]. split; [exact Hge|].
      split; [reflexivity | exact Hps].
Qed.

Variable req : Z.
Hypothesis HB : has req BASIC_TUNING_MANOEUVRE = false.
Hypothesis HC : has req ENCODER_CALIBRATION_MANOEUVRE = true.

(** The first tick of a calibration request. *)
Lemma calibration_first_tick (cl : t) (r : Z) :
  driverMode cl = direct -> encoder cl = Some enc -> tuning cl = req ->
  newTuningMove cl = true ->
  0 < MaxValue enc ->
  (r <> 0 ->
   Calibrating enc req 0 (PerformTune (set_currentEncoderReading r cl))) /\
  (r = 0 ->
   if MaxValue enc <=? Z.of_nat 1 * LUTResolution enc
   then Calibrated enc 1 (PerformTune (set_currentEncoderReading r cl))
   else Calibrating enc req 1 (PerformTune (set_currentEncoderReading r cl))).
Proof.
  intros Hm He Ht Hn Hmax.
  pose proof (calibration_result req 0
                (set_target_counter 0 0
                   (emit ClearLUT (set_currentEncoderReading r cl)))
                Hm He Ht eq_refl Hmax eq_refl eq_refl
                (PerformTune (set_currentEncoderReading r cl))) as H.
  cbn [currentEncoderReading set_target_counter set_encoderCalibration emit
       set_currentEncoderReading Z.of_nat Z.mul] in H.
  apply H. clear H.
  rewrite (PerformTune_dispatch (set_currentEncoderReading r cl) enc Hm He).
  cbn [tuning newTuningMove set_currentEncoderReading].
  rewrite Ht, HB, HC, Hn. cbv zeta.
  replace (EncoderCalibration enc true (set_currentEncoderReading r cl))
    with (EncoderCalibration enc false
            (set_target_counter 0 0
               (emit ClearLUT (set_currentEncoderReading r cl))));
    [reflexivity|].
  unfold EncoderCalibration. rewrite Habs. reflexivity.
Qed.

(** Every later tick while the table is being filled. *)
Lemma calibration_tick (cl : t) (k : nat) (r : Z) :
  Calibrating enc req k cl ->
  (r <> Z.of_nat k * LUTResolution enc ->
   Calibrating enc req k (PerformTune (set_currentEncoderReading r cl))) /\
  (r = Z.of_nat k * LUTResolution enc ->
   if MaxValue enc <=? Z.of_nat (S k) * LUTResolution enc
   then Calibrated enc (S k) (PerformTune (set_currentEncoderReading r cl))
   else Calibrating enc req (S k)
          (PerformTune (set_currentEncoderReading r cl))).
Proof.
  intros (Hm & He & Ht & Hn & Htp & Hlt & Hst & Hps).
  pose proof (calibration_result req k (set_currentEncoderReading r cl)
                Hm He Ht Htp Hlt Hst Hps
                (PerformTune (set_currentEncoderReading r cl))) as H.
  cbn [currentEncoderReading set_currentEncoderReading] in H.
  apply H. clear H.
  rewrite (PerformTune_dispatch (set_currentEncoderReading r cl) enc Hm He).
  cbn [tuning newTuningMove set_currentEncoderReading].
  rewrite Ht, HB, HC, Hn. reflexivity.
Qed.

(** Ticks after the calibration has finished change nothing of it. *)
Lemma calibrated_tick (cl : t) (k : nat) (r : Z) :
  Calibrated enc k cl ->
  Calibrated enc k (PerformTune (set_currentEncoderReading r cl)).
Proof.
  intros (Hm & He & Ht & Hn & Hb & Hst & Hps).
  rewrite (PerformTune_dispatch (set_currentEncoderReading r cl) enc Hm He).
  cbn [tuning newTuningMove set_currentEncoderReading].
  rewrite Ht. unfold has. rewrite !Z.land_0_l. cbn [Z.eqb negb].
  unfold Calibrated. cbn.
  split; [exact Hm|]. split; [exact He|]. split; [reflexivity|].
  split; [reflexivity|]. split; [exact Hb|]. split; [exact Hst | exact Hps].
Qed.

Lemma calibration_run (rs : list Z) : forall (cl : t) (k : nat),
  Calibrating enc req k cl \/ Calibrated enc k cl ->
  exists k', (k <= k' <= k + length rs)%nat /\
    (Calibrating enc req k' (ticksReading rs cl) \/
     Calibrated enc k' (ticksReading rs cl)).
Proof.
  induction rs as [|r rs IH]; intros cl k H.
  - exists k. cbn. split; [lia | exact H].
  - cbn [ticksReading length].
    destruct H as [H|H].
    + destruct (calibration_tick cl k r H) as [Hne Heq].
      destruct (Z.eq_dec r (Z.of_nat k * LUTResolution enc)) as [E|E].
      * specialize (Heq E).
        destruct (MaxValue enc <=? Z.of_nat (S k) * LUTResolution enc).
        -- destruct (IH _ (S k) (or_intror Heq)) as (k' & Hk & Hk').
           exists k'. split; [lia | exact Hk'].
        -- destruct (IH _ (S k) (or_introl Heq)) as (k' & Hk & Hk').
           exists k'. split; [lia | exact Hk'].
      * destruct (IH _ k (or_introl (Hne E))) as (k' & Hk & Hk').
        exists k'. split; [lia | exact Hk'].
    + destruct (IH _ k (or_intror (calibrated_tick cl k r H)))
        as (k' & Hk & Hk').
      exists k'. split; [lia | exact Hk'].
Qed.

Lemma ticksReading_app (a b : list Z) : forall cl : t,
  ticksReading (a ++ b) cl = ticksReading b (ticksReading a cl).
Proof.
  induction a as [|r a IH]; intros cl; [reflexivity|].
  cbn [app ticksReading]. apply IH.
Qed.

(** Readings that sit on the target at every tick walk through the
    buckets one per tick. *)
Lemma calibration_ideal_run (cl : t) (m : nat) :
  driverMode cl = direct -> encoder cl = Some enc -> tuning cl = req ->
  newTuningMove cl = true ->
  Z.of_nat (S m) * LUTResolution enc < MaxValue enc ->
  Calibrating enc req (S m)
    (ticksReading (rev (buckets (LUTResolution enc) (S m))) cl).
Proof.
  intros Hm He Ht Hn. induction m as [|m IH]; intros Hlt.
  - cbn [buckets rev app ticksReading Z.of_nat Z.mul].
    destruct (calibration_first_tick cl 0 Hm He Ht Hn ltac:(lia)) as [_ H].
    specialize (H eq_refl).
    destruct (Z.leb_spec (MaxValue enc) (Z.of_nat 1 * LUTResolution enc));
      [lia | exact H].
  - change (buckets (LUTResolution enc) (S (S m)))
      with (Z.of_nat (S m) * LUTResolution enc
            :: buckets (LUTResolution enc) (S m)).
    cbn [rev]. rewrite ticksReading_app. cbn [ticksReading].
    destruct (calibration_tick _ (S m) (Z.of_nat (S m) * LUTResolution enc)
                (IH ltac:(lia))) as [_ H].
    specialize (H eq_refl).
    destruct (Z.leb_spec (MaxValue enc)
                (Z.of_nat (S (S m)) * LUTResolution enc));
      [lia | exact H].
Qed.

End Calibration.

Section CalibrationRuns.
Context `{FO : FloatOps} `{TE : !TuningEnv}.

(** X13.  Filling the lookup table of an absolute encoder, whatever the
    encoder reads from tick to tick: after any number of ticks of a
    request for encoder calibration (without basic tuning), the readings
    stored since the table was cleared are exactly the bucket positions
    [0, res, 2 res, ...] in order, with none skipped and none stored
    twice, at most one per tick; while the request stands the next target
    is the first bucket not yet stored and the table has not been
    persisted; once the request is retired the buckets cover the whole
    range of the encoder, the table has been persisted, and
    [newTuningMove] is set again. *)
Theorem PerformTune_calibration_fills_table
    (enc : Encoder) (cl : t) (r : Z) (rs : list Z) :
  PositioningType enc = absolute ->
  0 < LUTResolution enc ->
  0 < MaxValue enc ->
  MaxValue enc + LUTResolution enc <= 2 ^ 31 ->
  driverMode cl = direct ->
  encoder cl = Some enc ->
  has (tuning cl) BASIC_TUNING_MANOEUVRE = false ->
  has (tuning cl) ENCODER_CALIBRATION_MANOEUVRE = true ->
  newTuningMove cl = true ->
  exists k : nat, (k <= length (r :: rs))%nat /\
    (Calibrating enc (tuning cl) k (ticksReading (r :: rs) cl) \/
     Calibrated enc k (ticksReading (r :: rs) cl)).
Proof.
  intros Habs Hres Hmax Hfit Hm He HB HC Hn.
  cbn [ticksReading length].
  destruct (calibration_first_tick enc Habs Hres Hfit (tuning cl) HB HC
              cl r Hm He eq_refl Hn Hmax) as [Hne Heq].
  destruct (Z.eq_dec r 0) as [E|E].
  - specialize (Heq E).
    destruct (MaxValue enc <=? Z.of_nat 1 * LUTResolution enc).
    + destruct (calibration_run enc Habs Hres Hfit (tuning cl) HB HC rs _ 1%nat
                  (or_intror Heq)) as (k' & Hk & Hk').
      exists k'. split; [lia | exact Hk'].
    + destruct (calibration_run enc Habs Hres Hfit (tuning cl) HB HC rs _ 1%nat
                  (or_introl Heq)) as (k' & Hk & Hk').
      exists k'. split; [lia | exact Hk'].
  - destruct (calibration_run enc Habs Hres Hfit (tuning cl) HB HC rs _ 0%nat
                (or_introl (Hne E))) as (k' & Hk & Hk').
    exists k'. split; [lia | exact Hk'].
Qed.

(** X14.  The calibration terminates when the motor follows: if the
    encoder reads the target at every tick, so the readings are
    [0, res, ..., (n - 1) res] with [n] the number of buckets needed to
    cover the encoder's range, the request is retired at tick [n] with all
    [n] buckets stored and the table persisted. *)
Theorem PerformTune_calibration_completes
    (enc : Encoder) (cl : t) (n : nat) :
  PositioningType enc = absolute ->
  0 < LUTResolution enc ->
  MaxValue enc + LUTResolution enc <= 2 ^ 31 ->
  driverMode cl = direct ->
  encoder cl = Some enc ->
  has (tuning cl) BASIC_TUNING_MANOEUVRE = false ->
  has (tuning cl) ENCODER_CALIBRATION_MANOEUVRE = true ->
  newTuningMove cl = true ->
  Z.of_nat n * LUTResolution enc < MaxValue enc
    <= Z.of_nat (S n) * LUTResolution enc ->
  Calibrated enc (S n)
    (ticksReading (rev (buckets (LUTResolution enc) (S n))) cl).
Proof.
  intros Habs Hres Hfit Hm He HB HC Hn [Hlo Hhi].
  destruct n as [|m].
  - cbn [buckets rev app ticksReading Z.of_nat Z.mul].
    destruct (calibration_first_tick enc Habs Hres Hfit (tuning cl) HB HC
                cl 0 Hm He eq_refl Hn ltac:(lia)) as [_ H].
    specialize (H eq_refl).
    destruct (Z.leb_spec (MaxValue enc) (Z.of_nat 1 * LUTResolution enc));
      [exact H | lia].
  - change (buckets (LUTResolution enc) (S (S m)))
      with (Z.of_nat (S m) * LUTResolution enc
            :: buckets (LUTResolution enc) (S m)).
    cbn [rev]. rewrite ticksReading_app. cbn [ticksReading].
    destruct (calibration_tick enc Habs Hres Hfit (tuning cl) HB HC
                _ (S m) (Z.of_nat (S m) * LUTResolution enc)
                (calibration_ideal_run enc Habs Hres Hfit (tuning cl) HB HC
                   cl m Hm He eq_refl Hn Hlo)) as [_ H].
    specialize (H eq_refl).
    destruct (Z.leb_spec (MaxValue enc)
                (Z.of_nat (S (S m)) * LUTResolution enc));
      [exact H | lia].
Qed.

(** [PerformTune] never touches the drive mode or the encoder. *)
Lemma PerformTune_frame (cl : t) :
  driverMode (PerformTune cl) = driverMode cl /\
  encoder (PerformTune cl) = encoder cl.
Proof.
  assert (Herr : PerformTune cl =
                 set_tuning 0
                   (set_tuningError
                      (Z.lor (tuningError cl) TUNE_ERR_SYSTEM_ERROR) cl) ->
                 driverMode (PerformTune cl) = driverMode cl /\
                 encoder (PerformTune cl) = encoder cl)
    by (intros ->; split; reflexivity).
  destruct (encoder cl) as [enc|] eqn:He;
    [|apply Herr; unfold PerformTune; rewrite He;
      destruct (DriverMode_eqb (driverMode cl) direct); reflexivity].
  destruct (driverMode cl) eqn:Hm;
    try (apply Herr; unfold PerformTune; rewrite He, Hm; reflexivity).
  clear Herr.
  rewrite (PerformTune_dispatch cl enc Hm He), <- He, <- Hm.
  destruct (has (tuning cl) BASIC_TUNING_MANOEUVRE).
  - cbv zeta.
    match goal with |- context [BasicTuning enc (newTuningMove ?c) ?c] =>
      assert (Hc : driverMode c = driverMode cl /\ encoder c = encoder cl);
      [|destruct (BasicTuning_sameRequests enc (newTuningMove c) c)
          as [(_ & _ & Hd & Hen & _) _];
        destruct (fst (BasicTuning enc (newTuningMove c) c))] end.
    { destruct (PositioningType enc);
        [destruct (has (tuning cl) ENCODER_CALIBRATION_MANOEUVRE)|];
        split; reflexivity. }
    + cbn. rewrite Hd, Hen. exact Hc.
    + cbn. rewrite Hd, Hen. exact Hc.
  - destruct (has (tuning cl) ENCODER_CALIBRATION_MANOEUVRE).
    + cbv zeta.
      destruct (EncoderCalibration_sameRequests enc (newTuningMove cl) cl)
        as [(_ & _ & Hd & Hen & _) _].
      destruct (fst (EncoderCalibration enc (newTuningMove cl) cl)); cbn;
        rewrite Hd, Hen; split; reflexivity.
    + destruct (has (tuning cl) STEP_MANOEUVRE); cbn; split; reflexivity.
Qed.

Lemma ticks_frame (n : nat) : forall cl : t,
  driverMode (ticks n cl) = driverMode cl /\
  encoder (ticks n cl) = encoder cl.
Proof.
  induction n as [|n IH]; intros cl; [split; reflexivity|].
  cbn [ticks]. destruct (IH (PerformTune cl)) as [Hd He].
  destruct (PerformTune_frame cl) as [Hd' He'].
  rewrite Hd, He. split; assumption.
Qed.

(** Where a fresh basic-tuning request leaves the dispatcher. *)
Lemma after_basic_tuning (enc : Encoder) (cl : t) :
  driverMode cl = direct ->
  encoder cl = Some enc ->
  has (tuning cl) BASIC_TUNING_MANOEUVRE = true ->
  newTuningMove cl = true ->
  driverMode (ticks 1042 cl) = direct /\
  encoder (ticks 1042 cl) = Some enc /\
  newTuningMove (ticks 1042 cl) = true /\
  tuning (ticks 1042 cl) = Z.land (tuning cl) (Z.lnot BASIC_TUNING_MANOEUVRE).
Proof.
  intros Hm He Hb Hn.
  destruct (ticks_basic_tuning_completes enc cl Hm He Hb Hn)
    as (_ & Hn' & Ht' & _).
  destruct (ticks_frame 1042 cl) as [Hd' He'].
  rewrite Hd', He'. auto.
Qed.

(** A calibration request picked up with [newTuningMove] set. *)
Lemma calibration_from_fresh (enc : Encoder) (req : Z) (c : t)
    (r : Z) (rs : list Z) :
  PositioningType enc = absolute ->
  0 < LUTResolution enc ->
  0 < MaxValue enc ->
  MaxValue enc + LUTResolution enc <= 2 ^ 31 ->
  has req BASIC_TUNING_MANOEUVRE = false ->
  has req ENCODER_CALIBRATION_MANOEUVRE = true ->
  driverMode c = direct ->
  encoder c = Some enc ->
  tuning c = req ->
  newTuningMove c = true ->
  exists k : nat, (k <= length (r :: rs))%nat /\
    (Calibrating enc req k (ticksReading (r :: rs) c) \/
     Calibrated enc k (ticksReading (r :: rs) c)).
Proof.
  intros Habs Hres Hmax Hfit HB HC Hm He Ht Hn.
  cbn [ticksReading length].
  destruct (calibration_first_tick enc Habs Hres Hfit req HB HC
              c r Hm He Ht Hn Hmax) as [Hne Heq].
  destruct (Z.eq_dec r 0) as [E|E].
  - specialize (Heq E).
    destruct (MaxValue enc <=? Z.of_nat 1 * LUTResolution enc).
    + destruct (calibration_run enc Habs Hres Hfit req HB HC rs _ 1%nat
                  (or_intror Heq)) as (k' & Hk & Hk').
      exists k'. split; [lia | exact Hk'].
    + destruct (calibration_run enc Habs Hres Hfit req HB HC rs _ 1%nat
                  (or_introl Heq)) as (k' & Hk & Hk').
      exists k'. split; [lia | exact Hk'].
  - destruct (calibration_run enc Habs Hres Hfit req HB HC rs _ 0%nat
                (or_introl (Hne E))) as (k' & Hk & Hk').
    exists k'. split; [lia | exact Hk'].
Qed.

(** X16.  Basic tuning and encoder calibration requested together on an
    absolute encoder: once basic tuning has retired its bit at tick 1042,
    the calibration starts from scratch on the next tick and then fills the
    table as it does on its own, whatever the encoder reads; the table
    holds the buckets in order, the request that stands meanwhile is the
    original one without the basic-tuning bit, and when the calibration is
    done the request mask is empty. *)
Theorem PerformTune_calibration_follows_basic_tuning
    (enc : Encoder) (cl : t) (r : Z) (rs : list Z) :
  PositioningType enc = absolute ->
  0 < LUTResolution enc ->
  0 < MaxValue enc ->
  MaxValue enc + LUTResolution enc <= 2 ^ 31 ->
  driverMode cl = direct ->
  encoder cl = Some enc ->
  Z.land BASIC_TUNING_MANOEUVRE ENCODER_CALIBRATION_MANOEUVRE = 0 ->
  has (tuning cl) BASIC_TUNING_MANOEUVRE = true ->
  has (tuning cl) ENCODER_CALIBRATION_MANOEUVRE = true ->
  newTuningMove cl = true ->
  exists k : nat, (k <= length (r :: rs))%nat /\
    (Calibrating enc (Z.land (tuning cl) (Z.lnot BASIC_TUNING_MANOEUVRE)) k
       (ticksReading (r :: rs) (ticks 1042 cl)) \/
     Calibrated enc k (ticksReading (r :: rs) (ticks 1042 cl))).
Proof.
  intros Habs Hres Hmax Hfit Hm He Hd HB HC Hn.
  destruct (after_basic_tuning enc cl Hm He HB Hn) as (Hm' & He' & Hn' & Ht').
  destruct (has_after_clearing (tuning cl) _ _ Hd) as [HC' HB'].
  rewrite HC in HC'.
  exact (calibration_from_fresh enc _ (ticks 1042 cl) r rs
           Habs Hres Hmax Hfit HB' HC' Hm' He' Ht' Hn').
Qed.

End CalibrationRuns.

Lemma PerformTune_calibration_follows_witness :
  exists k : nat, (k <= length [0; 16; 32])%nat /\
    (Calibrating coarseEncoder
       (Z.land (tuning (requested 3 direct (Some coarseEncoder) 0))
          (Z.lnot (@BASIC_TUNING_MANOEUVRE binary32 env32))) k
       (@ticksReading binary32 env32 [0; 16; 32]
          (@ticks binary32 env32 1042
             (requested 3 direct (Some coarseEncoder) 0))) \/
     Calibrated coarseEncoder k
       (@ticksReading binary32 env32 [0; 16; 32]
          (@ticks binary32 env32 1042
             (requested 3 direct (Some coarseEncoder) 0)))).
Proof.
  apply (@PerformTune_calibration_follows_basic_tuning binary32 env32
           coarseEncoder (requested 3 direct (Some coarseEncoder) 0)
           0 [16; 32]);
    try reflexivity; cbn; lia.
Defined.

Lemma PerformTune_calibration_fills_witness :
  exists k : nat, (k <= length [0; 7; 16; 3])%nat /\
    (Calibrating coarseEncoder
       (tuning (requested 2 direct (Some coarseEncoder) 0)) k
       (@ticksReading binary32 env32 [0; 7; 16; 3]
          (requested 2 direct (Some coarseEncoder) 0)) \/
     Calibrated coarseEncoder k
       (@ticksReading binary32 env32 [0; 7; 16; 3]
          (requested 2 direct (Some coarseEncoder) 0))).
Proof.
  apply (@PerformTune_calibration_fills_table binary32 env32 coarseEncoder
           (requested 2 direct (Some coarseEncoder) 0) 0 [7; 16; 3]);
    try reflexivity; cbn; lia.
Defined.

Lemma PerformTune_calibration_completes_witness :
  Calibrated coarseEncoder 3
    (@ticksReading binary32 env32 (rev (buckets 16 3))
       (requested 2 direct (Some coarseEncoder) 0)).
Proof.
  apply (@PerformTune_calibration_completes binary32 env32 coarseEncoder
           (requested 2 direct (Some coarseEncoder) 0) 2);
    try reflexivity; cbn; lia.
Defined.

End TuningFacts.

(* ===================================================================== *)
(** * Further properties: LinearAnalogSensor *)
(* ===================================================================== *)

Module SensorFacts.
Import LinearAnalogSensor Inputs.

Section Generic.
Context `{FO : FloatOps}.
Variable AdcBits : Z.

Lemma CalcDerivedParameters_consistent (idx : Z) (s : t) :
  Consistent AdcBits (CalcDerivedParameters AdcBits idx s).
Proof.
  unfold Consistent, CalcDerivedParameters. cbn. split; [|reflexivity].
  destruct (Z.ltb_spec idx 0); [discriminate | intros _; lia].
Qed.

Lemma Configure_consistent cp idx parser (s : t) :
  Consistent AdcBits s ->
  Consistent AdcBits (sensor (Configure AdcBits cp idx parser s)).
Proof.
  intros Hs. unfold Configure. destruct cp as [portOk seen].
  destruct portOk; cbn [negb]; [|exact Hs].
  destruct (paramB parser), (paramC parser), (paramF parser), seen;
    cbv iota beta;
    try (match goal with
         |- context [adcFilterChannel (CalcDerivedParameters ?b ?i ?x) >=? 0] =>
           destruct (adcFilterChannel (CalcDerivedParameters b i x) >=? 0);
           [|destruct (filtered x)]; cbn [sensor];
           apply CalcDerivedParameters_consistent
         end);
    exact Hs.
Qed.

(** X17.  The derived members never go stale: after construction and any
    sequence of [Configure] calls, successful or not, a filtered sensor has
    a filter channel and [linearIncreasePerCount] is the slope that belongs
    to the current [lowTemp], [highTemp] and [filtered]; so the channel
    test in [Poll] is redundant and [Poll] consults the averaging filter
    exactly when [filtered] is set. *)
Theorem sensor_derived_members_stay_consistent
    (DefaultLowTemp DefaultHighTemp uninitialised : F) (idx0 : Z)
    (cs : list (bool * bool * Z * Parser)) :
  let s := fold_left (reconfigure AdcBits) cs
             (construct AdcBits DefaultLowTemp DefaultHighTemp idx0
                uninitialised) in
  Consistent AdcBits s /\
  filtered s && (adcFilterChannel s >=? 0) = filtered s.
Proof.
  cbv zeta.
  assert (H : Consistent AdcBits
                (fold_left (reconfigure AdcBits) cs
                   (construct AdcBits DefaultLowTemp DefaultHighTemp idx0
                      uninitialised))).
  { generalize (CalcDerivedParameters_consistent idx0
                  {| lowTemp := DefaultLowTemp; highTemp := DefaultHighTemp;
                     filtered := true; adcFilterChannel := -1;
                     linearIncreasePerCount := uninitialised |}).
    fold (construct AdcBits DefaultLowTemp DefaultHighTemp idx0 uninitialised).
    generalize (construct AdcBits DefaultLowTemp DefaultHighTemp idx0
                  uninitialised).
    induction cs as [|[[cp idx] parser] cs IH]; intros s Hs; [exact Hs|].
    cbn [fold_left reconfigure]. apply IH.
    apply Configure_consistent. exact Hs. }
  split; [exact H|].
  destruct H as [Hch _].
  destruct (filtered _); [|reflexivity].
  specialize (Hch eq_refl). cbn [andb].
  apply Z.geb_le. lia.
Qed.

(** X18.  What [Configure] returns and does, by case: it fails exactly
    when [ConfigurePort] fails, and then leaves the sensor alone; it warns
    exactly when something was configured, filtering is wanted (by the F
    parameter, or else by the setting in force) and the port has no filter
    channel, and that is when it writes the not-supported reply; it
    re-initialises the averaging filter exactly when something was
    configured and the port has a filter channel; with nothing configured
    it only reports the settings; with something configured the sensor
    takes the given parameters, keeps the others, and is filtered exactly
    when filtering is wanted and the port has a channel. *)
Theorem Configure_outcome (ConfigurePort : bool * bool) (idx : Z)
    (parser : Parser) (s : t) :
  let out := Configure AdcBits ConfigurePort idx parser s in
  let seen := snd ConfigurePort || given (paramB parser)
              || given (paramC parser) || given (paramF parser) in
  let wanted := orElse (paramF parser) (filtered s) in
  (code out = error <-> fst ConfigurePort = false) /\
  (fst ConfigurePort = false ->
   sensor out = s /\ reply out = NoReply /\ filterInit out = None) /\
  (code out = warning <->
   fst ConfigurePort = true /\ seen = true /\ idx < 0 /\ wanted = true) /\
  (reply out = FilteringNotSupported <-> code out = warning) /\
  filterInit out
  = (if fst ConfigurePort && seen && (0 <=? idx) then Some idx else None) /\
  (fst ConfigurePort = true -> seen = false ->
   sensor out = s /\
   reply out = Details (filtered s) (lowTemp s) (highTemp s)) /\
  (fst ConfigurePort = true -> seen = true ->
   lowTemp (sensor out) = orElse (paramB parser) (lowTemp s) /\
   highTemp (sensor out) = orElse (paramC parser) (highTemp s) /\
   filtered (sensor out) = wanted && (0 <=? idx) /\
   adcFilterChannel (sensor out) = idx).
Proof.
  cbv zeta. unfold Configure, CalcDerivedParameters.
  destruct ConfigurePort as [portOk seen0].
  destruct portOk, seen0, (paramB parser), (paramC parser), (paramF parser)
    as [[|]|], (filtered s) eqn:Hf;
    cbn [negb fst snd given orElse orb andb];
    cbn [set_lowTemp set_highTemp set_filtered filtered adcFilterChannel
         lowTemp highTemp];
    rewrite ?Hf, ?(Z.geb_leb idx 0);
    destruct (Z.ltb_spec idx 0) as [Hi|Hi];
    destruct (Z.leb_spec 0 idx) as [Hj|Hj]; try lia;
    cbn [code sensor reply filterInit lowTemp highTemp filtered
         adcFilterChannel andb];
    (split; [split; [discriminate || reflexivity | discriminate || reflexivity]|]);
    (split; [intros; first [discriminate | repeat split; reflexivity]|]);
    (split; [split; [first [discriminate | intros _; repeat split; first [reflexivity | lia]]
                    | first [reflexivity | intros (A & B & C & D); first [discriminate | lia]]]|]);
    (split; [split; intros; first [discriminate | reflexivity]|]);
    (split; [reflexivity|]);
    (split; [intros; first [discriminate | split; [destruct s; cbn in *; subst; reflexivity | reflexivity]]|]);
    intros; first [discriminate | repeat split; reflexivity].
Qed.

(** X19.  [Poll] reports either a temperature with [success] or
    [notReady] without one, never another error; and [notReady] exactly
    when the sensor is filtered, has a filter channel, and the channel's
    averaging filter is not valid yet. *)
Theorem Poll_reports_success_or_notReady
    (s : t) (GetAdcFilter : Z -> AveragingFilter) (ReadAnalog : Z) :
  ((exists v, Poll s GetAdcFilter ReadAnalog = SetResult v success) \/
   Poll s GetAdcFilter ReadAnalog = SetResultError notReady) /\
  (Poll s GetAdcFilter ReadAnalog = SetResultError notReady <->
   filtered s = true /\ 0 <= adcFilterChannel s /\
   IsValid (GetAdcFilter (adcFilterChannel s)) = false) /\
  (temperature (Poll s GetAdcFilter ReadAnalog) = None <->
   Poll s GetAdcFilter ReadAnalog = SetResultError notReady).
Proof.
  unfold Poll. rewrite (Z.geb_leb (adcFilterChannel s) 0).
  destruct (filtered s); cbn [andb];
    [destruct (Z.leb_spec 0 (adcFilterChannel s)) as [Hc|Hc];
     [destruct (IsValid (GetAdcFilter (adcFilterChannel s)))|]|];
    cbn [temperature];
    (split; [first [left; eexists; reflexivity | right; reflexivity]|]);
    (split; [split; [first [discriminate | intros _; repeat split; first [reflexivity | assumption]]
                    | first [reflexivity | intros (A & B & C); first [discriminate | lia]]]|]);
    split; intros; first [discriminate | reflexivity].
Qed.

End Generic.

(** ** The calibration line in exact arithmetic *)

Lemma range_value (b : Z) :
  0 <= b <= 30 -> Int.s32 (Int.u32 (Z.shiftl 1 b)) = 2 ^ b.
Proof.
  intros Hb. rewrite Z.shiftl_1_l.
  assert (H : 0 < 2 ^ b <= 2 ^ 30).
  { split; [apply Z.pow_pos_nonneg; lia | apply Z.pow_le_mono_r; lia]. }
  unfold Int.s32, Int.wrap_s, Int.u32, Int.wrap_u.
  change (2 ^ (32 - 1)) with 2147483648. change (2 ^ 32) with 4294967296.
  change (2 ^ 30) with 1073741824 in H.
  rewrite (Z.mod_small (2 ^ b)) by lia. rewrite Z.mod_small by lia. lia.
Qed.

Lemma inject_Z_nonzero (R : Z) : 0 < R -> ~ (inject_Z R == 0)%Q.
Proof. intros HR. unfold Qeq, inject_Z. cbn. lia. Qed.

Lemma line_low (lo hi : Q) (R : Z) :
  0 < R -> (inject_Z 0 * ((hi - lo) / inject_Z R) + lo == lo)%Q.
Proof. intros HR. field. apply inject_Z_nonzero, HR. Qed.

Lemma line_high (lo hi : Q) (R : Z) :
  0 < R -> (inject_Z R * ((hi - lo) / inject_Z R) + lo == hi)%Q.
Proof. intros HR. field. apply inject_Z_nonzero, HR. Qed.

Lemma line_range (lo hi : Q) (R x : Z) :
  0 < R -> 0 <= x <= R -> (lo <= hi)%Q ->
  (lo <= inject_Z x * ((hi - lo) / inject_Z R) + lo <= hi)%Q.
Proof.
  intros HR Hx Hle.
  assert (Hq : (0 <= inject_Z x / inject_Z R <= 1)%Q).
  { split.
    - apply Qle_shift_div_l; [unfold Qlt, inject_Z; cbn; lia|].
      rewrite Qmult_0_l. unfold Qle, inject_Z; cbn; lia.
    - apply Qle_shift_div_r; [unfold Qlt, inject_Z; cbn; lia|].
      rewrite Qmult_1_l. unfold Qle, inject_Z; cbn; lia. }
  assert (E : (inject_Z x * ((hi - lo) / inject_Z R) + lo
               == inject_Z x / inject_Z R * (hi - lo) + lo)%Q)
    by (field; apply inject_Z_nonzero, HR).
  rewrite E. split; nra.
Qed.

(** X20.  An unfiltered sensor reads a straight line through its two
    configured points: in exact arithmetic, on a sensor whose derived
    members are consistent, a converter reading of 0 gives [lowTemp], a
    reading of [2 ^ AdcBits] (one past full scale) would give [highTemp],
    and with [lowTemp <= highTemp] every reading in between gives a
    temperature between the two. *)
Theorem Poll_direct_reading_line (AdcBits : Z) (s : @t exactQ)
    (GetAdcFilter : Z -> AveragingFilter) (x : Z) :
  0 <= AdcBits <= 30 ->
  @Consistent exactQ AdcBits s ->
  filtered s = false ->
  exists v : Q,
    @Poll exactQ s GetAdcFilter x = @SetResult exactQ v success /\
    (v == inject_Z x * ((highTemp s - lowTemp s) / inject_Z (2 ^ AdcBits))
          + lowTemp s)%Q /\
    (x = 0 -> (v == lowTemp s)%Q) /\
    (x = 2 ^ AdcBits -> (v == highTemp s)%Q) /\
    ((lowTemp s <= highTemp s)%Q -> 0 <= x <= 2 ^ AdcBits ->
     (lowTemp s <= v <= highTemp s)%Q).
Proof.
  intros Hb [_ Hk] Hf.
  assert (HR : 0 < 2 ^ AdcBits) by (apply Z.pow_pos_nonneg; lia).
  unfold Poll. rewrite Hf, Hk, Hf. cbn [andb].
  unfold UnfilteredAdcRange. rewrite (range_value AdcBits Hb).
  eexists. split; [reflexivity|].
  cbn [Fadd Fmul Fdiv Fsub F_of_Z exactQ].
  split; [reflexivity|]. split; [|split].
  - intros ->. apply line_low, HR.
  - intros ->. apply line_high, HR.
  - intros Hle Hx. apply line_range; assumption.
Qed.

Lemma Poll_direct_reading_witness :
  exists v : Q,
    @Poll exactQ directSensor (fullFilter 0) 2048 = @SetResult exactQ v success /\
    (v == inject_Z 2048
          * ((highTemp directSensor - lowTemp directSensor)
             / inject_Z (2 ^ 12))
          + lowTemp directSensor)%Q /\
    (2048 = 0 -> (v == lowTemp directSensor)%Q) /\
    (2048 = 2 ^ 12 -> (v == highTemp directSensor)%Q) /\
    ((lowTemp directSensor <= highTemp directSensor)%Q ->
     0 <= 2048 <= 2 ^ 12 ->
     (lowTemp directSensor <= v <= highTemp directSensor)%Q).
Proof.
  apply (Poll_direct_reading_line 12 directSensor (fullFilter 0) 2048).
  - lia.
  - split; [discriminate | reflexivity].
  - reflexivity.
Defined.

(** X21.  A filtered sensor stays inside its range: in exact arithmetic,
    on a consistent filtered sensor with at most 28 converter bits whose
    averaging filter is valid and holds a multiple of four samples, each
    at most [2 ^ AdcBits - 1], the reading handed to the line is the sum
    divided by a quarter of the sample count, it lies between 0 and
    [2 ^ (AdcBits + 2) - 4], and with [lowTemp <= highTemp] the reported
    temperature lies between [lowTemp] and [highTemp]. *)
Theorem Poll_filtered_reading_in_range (AdcBits : Z) (s : @t exactQ)
    (GetAdcFilter : Z -> AveragingFilter) (ReadAnalog : Z) :
  0 <= AdcBits <= 28 ->
  @Consistent exactQ AdcBits s ->
  filtered s = true ->
  IsValid (GetAdcFilter (adcFilterChannel s)) = true ->
  0 < NumAveraged (GetAdcFilter (adcFilterChannel s)) ->
  NumAveraged (GetAdcFilter (adcFilterChannel s)) mod 4 = 0 ->
  0 <= GetSum (GetAdcFilter (adcFilterChannel s))
    <= NumAveraged (GetAdcFilter (adcFilterChannel s)) * (2 ^ AdcBits - 1) ->
  (lowTemp s <= highTemp s)%Q ->
  let avg := GetSum (GetAdcFilter (adcFilterChannel s))
             / (NumAveraged (GetAdcFilter (adcFilterChannel s)) / 4) in
  exists v : Q,
    @Poll exactQ s GetAdcFilter ReadAnalog = @SetResult exactQ v success /\
    0 <= avg <= 2 ^ (AdcBits + 2) - 4 /\
    (v == inject_Z avg
          * ((highTemp s - lowTemp s) / inject_Z (2 ^ (AdcBits + 2)))
          + lowTemp s)%Q /\
    (lowTemp s <= v <= highTemp s)%Q.
Proof.
  intros Hb [Hch Hk] Hf Hv HN H4 Hsum Hle avg.
  specialize (Hch Hf).
  set (f := GetAdcFilter (adcFilterChannel s)) in *.
  assert (HP : 0 < 2 ^ AdcBits) by (apply Z.pow_pos_nonneg; lia).
  assert (HR : 2 ^ (AdcBits + 2) = 4 * 2 ^ AdcBits)
    by (rewrite Z.pow_add_r by lia; lia).
  assert (Hq : NumAveraged f = 4 * (NumAveraged f / 4))
    by (apply Z.div_exact; lia).
  assert (Hq0 : 0 < NumAveraged f / 4) by lia.
  assert (Havg : 0 <= avg <= 2 ^ (AdcBits + 2) - 4).
  { unfold avg. split.
    - apply Z.div_pos; lia.
    - apply Z.div_le_upper_bound; [lia|]. rewrite HR. nia. }
  assert (Hsh : Z.shiftr (NumAveraged f) AdcOversampleBits = NumAveraged f / 4)
    by (unfold AdcOversampleBits; rewrite Z.shiftr_div_pow2 by lia; reflexivity).
  assert (Hw : Int.s32 avg = avg).
  { assert (2 ^ (AdcBits + 2) <= 2 ^ 30) by (apply Z.pow_le_mono_r; lia).
    unfold Int.s32, Int.wrap_s.
    change (2 ^ (32 - 1)) with 2147483648. change (2 ^ 32) with 4294967296.
    change (2 ^ 30) with 1073741824 in *.
    rewrite Z.mod_small; lia. }
  unfold Poll. rewrite Hf, Hk, Hf. fold f. rewrite Hv.
  destruct (Z.geb_spec (adcFilterChannel s) 0) as [_|]; [|lia].
  cbn [andb]. rewrite Hsh. fold avg. rewrite Hw.
  unfold FilteredAdcRange, AdcOversampleBits.
  rewrite (range_value (AdcBits + 2)) by lia.
  eexists. split; [reflexivity|]. split; [exact Havg|].
  cbn [Fadd Fmul Fdiv Fsub F_of_Z exactQ].
  split; [reflexivity|].
  apply line_range; [lia | lia | exact Hle].
Qed.

Lemma Poll_filtered_reading_witness :
  exists v : Q,
    @Poll exactQ filteredSensor (fullFilter 131072) 0 = @SetResult exactQ v success /\
    0 <= 131072 / (64 / 4) <= 2 ^ (12 + 2) - 4 /\
    (v == inject_Z (131072 / (64 / 4))
          * ((highTemp filteredSensor - lowTemp filteredSensor)
             / inject_Z (2 ^ (12 + 2)))
          + lowTemp filteredSensor)%Q /\
    (lowTemp filteredSensor <= v <= highTemp filteredSensor)%Q.
Proof.
  apply (Poll_filtered_reading_in_range 12 filteredSensor
           (fullFilter 131072) 0).
  - lia.
  - split; [intros _; cbn; lia | reflexivity].
  - reflexivity.
  - reflexivity.
  - cbn; lia.
  - reflexivity.
  - cbn; lia.
  - cbn. unfold Qle. cbn. lia.
Defined.

End SensorFacts.
